(** * Food Stall Finder backend: access control, ownership and cascades

    A shallow embedding of the FastAPI handlers of [backend/app]
    ([auth/auth.py], [auth/jwt.py], [stalls/router.py], [menu/router.py],
    [reviews/router.py], [utils/location.py], [utils/s3.py]) and the
    properties of its specification.

    Conventions.
    - Python [float] is IEEE binary64: Rocq's primitive [float].
    - Python [str] is [string]; [Optional[T]] is [option T].
    - A DynamoDB table is the list of its records in scan order; the key of
      a record is one of its fields.  [Table.scan] returns every matching
      record (the paging of very large scans is not modelled).  A record put
      under a new key is placed last; DynamoDB does not fix the place of a
      new record in a scan, and no statement below relies on it except by
      naming [Items.put_item].
    - The boto3 resource writes a [str], an [int], a [Decimal] and a [dict]
      of such, and refuses a Python [float] with [TypeError]; a table
      returns the numbers it stores as [Decimal]s.  A number of a record is
      therefore tagged with its Python type ([Number]).
    - An update expression is the list of its [SET] assignments, each with
      the path it names, the numbers of its value and its effect.  DynamoDB
      refuses an expression ([ClientError], code [ValidationException])
      when [ExpressionAttributeNames] is empty or holds a name that the
      expression does not use, when a name the expression uses is not
      defined, and when a path is one of its reserved words.
    - [datetime.utcnow()] is an instant in whole seconds ([Z]); the
      [isoformat()] rendering stored in [created_at]/[updated_at] is kept as
      the instant itself.
    - [uuid.uuid4()], [bcrypt.gensalt()] and the clock are inputs of a
      request ([Env]).
    - A handler is a function from the world (the four tables, the S3 bucket
      and the log of writes) to a result or a raised exception, and the next
      world. *)

From Stdlib Require Import String Ascii List ZArith Bool Lia.
From Stdlib Require Import Floats.
From Stdlib Require Import Sorting.Sorted Sorting.Permutation.
Import ListNotations.

Local Open Scope string_scope.
Local Open Scope Z_scope.

(* ================================================================== *)
(** * Python values *)

Module Py.

(** Truth value testing ([if x:], [any([...])]). *)
Class Truthy (A : Type) := truthy : A -> bool.

(** A string is true when it is not empty. *)
#[global] Instance truthy_str : Truthy string :=
  fun s => match s with EmptyString => false | String _ _ => true end.

(** A float is true when it differs from zero ([nan] is true, [-0.0] is
    false). *)
#[global] Instance truthy_float : Truthy float :=
  fun x => negb (x =? 0)%float.

(** An integer (also a [timedelta] counted in seconds) is true when it is
    not zero. *)
#[global] Instance truthy_int : Truthy Z :=
  fun n => negb (n =? 0).

(** [None] is false; any other optional value has the truth value of its
    content. *)
#[global] Instance truthy_optional {A} `{Truthy A} : Truthy (option A) :=
  fun o => match o with None => false | Some a => truthy a end.

(** A list is true when it is not empty. *)
#[global] Instance truthy_list {A} : Truthy (list A) :=
  fun l => match l with [] => false | _ :: _ => true end.

(** [any(iterable_of_truth_values)]. *)
Definition any (l : list bool) : bool := existsb (fun b => b) l.

(** [x if x is not None else y]. *)
Definition if_not_None {A} (x : option A) (y : A) : A :=
  match x with Some v => v | None => y end.

(** [s.split(".")[-1]]: what follows the last dot, the whole string when
    there is none. *)
Fixpoint split_dot_last_aux (s acc : string) : string :=
  match s with
  | EmptyString => acc
  | String c s' =>
      if Ascii.eqb c "."%char then split_dot_last_aux s' EmptyString
      else split_dot_last_aux s' (acc ++ String c EmptyString)
  end.

Definition split_dot_last (s : string) : string :=
  split_dot_last_aux s EmptyString.

(** [list.sort(key=...)] on float keys: a stable sort that compares keys
    with [<] only.  An element is inserted before the first element of the
    sorted tail whose key is not smaller than its own, so equal keys keep
    their order. *)
Section Sort.
Context {A : Type} (key : A -> float).

Fixpoint insert (x : A) (l : list A) : list A :=
  match l with
  | [] => [x]
  | y :: l' =>
      if (key y <? key x)%float then y :: insert x l' else x :: y :: l'
  end.

Fixpoint sort (l : list A) : list A :=
  match l with
  | [] => []
  | x :: l' => insert x (sort l')
  end.
End Sort.

End Py.
Import Py.

(* ================================================================== *)
(** * Exceptions and the handler monad *)

(** What a handler can raise: FastAPI's [HTTPException] (status code,
    detail, headers), the built-in errors of the [math] module, the
    [TypeError] of the boto3 serializer, and botocore's [ClientError], by
    its error code. *)
Inductive exn : Type :=
| HTTPException (status_code : Z) (detail : string)
                (headers : list (string * string))
| ValueError (msg : string)
| OverflowError (msg : string)
| TypeError (msg : string)
| ClientError (code : string).

Definition HTTP_400_BAD_REQUEST : Z := 400.
Definition HTTP_401_UNAUTHORIZED : Z := 401.
Definition HTTP_403_FORBIDDEN : Z := 403.
Definition HTTP_404_NOT_FOUND : Z := 404.

(** The denial kinds of the specification. *)
Inductive Denial : Type :=
| NotFound | Mismatch | Forbidden | InvalidInput | InvalidRole
| DuplicateEmail | DuplicateReview | Unauthenticated | InvalidCredentials.

(** The denial kind a raised exception stands for: 404 is [NotFound], 403 is
    [Forbidden], 401 is [InvalidCredentials] for the login failure and
    [Unauthenticated] otherwise, and the 400s are told apart by their
    detail. *)
Definition denial_kind (e : exn) : option Denial :=
  match e with
  | HTTPException code detail _ =>
      if code =? HTTP_404_NOT_FOUND then Some NotFound
      else if code =? HTTP_403_FORBIDDEN then Some Forbidden
      else if code =? HTTP_401_UNAUTHORIZED then
        if String.eqb detail "Incorrect email or password"
        then Some InvalidCredentials else Some Unauthenticated
      else if code =? HTTP_400_BAD_REQUEST then
        if String.eqb detail "User with this email already exists"
        then Some DuplicateEmail
        else if String.eqb detail
                  "User type must be either 'owner' or 'customer'"
        then Some InvalidRole
        else if String.eqb detail
                  "You have already reviewed this stall. Please edit your existing review."
        then Some DuplicateReview
        else if String.eqb detail "Menu item does not belong to this stall"
                || String.eqb detail "Review does not belong to this stall"
        then Some Mismatch
        else Some InvalidInput
      else None
  | ValueError _ | OverflowError _ | TypeError _ | ClientError _ => None
  end.

(** A computation that raises or returns, without state. *)
Definition result (A : Type) : Type := (exn + A)%type.

(** A handler threads the world [W] and may raise. *)
Definition M (W A : Type) : Type := W -> result A * W.

Definition ret {W A} (a : A) : M W A := fun w => (inr a, w).

Definition raise {W A} (e : exn) : M W A := fun w => (inl e, w).

Definition bind {W A B} (m : M W A) (k : A -> M W B) : M W B :=
  fun w =>
    match m w with
    | (inl e, w') => (inl e, w')
    | (inr a, w') => k a w'
    end.

(** [if cond: raise e]. *)
Definition raise_if {W} (cond : bool) (e : exn) : M W unit :=
  if cond then raise e else ret tt.

(** A pure computation that may raise, run inside a handler. *)
Definition lift {W A} (r : result A) : M W A := fun w => (r, w).

(** [for x in l: body(x)]. *)
Fixpoint for_each {W A} (l : list A) (body : A -> M W unit) : M W unit :=
  match l with
  | [] => ret tt
  | x :: l' => bind (body x) (fun _ => for_each l' body)
  end.

(** [[f(x) for x in l]] where [f] may raise. *)
Fixpoint traverse {A B} (f : A -> result B) (l : list A) : result (list B) :=
  match l with
  | [] => inr []
  | x :: l' =>
      match f x with
      | inl e => inl e
      | inr b =>
          match traverse f l' with
          | inl e => inl e
          | inr bs => inr (b :: bs)
          end
      end
  end.

Declare Scope handler_scope.
Delimit Scope handler_scope with handler.
Notation "x <- m ;; k" := (bind m (fun x => k))
  (at level 61, m at next level, right associativity) : handler_scope.
Notation "m ;; k" := (bind m (fun _ => k))
  (at level 61, right associativity) : handler_scope.
Local Open Scope handler_scope.

(* ================================================================== *)
(** * Records *)

Definition datetime : Type := Z.
Definition timedelta : Type := Z.

(** [timedelta(minutes=n)], in seconds. *)
Definition timedelta_minutes (n : Z) : timedelta := n * 60.

(** A number of a record: the [float] of a form field, or the [Decimal]
    that a table returns for a number it stores (kept as the float it
    converts to). *)
Inductive Number : Type :=
| PyFloat (x : float)
| Decimal (x : float).

(** [float(n)], as [math.radians] takes its argument. *)
Definition float_of (n : Number) : float :=
  match n with
  | PyFloat x => x
  | Decimal x => x
  end.

(** [isinstance(n, float)]. *)
Definition is_float (n : Number) : bool :=
  match n with
  | PyFloat _ => true
  | Decimal _ => false
  end.

(** An item of [food_stall_finder_users]. *)
Module User.
Record t : Type := mk {
  user_id : string;
  email : string;
  full_name : string;
  password : string;
  user_type : string;
  created_at : datetime;
  updated_at : datetime
}.
End User.

(** [LocationModel]. *)
Module Location.
Record t : Type := mk {
  latitude : Number;
  longitude : Number;
  address : string
}.

(** The numbers of a location. *)
Definition numbers (l : t) : list Number := [latitude l; longitude l].
End Location.

(** An item of [food_stall_finder_stalls]. *)
Module Stall.
Record t : Type := mk {
  stall_id : string;
  owner_id : string;
  name : string;
  description : string;
  location : Location.t;
  image_url : string;
  created_at : datetime;
  updated_at : datetime
}.
End Stall.

(** An item of [food_stall_finder_menu_items]. *)
Module MenuItem.
Record t : Type := mk {
  item_id : string;
  stall_id : string;
  name : string;
  price : Number;
  description : string;
  category : string;
  image_url : string;
  created_at : datetime;
  updated_at : datetime
}.
End MenuItem.

(** An item of [food_stall_finder_reviews]. *)
Module Review.
Record t : Type := mk {
  review_id : string;
  stall_id : string;
  user_id : string;
  user_name : string;
  rating : Z;
  comment : string;
  created_at : datetime;
  updated_at : datetime
}.
End Review.

(** [UserResponse]: the user without the password. *)
Record UserResponse : Type := {
  resp_user_id : string;
  resp_email : string;
  resp_full_name : string;
  resp_user_type : string;
  resp_created_at : datetime
}.

(** [UserCreate]. *)
Record UserCreate : Type := {
  uc_email : string;
  uc_full_name : string;
  uc_password : string;
  uc_user_type : string
}.

(** [ReviewCreate]. *)
Record ReviewCreate : Type := {
  rc_rating : Z;
  rc_comment : string
}.

(** [OAuth2PasswordRequestForm]. *)
Record LoginForm : Type := {
  username : string;
  form_password : string
}.

(** FastAPI's [UploadFile]. *)
Record UploadFile : Type := {
  filename : string;
  content_type : string;
  contents : string
}.

(** An object of the S3 bucket. *)
Record S3Object : Type := {
  Bucket : string;
  Key : string;
  Body : string;
  ContentType : string
}.

(** [config.Settings]: the values the handlers read. *)
Record Settings : Type := {
  SECRET_KEY : string;
  ALGORITHM : string;
  AWS_REGION : string;
  S3_BUCKET_NAME : string
}.

(** What a request draws from its environment: the successive results of
    [uuid.uuid4()], the clock and the bcrypt salt. *)
Record Env : Type := {
  uuid4 : nat -> string;
  utcnow : datetime;
  gensalt : string
}.

(* ================================================================== *)
(** * Update expressions *)

(** One assignment [path = :value] of a [SET] update expression: the path
    as the expression writes it (an attribute name, or a [#name]
    placeholder), the numbers of the value bound to [:value], and what the
    assignment does to the item. *)
Record Assignment (R : Type) : Type := SET {
  path : string;
  value_numbers : list Number;
  assign : R -> R
}.
Arguments SET {R}.
Arguments path {R}.
Arguments value_numbers {R}.
Arguments assign {R}.

(** The effect of an update expression: its assignments, in the order they
    are appended. *)
Definition apply_update {R} (update_expression : list (Assignment R))
    (r : R) : R :=
  fold_left (fun r' a => assign a r') update_expression r.

(** [if x: update_expression += ...] for an optional form field. *)
Definition set_if_truthy {R A} `{Truthy A} (x : option A)
    (a : A -> Assignment R) (update_expression : list (Assignment R))
  : list (Assignment R) :=
  match x with
  | Some v =>
      if truthy v then (update_expression ++ [a v])%list
      else update_expression
  | None => update_expression
  end.

(** [if x is not None: update_expression += ...]. *)
Definition set_if_not_None {R A} (x : option A)
    (a : A -> Assignment R) (update_expression : list (Assignment R))
  : list (Assignment R) :=
  match x with
  | Some v => (update_expression ++ [a v])%list
  | None => update_expression
  end.

(** The exception of boto3's [TypeSerializer] for a Python [float]. *)
Definition float_not_supported : exn :=
  TypeError "Float types are not supported. Use Decimal types instead.".

(** The exception of a request that DynamoDB does not accept. *)
Definition validation_exception : exn := ClientError "ValidationException".

(** The reserved words of DynamoDB among the attribute names of the four
    tables. *)
Definition reserved_words : list string := ["comment"; "location"; "name"].

Definition is_reserved (name : string) : bool :=
  existsb (String.eqb name) reserved_words.

(** The path is a placeholder of [ExpressionAttributeNames]. *)
Definition is_placeholder (path : string) : bool :=
  match path with
  | String c _ => Ascii.eqb c "#"%char
  | EmptyString => false
  end.

(** DynamoDB refuses the update: [names] is what the call passes as
    [ExpressionAttributeNames] ([None] when it passes none).  An empty
    dictionary is refused, and so is a placeholder that no path uses, a
    path that uses an undefined placeholder, and a path that is a reserved
    word. *)
Definition expression_refused {R} (update_expression : list (Assignment R))
    (names : option (list (string * string))) : bool :=
  let defined :=
    map fst (match names with Some l => l | None => [] end) in
  let used := map path update_expression in
  match names with Some [] => true | _ => false end
  || existsb (fun n => negb (existsb (String.eqb n) used)) defined
  || existsb (fun p => if is_placeholder p
                       then negb (existsb (String.eqb p) defined)
                       else is_reserved p) used.

(* ================================================================== *)
(** * The world: tables, bucket and the log of writes *)

Inductive TableName : Type := Users | Stalls | MenuItems | Reviews.

(** One write reaching a collaborator, in the order it is issued. *)
Inductive Write : Type :=
| PutItem (table : TableName) (key : string)
| UpdateItem (table : TableName) (key : string)
| DeleteItem (table : TableName) (key : string)
| PutObject (key : string).

Record World : Type := {
  users_table : list User.t;
  stalls_table : list Stall.t;
  menu_items_table : list MenuItem.t;
  reviews_table : list Review.t;
  s3_bucket : list S3Object;
  writes : list Write
}.

Definition Handler (A : Type) : Type := M World A.

Definition log (wr : Write) (w : World) : World :=
  {| users_table := users_table w; stalls_table := stalls_table w;
     menu_items_table := menu_items_table w;
     reviews_table := reviews_table w; s3_bucket := s3_bucket w;
     writes := writes w ++ [wr] |}.

(** ** Plain operations on the records of one table *)

Module Items.
Section Ops.
Context {R : Type} (key : R -> string).

Definition has_key (k : string) (r : R) : bool := String.eqb (key r) k.

Definition get_item (k : string) (tbl : list R) : option R :=
  find (has_key k) tbl.

(** [put_item] replaces the record with the same key, or adds one. *)
Definition put_item (r : R) (tbl : list R) : list R :=
  if existsb (has_key (key r)) tbl
  then map (fun r' => if has_key (key r) r' then r else r') tbl
  else tbl ++ [r].

Definition delete_item (k : string) (tbl : list R) : list R :=
  filter (fun r => negb (has_key k r)) tbl.

(** [update_item] with a [SET] expression [upd], on a stored key. *)
Definition update_item (k : string) (upd : R -> R) (tbl : list R)
  : list R :=
  map (fun r => if has_key k r then upd r else r) tbl.

Definition scan (flt : R -> bool) (tbl : list R) : list R :=
  filter flt tbl.
End Ops.
End Items.

(** ** A table of the world *)

(** A table of the world, with the numbers that an item of it holds. *)
Record Table (R : Type) : Type := {
  table_name : TableName;
  key_of : R -> string;
  item_numbers : R -> list Number;
  records : World -> list R;
  with_records : list R -> World -> World
}.
Arguments table_name {R}.
Arguments key_of {R}.
Arguments item_numbers {R}.
Arguments records {R}.
Arguments with_records {R}.

Definition users : Table User.t :=
  {| table_name := Users; key_of := User.user_id;
     item_numbers := fun _ => []; records := users_table;
     with_records := fun l w =>
       {| users_table := l; stalls_table := stalls_table w;
          menu_items_table := menu_items_table w;
          reviews_table := reviews_table w; s3_bucket := s3_bucket w;
          writes := writes w |} |}.

Definition stalls : Table Stall.t :=
  {| table_name := Stalls; key_of := Stall.stall_id;
     item_numbers := fun s => Location.numbers (Stall.location s);
     records := stalls_table;
     with_records := fun l w =>
       {| users_table := users_table w; stalls_table := l;
          menu_items_table := menu_items_table w;
          reviews_table := reviews_table w; s3_bucket := s3_bucket w;
          writes := writes w |} |}.

Definition menu_items : Table MenuItem.t :=
  {| table_name := MenuItems; key_of := MenuItem.item_id;
     item_numbers := fun i => [MenuItem.price i];
     records := menu_items_table;
     with_records := fun l w =>
       {| users_table := users_table w; stalls_table := stalls_table w;
          menu_items_table := l;
          reviews_table := reviews_table w; s3_bucket := s3_bucket w;
          writes := writes w |} |}.

Definition reviews : Table Review.t :=
  {| table_name := Reviews; key_of := Review.review_id;
     item_numbers := fun _ => [];
     records := reviews_table;
     with_records := fun l w =>
       {| users_table := users_table w; stalls_table := stalls_table w;
          menu_items_table := menu_items_table w;
          reviews_table := l; s3_bucket := s3_bucket w;
          writes := writes w |} |}.

(** ** The calls of the handlers on a table *)

Section TableCalls.
Context {R : Type} (T : Table R).

(** [T.get_item(Key={...}).get("Item")]. *)
Definition get_item (k : string) : Handler (option R) :=
  fun w => (inr (Items.get_item (key_of T) k (records T w)), w).

(** [T.scan(FilterExpression=flt).get("Items", [])]. *)
Definition scan (flt : R -> bool) : Handler (list R) :=
  fun w => (inr (Items.scan flt (records T w)), w).

(** [T.put_item(Item=r)]: the item is serialized, which a Python [float]
    among its values makes fail, and then stored. *)
Definition put_item (r : R) : Handler unit :=
  fun w =>
    if existsb is_float (item_numbers T r)
    then (inl float_not_supported, w)
    else
      (inr tt,
       log (PutItem (table_name T) (key_of T r))
           (with_records T (Items.put_item (key_of T) r (records T w)) w)).

(** [T.delete_item(Key={...})]. *)
Definition delete_item (k : string) : Handler unit :=
  fun w =>
    (inr tt,
     log (DeleteItem (table_name T) k)
         (with_records T (Items.delete_item (key_of T) k (records T w)) w)).

(** [T.update_item(Key={...}, UpdateExpression=update_expression,
    ExpressionAttributeValues=..., ExpressionAttributeNames=names,
    ReturnValues="ALL_NEW").get("Attributes")]: the values are serialized,
    which a Python [float] among them makes fail; DynamoDB then checks the
    expression; the result is the stored record after the update. *)
Definition update_item (k : string)
    (update_expression : list (Assignment R))
    (names : option (list (string * string))) : Handler (option R) :=
  fun w =>
    if existsb is_float (flat_map value_numbers update_expression)
    then (inl float_not_supported, w)
    else if expression_refused update_expression names
    then (inl validation_exception, w)
    else
      let tbl :=
        Items.update_item (key_of T) k (apply_update update_expression)
                          (records T w) in
      (inr (Items.get_item (key_of T) k tbl),
       log (UpdateItem (table_name T) k) (with_records T tbl w)).
End TableCalls.

(** [s3_client.put_object(...)]. *)
Definition put_object (o : S3Object) : Handler unit :=
  fun w =>
    (inr tt,
     log (PutObject (Key o))
       {| users_table := users_table w; stalls_table := stalls_table w;
          menu_items_table := menu_items_table w;
          reviews_table := reviews_table w;
          s3_bucket := s3_bucket w ++ [o]; writes := writes w |}).

(* ================================================================== *)
(** * utils/location.py *)

(** The functions of the C mathematics library behind [math.sin],
    [math.cos], [math.asin] and the float power: their values are not fixed
    by the language. *)
Record Libm : Type := {
  libm_sin : float -> float;
  libm_cos : float -> float;
  libm_asin : float -> float;
  libm_pow : float -> float -> float
}.

Module Math.

Definition rbind {A B} (r : result A) (k : A -> result B) : result B :=
  match r with
  | inl e => inl e
  | inr a => k a
  end.

Declare Scope result_scope.
Delimit Scope result_scope with result.
Notation "x <- m ;; k" := (rbind m (fun x => k))
  (at level 61, m at next level, right associativity) : result_scope.

Definition domain_error : exn := ValueError "math domain error".

(** CPython's wrapper of a one-argument libm function that cannot
    overflow: a [nan] result of a number, or an infinite result of a finite
    number, raises [ValueError]. *)
Definition math_1 (func : float -> float) (x : float) : result float :=
  let r := func x in
  if is_nan r && negb (is_nan x) then inl domain_error
  else if is_infinity r && is_finite x then inl domain_error
  else inr r.

(** [math.pi / 180.0]. *)
Definition degToRad : float := (0x1.921fb54442d18p+1 / 180)%float.

(** [math.radians]. *)
Definition radians (x : float) : float := (x * degToRad)%float.

(** [math.sqrt]: the correctly rounded square root. *)
Definition sqrt (x : float) : result float := math_1 PrimFloat.sqrt x.

Section WithLibm.
Variable libm : Libm.

Definition sin (x : float) : result float := math_1 (libm_sin libm) x.
Definition cos (x : float) : result float := math_1 (libm_cos libm) x.
Definition asin (x : float) : result float := math_1 (libm_asin libm) x.

(** [x ** 2] on floats: [nan], the infinities and zero are answered
    without libm; an infinite power of a finite number raises
    [OverflowError]. *)
Definition pow2 (x : float) : result float :=
  if is_nan x then inr x
  else if is_infinity x then inr infinity
  else if is_zero x then inr 0%float
  else
    let r := libm_pow libm x 2%float in
    if is_infinity r
    then inl (OverflowError "(34, 'Numerical result out of range')")
    else inr r.
End WithLibm.

End Math.

Section Location.
Variable libm : Libm.
Import Math.
Local Open Scope result_scope.

(** [calculate_distance(point1, point2)]: the haversine distance in
    kilometres between two (latitude, longitude) points in degrees. *)
Definition calculate_distance (point1 point2 : float * float)
  : result float :=
  let '(lat1, lon1) := point1 in
  let '(lat2, lon2) := point2 in
  let lon1 := radians lon1 in
  let lat1 := radians lat1 in
  let lon2 := radians lon2 in
  let lat2 := radians lat2 in
  let dlon := (lon2 - lon1)%float in
  let dlat := (lat2 - lat1)%float in
  s1 <- sin libm (dlat / 2)%float ;;
  s1_2 <- pow2 libm s1 ;;
  c1 <- cos libm lat1 ;;
  c2 <- cos libm lat2 ;;
  s2 <- sin libm (dlon / 2)%float ;;
  s2_2 <- pow2 libm s2 ;;
  let a := (s1_2 + c1 * c2 * s2_2)%float in
  q <- sqrt a ;;
  as_ <- asin libm q ;;
  let c := (2 * as_)%float in
  let r := 6371%float in
  inr (c * r)%float.
End Location.

(* ================================================================== *)
(** * utils/s3.py *)

Section S3.
Variable settings : Settings.

(** [upload_file_to_s3(file, prefix)]: stores the file under a fresh key
    and returns its URL.  [uuid] is the result of [uuid.uuid4()]. *)
Definition upload_file_to_s3 (file : UploadFile) (prefix : string)
    (uuid : string) : Handler string :=
  let file_extension := split_dot_last (filename file) in
  let unique_filename := prefix ++ "/" ++ uuid ++ "." ++ file_extension in
  put_object {| Bucket := S3_BUCKET_NAME settings;
                Key := unique_filename;
                Body := contents file;
                ContentType := content_type file |} ;;
  let url := "https://" ++ S3_BUCKET_NAME settings ++ ".s3."
             ++ AWS_REGION settings ++ ".amazonaws.com/"
             ++ unique_filename in
  ret url.
End S3.

(* ================================================================== *)
(** * Collaborators of the identity store *)

(** The payload of a token: the subject and the expiry. *)
Record Claims : Type := {
  sub : option string;
  exp : datetime
}.

(** [bcrypt]. *)
Record Bcrypt : Type := {
  hashpw : string -> string -> string;
  checkpw : string -> string -> bool
}.

(** [jose.jwt] over some representation of tokens.  [jwt_decode] is given
    the clock; [None] stands for a raised [JWTError]. *)
Record Jose (token : Type) : Type := {
  jwt_encode : Claims -> string -> string -> token;
  jwt_decode : token -> string -> list string -> datetime -> option Claims
}.
Arguments jwt_encode {token}.
Arguments jwt_decode {token}.

(** [Token]. *)
Record Token (token : Type) : Type := {
  access_token : token;
  token_type : string
}.
Arguments access_token {token}.
Arguments token_type {token}.

Section Backend.
Variable settings : Settings.
Variable bcrypt : Bcrypt.
Variable token : Type.
Variable jose : Jose token.
Variable libm : Libm.

(* ---------------------------------------------------------------- *)
(** * auth/jwt.py *)

(** [create_access_token(data, expires_delta)], with [data = {"sub": ...}]
    and the clock [now]. *)
Definition create_access_token (data_sub : option string)
    (expires_delta : option timedelta) (now : datetime) : token :=
  let expire :=
    if truthy expires_delta
    then now + if_not_None expires_delta 0
    else now + timedelta_minutes 15 in
  jwt_encode jose {| sub := data_sub; exp := expire |}
             (SECRET_KEY settings) (ALGORITHM settings).

Definition credentials_exception : exn :=
  HTTPException HTTP_401_UNAUTHORIZED "Could not validate credentials"
                [("WWW-Authenticate", "Bearer")].

(** [get_current_user(token)]. *)
Definition get_current_user (tok : token) (env : Env) : Handler User.t :=
  match jwt_decode jose tok (SECRET_KEY settings) [ALGORITHM settings]
                   (utcnow env) with
  | None => raise credentials_exception
  | Some payload =>
      match sub payload with
      | None => raise credentials_exception
      | Some user_id =>
          user <- get_item users user_id ;;
          match user with
          | None => raise credentials_exception
          | Some user => ret user
          end
      end
  end.

(** [get_current_owner(current_user)]. *)
Definition get_current_owner (current_user : User.t) : Handler User.t :=
  raise_if (negb (String.eqb (User.user_type current_user) "owner"))
    (HTTPException HTTP_403_FORBIDDEN "User is not an owner" []) ;;
  ret current_user.

(** An endpoint declared with [Depends(get_current_owner)], once its
    caller is resolved. *)
Definition as_owner {A} (current_user : User.t)
    (endpoint : User.t -> Handler A) : Handler A :=
  owner <- get_current_owner current_user ;;
  endpoint owner.

(** The whole dependency chain of an endpoint of an owner, from the
    bearer token. *)
Definition Depends_get_current_owner {A} (tok : token) (env : Env)
    (endpoint : User.t -> Handler A) : Handler A :=
  current_user <- get_current_user tok env ;;
  as_owner current_user endpoint.

(** The dependency chain of an endpoint open to every user. *)
Definition Depends_get_current_user {A} (tok : token) (env : Env)
    (endpoint : User.t -> Handler A) : Handler A :=
  current_user <- get_current_user tok env ;;
  endpoint current_user.

(* ---------------------------------------------------------------- *)
(** * auth/auth.py *)

Definition duplicate_email : exn :=
  HTTPException HTTP_400_BAD_REQUEST "User with this email already exists" [].

Definition invalid_user_type : exn :=
  HTTPException HTTP_400_BAD_REQUEST
                "User type must be either 'owner' or 'customer'" [].

(** [register_user(user)]. *)
Definition register_user (user : UserCreate) (env : Env)
  : Handler UserResponse :=
  items <- scan users (fun u => String.eqb (User.email u) (uc_email user)) ;;
  raise_if (truthy items) duplicate_email ;;
  raise_if (negb (existsb (String.eqb (uc_user_type user))
                          ["owner"; "customer"]))
           invalid_user_type ;;
  let hashed_password := hashpw bcrypt (uc_password user) (gensalt env) in
  let user_id := uuid4 env 0%nat in
  let timestamp := utcnow env in
  let new_user :=
    {| User.user_id := user_id;
       User.email := uc_email user;
       User.full_name := uc_full_name user;
       User.password := hashed_password;
       User.user_type := uc_user_type user;
       User.created_at := timestamp;
       User.updated_at := timestamp |} in
  put_item users new_user ;;
  ret {| resp_user_id := user_id;
         resp_email := uc_email user;
         resp_full_name := uc_full_name user;
         resp_user_type := uc_user_type user;
         resp_created_at := timestamp |}.

Definition incorrect_email_or_password : exn :=
  HTTPException HTTP_401_UNAUTHORIZED "Incorrect email or password"
                [("WWW-Authenticate", "Bearer")].

(** [login_for_access_token(form_data)]. *)
Definition login_for_access_token (form_data : LoginForm) (env : Env)
  : Handler (Token token) :=
  items <- scan users
             (fun u => String.eqb (User.email u) (username form_data)) ;;
  match items with
  | [] => raise incorrect_email_or_password
  | user :: _ =>
      raise_if (negb (checkpw bcrypt (form_password form_data)
                              (User.password user)))
        incorrect_email_or_password ;;
      let access_token_expires := timedelta_minutes (60 * 24 * 7) in
      let access_token :=
        create_access_token (Some (User.user_id user))
                            (Some access_token_expires) (utcnow env) in
      ret {| access_token := access_token; token_type := "bearer" |}
  end.

(** [read_users_me(current_user)]. *)
Definition read_users_me (current_user : User.t) : Handler UserResponse :=
  ret {| resp_user_id := User.user_id current_user;
         resp_email := User.email current_user;
         resp_full_name := User.full_name current_user;
         resp_user_type := User.user_type current_user;
         resp_created_at := User.created_at current_user |}.

(* ---------------------------------------------------------------- *)
(** * stalls/router.py *)

Definition Stall_set_updated_at (v : datetime) (s : Stall.t) : Stall.t :=
  Stall.mk (Stall.stall_id s) (Stall.owner_id s) (Stall.name s)
           (Stall.description s) (Stall.location s) (Stall.image_url s)
           (Stall.created_at s) v.

Definition Stall_set_name (v : string) (s : Stall.t) : Stall.t :=
  Stall.mk (Stall.stall_id s) (Stall.owner_id s) v
           (Stall.description s) (Stall.location s) (Stall.image_url s)
           (Stall.created_at s) (Stall.updated_at s).

Definition Stall_set_description (v : string) (s : Stall.t) : Stall.t :=
  Stall.mk (Stall.stall_id s) (Stall.owner_id s) (Stall.name s)
           v (Stall.location s) (Stall.image_url s)
           (Stall.created_at s) (Stall.updated_at s).

Definition Stall_set_location (v : Location.t) (s : Stall.t) : Stall.t :=
  Stall.mk (Stall.stall_id s) (Stall.owner_id s) (Stall.name s)
           (Stall.description s) v (Stall.image_url s)
           (Stall.created_at s) (Stall.updated_at s).

Definition Stall_set_image_url (v : string) (s : Stall.t) : Stall.t :=
  Stall.mk (Stall.stall_id s) (Stall.owner_id s) (Stall.name s)
           (Stall.description s) (Stall.location s) v
           (Stall.created_at s) (Stall.updated_at s).

(** A stall as returned by the listing: the record, and the ["distance"]
    entry when the listing computed one. *)
Record StallResponse : Type := {
  stall : Stall.t;
  distance : option float
}.

Definition stall_not_found : exn :=
  HTTPException HTTP_404_NOT_FOUND "Stall not found" [].

Definition not_the_owner : exn :=
  HTTPException HTTP_403_FORBIDDEN "You are not the owner of this stall" [].

(** [create_stall(name, description, latitude, longitude, address, image,
    current_user)]. *)
Definition create_stall (name description : string)
    (latitude longitude : float) (address : string) (image : UploadFile)
    (env : Env) (current_user : User.t) : Handler Stall.t :=
  image_url <- upload_file_to_s3 settings image
                 ("stalls/" ++ User.user_id current_user)
                 (uuid4 env 0%nat) ;;
  let stall_id := uuid4 env 1%nat in
  let timestamp := utcnow env in
  let new_stall :=
    {| Stall.stall_id := stall_id;
       Stall.owner_id := User.user_id current_user;
       Stall.name := name;
       Stall.description := description;
       Stall.location :=
         {| Location.latitude := PyFloat latitude;
            Location.longitude := PyFloat longitude;
            Location.address := address |};
       Stall.image_url := image_url;
       Stall.created_at := timestamp;
       Stall.updated_at := timestamp |} in
  put_item stalls new_stall ;;
  ret new_stall.

(** The default of the [radius] parameter of [get_stalls]. *)
Definition default_radius : float := 5%float.

(** The loop of [get_stalls] that sets [stall["distance"]]. *)
Definition with_distance (user_location : float * float) (s : Stall.t)
  : result (Stall.t * float) :=
  let stall_location :=
    (float_of (Location.latitude (Stall.location s)),
     float_of (Location.longitude (Stall.location s))) in
  Math.rbind (calculate_distance libm user_location stall_location)
             (fun distance => inr (s, distance)).

(** [get_stalls(latitude, longitude, radius, current_user)]; [radius] is
    [None] when the caller leaves it out. *)
Definition get_stalls (latitude longitude radius : option float)
    (current_user : User.t) : Handler (list StallResponse) :=
  let radius := if_not_None radius default_radius in
  stalls_ <- scan stalls (fun _ => true) ;;
  match latitude, longitude with
  | Some latitude, Some longitude =>
      let user_location := (latitude, longitude) in
      measured <- lift (traverse (with_distance user_location) stalls_) ;;
      let within :=
        filter (fun sd => (snd sd <=? radius)%float) measured in
      let sorted := Py.sort snd within in
      ret (map (fun sd => {| stall := fst sd; distance := Some (snd sd) |})
               sorted)
  | _, _ =>
      ret (map (fun s => {| stall := s; distance := None |}) stalls_)
  end.

(** [get_stall(stall_id, current_user)]. *)
Definition get_stall (stall_id : string) (current_user : User.t)
  : Handler Stall.t :=
  stall <- get_item stalls stall_id ;;
  match stall with
  | None => raise stall_not_found
  | Some stall => ret stall
  end.

(** The lines of [update_stall] that build the update expression from the
    form fields, up to the image: [stall] is the stored stall and [now] the
    clock. *)
Definition stall_update_expression (stall : Stall.t)
    (name description : option string) (latitude longitude : option float)
    (address : option string) (now : datetime)
  : list (Assignment Stall.t) :=
  let update_expression :=
    [SET "updated_at" [] (Stall_set_updated_at now)] in
  let update_expression :=
    set_if_truthy name (fun v => SET "#name" [] (Stall_set_name v))
                  update_expression in
  let update_expression :=
    set_if_truthy description
      (fun v => SET "description" [] (Stall_set_description v))
      update_expression in
  if any [truthy latitude; truthy longitude; truthy address] then
    let current_location := Stall.location stall in
    let new_location :=
      {| Location.latitude :=
           if_not_None (option_map PyFloat latitude)
                       (Location.latitude current_location);
         Location.longitude :=
           if_not_None (option_map PyFloat longitude)
                       (Location.longitude current_location);
         Location.address :=
           if_not_None address (Location.address current_location)
      |} in
    (update_expression
     ++ [SET "#location" (Location.numbers new_location)
             (Stall_set_location new_location)])%list
  else update_expression.

(** [update_stall(stall_id, name, description, latitude, longitude,
    address, image, current_user)]. *)
Definition update_stall (stall_id : string)
    (name description : option string) (latitude longitude : option float)
    (address : option string) (image : option UploadFile)
    (env : Env) (current_user : User.t) : Handler (option Stall.t) :=
  stall <- get_item stalls stall_id ;;
  match stall with
  | None => raise stall_not_found
  | Some stall =>
      raise_if (negb (String.eqb (Stall.owner_id stall)
                                 (User.user_id current_user)))
               not_the_owner ;;
      let update_expression :=
        stall_update_expression stall name description latitude longitude
                                address (utcnow env) in
      update_expression <-
        match image with
        | Some image =>
            image_url <- upload_file_to_s3 settings image
                           ("stalls/" ++ User.user_id current_user)
                           (uuid4 env 0%nat) ;;
            ret (update_expression
                 ++ [SET "image_url" [] (Stall_set_image_url image_url)])%list
        | None => ret update_expression
        end ;;
      updated_stall <-
        update_item stalls stall_id update_expression
                    (Some [("#name", "name"); ("#location", "location")]) ;;
      ret updated_stall
  end.

(** [delete_stall(stall_id, current_user)]. *)
Definition delete_stall (stall_id : string) (current_user : User.t)
  : Handler unit :=
  stall <- get_item stalls stall_id ;;
  match stall with
  | None => raise stall_not_found
  | Some stall =>
      raise_if (negb (String.eqb (Stall.owner_id stall)
                                 (User.user_id current_user)))
               not_the_owner ;;
      delete_item stalls stall_id ;;
      menu_response <-
        scan menu_items
             (fun i => String.eqb (MenuItem.stall_id i) stall_id) ;;
      for_each menu_response
        (fun item => delete_item menu_items (MenuItem.item_id item)) ;;
      reviews_response <-
        scan reviews (fun r => String.eqb (Review.stall_id r) stall_id) ;;
      for_each reviews_response
        (fun review => delete_item reviews (Review.review_id review)) ;;
      ret tt
  end.


(* ---------------------------------------------------------------- *)
(** * menu/router.py *)

Definition MenuItem_set_updated_at (v : datetime) (i : MenuItem.t)
  : MenuItem.t :=
  MenuItem.mk (MenuItem.item_id i) (MenuItem.stall_id i) (MenuItem.name i)
              (MenuItem.price i) (MenuItem.description i)
              (MenuItem.category i) (MenuItem.image_url i)
              (MenuItem.created_at i) v.

Definition MenuItem_set_name (v : string) (i : MenuItem.t) : MenuItem.t :=
  MenuItem.mk (MenuItem.item_id i) (MenuItem.stall_id i) v
              (MenuItem.price i) (MenuItem.description i)
              (MenuItem.category i) (MenuItem.image_url i)
              (MenuItem.created_at i) (MenuItem.updated_at i).

Definition MenuItem_set_price (v : Number) (i : MenuItem.t) : MenuItem.t :=
  MenuItem.mk (MenuItem.item_id i) (MenuItem.stall_id i) (MenuItem.name i)
              v (MenuItem.description i)
              (MenuItem.category i) (MenuItem.image_url i)
              (MenuItem.created_at i) (MenuItem.updated_at i).

Definition MenuItem_set_description (v : string) (i : MenuItem.t)
  : MenuItem.t :=
  MenuItem.mk (MenuItem.item_id i) (MenuItem.stall_id i) (MenuItem.name i)
              (MenuItem.price i) v
              (MenuItem.category i) (MenuItem.image_url i)
              (MenuItem.created_at i) (MenuItem.updated_at i).

Definition MenuItem_set_category (v : string) (i : MenuItem.t)
  : MenuItem.t :=
  MenuItem.mk (MenuItem.item_id i) (MenuItem.stall_id i) (MenuItem.name i)
              (MenuItem.price i) (MenuItem.description i)
              v (MenuItem.image_url i)
              (MenuItem.created_at i) (MenuItem.updated_at i).

Definition MenuItem_set_image_url (v : string) (i : MenuItem.t)
  : MenuItem.t :=
  MenuItem.mk (MenuItem.item_id i) (MenuItem.stall_id i) (MenuItem.name i)
              (MenuItem.price i) (MenuItem.description i)
              (MenuItem.category i) v
              (MenuItem.created_at i) (MenuItem.updated_at i).

Definition menu_item_not_found : exn :=
  HTTPException HTTP_404_NOT_FOUND "Menu item not found" [].

Definition menu_item_of_other_stall : exn :=
  HTTPException HTTP_400_BAD_REQUEST
                "Menu item does not belong to this stall" [].

(** The first lines of every writing endpoint of the menu: the stall exists
    and belongs to the current user. *)
Definition check_stall_of_owner (stall_id : string) (current_user : User.t)
  : Handler Stall.t :=
  stall <- get_item stalls stall_id ;;
  match stall with
  | None => raise stall_not_found
  | Some stall =>
      raise_if (negb (String.eqb (Stall.owner_id stall)
                                 (User.user_id current_user)))
               not_the_owner ;;
      ret stall
  end.

(** [create_menu_item(stall_id, name, price, description, category, image,
    current_user)]. *)
Definition create_menu_item (stall_id name : string) (price : float)
    (description category : string) (image : UploadFile)
    (env : Env) (current_user : User.t) : Handler MenuItem.t :=
  check_stall_of_owner stall_id current_user ;;
  image_url <- upload_file_to_s3 settings image ("menu_items/" ++ stall_id)
                 (uuid4 env 0%nat) ;;
  let item_id := uuid4 env 1%nat in
  let timestamp := utcnow env in
  let new_menu_item :=
    {| MenuItem.item_id := item_id;
       MenuItem.stall_id := stall_id;
       MenuItem.name := name;
       MenuItem.price := PyFloat price;
       MenuItem.description := description;
       MenuItem.category := category;
       MenuItem.image_url := image_url;
       MenuItem.created_at := timestamp;
       MenuItem.updated_at := timestamp |} in
  put_item menu_items new_menu_item ;;
  ret new_menu_item.

(** [get_menu_items(stall_id, category, current_user)]. *)
Definition get_menu_items (stall_id : string) (category : option string)
    (current_user : User.t) : Handler (list MenuItem.t) :=
  stall <- get_item stalls stall_id ;;
  match stall with
  | None => raise stall_not_found
  | Some _ =>
      if truthy category then
        scan menu_items
             (fun i => String.eqb (MenuItem.stall_id i) stall_id
                       && String.eqb (MenuItem.category i)
                                     (if_not_None category ""))
      else
        scan menu_items (fun i => String.eqb (MenuItem.stall_id i) stall_id)
  end.

(** The checks of [update_menu_item] and [delete_menu_item] on the item. *)
Definition check_item_of_stall (stall_id item_id : string)
  : Handler MenuItem.t :=
  menu_item <- get_item menu_items item_id ;;
  match menu_item with
  | None => raise menu_item_not_found
  | Some menu_item =>
      raise_if (negb (String.eqb (MenuItem.stall_id menu_item) stall_id))
               menu_item_of_other_stall ;;
      ret menu_item
  end.

(** The lines of [update_menu_item] that build the update expression from
    the form fields, up to the image. *)
Definition menu_item_update_expression (name : option string)
    (price : option float) (description category : option string)
    (now : datetime) : list (Assignment MenuItem.t) :=
  let update_expression :=
    [SET "updated_at" [] (MenuItem_set_updated_at now)] in
  let update_expression :=
    set_if_truthy name (fun v => SET "#name" [] (MenuItem_set_name v))
                  update_expression in
  let update_expression :=
    set_if_not_None price
      (fun v => SET "price" [PyFloat v] (MenuItem_set_price (PyFloat v)))
      update_expression in
  let update_expression :=
    set_if_truthy description
      (fun v => SET "description" [] (MenuItem_set_description v))
      update_expression in
  set_if_truthy category
    (fun v => SET "category" [] (MenuItem_set_category v))
    update_expression.

(** [update_menu_item(stall_id, item_id, name, price, description, category,
    image, current_user)]. *)
Definition update_menu_item (stall_id item_id : string)
    (name : option string) (price : option float)
    (description category : option string) (image : option UploadFile)
    (env : Env) (current_user : User.t) : Handler (option MenuItem.t) :=
  check_stall_of_owner stall_id current_user ;;
  check_item_of_stall stall_id item_id ;;
  let update_expression :=
    menu_item_update_expression name price description category
                                (utcnow env) in
  update_expression <-
    match image with
    | Some image =>
        image_url <- upload_file_to_s3 settings image
                       ("menu_items/" ++ stall_id) (uuid4 env 0%nat) ;;
        ret (update_expression
             ++ [SET "image_url" [] (MenuItem_set_image_url image_url)])%list
    | None => ret update_expression
    end ;;
  updated_menu_item <-
    update_item menu_items item_id update_expression
                (Some (if truthy name then [("#name", "name")] else [])) ;;
  ret updated_menu_item.

(** [delete_menu_item(stall_id, item_id, current_user)]. *)
Definition delete_menu_item (stall_id item_id : string)
    (current_user : User.t) : Handler unit :=
  check_stall_of_owner stall_id current_user ;;
  check_item_of_stall stall_id item_id ;;
  delete_item menu_items item_id ;;
  ret tt.

(** [delete_menu_items_by_category(stall_id, category, current_user)]. *)
Definition delete_menu_items_by_category (stall_id category : string)
    (current_user : User.t) : Handler unit :=
  check_stall_of_owner stall_id current_user ;;
  menu_items_ <-
    scan menu_items
         (fun i => String.eqb (MenuItem.stall_id i) stall_id
                   && String.eqb (MenuItem.category i) category) ;;
  for_each menu_items_
    (fun item => delete_item menu_items (MenuItem.item_id item)) ;;
  ret tt.

(* ---------------------------------------------------------------- *)
(** * reviews/router.py *)

Definition Review_set_rating (v : Z) (r : Review.t) : Review.t :=
  Review.mk (Review.review_id r) (Review.stall_id r) (Review.user_id r)
            (Review.user_name r) v (Review.comment r)
            (Review.created_at r) (Review.updated_at r).

Definition Review_set_comment (v : string) (r : Review.t) : Review.t :=
  Review.mk (Review.review_id r) (Review.stall_id r) (Review.user_id r)
            (Review.user_name r) (Review.rating r) v
            (Review.created_at r) (Review.updated_at r).

Definition Review_set_updated_at (v : datetime) (r : Review.t) : Review.t :=
  Review.mk (Review.review_id r) (Review.stall_id r) (Review.user_id r)
            (Review.user_name r) (Review.rating r) (Review.comment r)
            (Review.created_at r) v.

Definition own_stall_review : exn :=
  HTTPException HTTP_403_FORBIDDEN "You cannot review your own stall" [].

Definition already_reviewed : exn :=
  HTTPException HTTP_400_BAD_REQUEST
    "You have already reviewed this stall. Please edit your existing review."
    [].

Definition rating_out_of_range : exn :=
  HTTPException HTTP_400_BAD_REQUEST "Rating must be between 1 and 5" [].

Definition review_not_found : exn :=
  HTTPException HTTP_404_NOT_FOUND "Review not found" [].

Definition review_of_other_stall : exn :=
  HTTPException HTTP_400_BAD_REQUEST
                "Review does not belong to this stall" [].

Definition not_the_author : exn :=
  HTTPException HTTP_403_FORBIDDEN "You are not the author of this review" [].

(** [review.rating < 1 or review.rating > 5]. *)
Definition rating_invalid (rating : Z) : bool :=
  (rating <? 1) || (rating >? 5).

(** [create_review(stall_id, review, current_user)]. *)
Definition create_review (stall_id : string) (review : ReviewCreate)
    (env : Env) (current_user : User.t) : Handler Review.t :=
  stall <- get_item stalls stall_id ;;
  match stall with
  | None => raise stall_not_found
  | Some stall =>
      raise_if (String.eqb (Stall.owner_id stall)
                           (User.user_id current_user))
               own_stall_review ;;
      items <-
        scan reviews
             (fun r => String.eqb (Review.stall_id r) stall_id
                       && String.eqb (Review.user_id r)
                                     (User.user_id current_user)) ;;
      raise_if (truthy items) already_reviewed ;;
      raise_if (rating_invalid (rc_rating review)) rating_out_of_range ;;
      let review_id := uuid4 env 0%nat in
      let timestamp := utcnow env in
      let new_review :=
        {| Review.review_id := review_id;
           Review.stall_id := stall_id;
           Review.user_id := User.user_id current_user;
           Review.user_name := User.full_name current_user;
           Review.rating := rc_rating review;
           Review.comment := rc_comment review;
           Review.created_at := timestamp;
           Review.updated_at := timestamp |} in
      put_item reviews new_review ;;
      ret new_review
  end.

(** [get_reviews(stall_id, current_user)]. *)
Definition get_reviews (stall_id : string) (current_user : User.t)
  : Handler (list Review.t) :=
  stall <- get_item stalls stall_id ;;
  match stall with
  | None => raise stall_not_found
  | Some _ =>
      scan reviews (fun r => String.eqb (Review.stall_id r) stall_id)
  end.

(** The checks shared by [update_review] and [delete_review]: the stall and
    the review exist, the review is of the stall and of the current user. *)
Definition check_review_of_author (stall_id review_id : string)
    (current_user : User.t) : Handler Review.t :=
  stall <- get_item stalls stall_id ;;
  match stall with
  | None => raise stall_not_found
  | Some _ =>
      existing_review <- get_item reviews review_id ;;
      match existing_review with
      | None => raise review_not_found
      | Some existing_review =>
          raise_if (negb (String.eqb (Review.stall_id existing_review)
                                     stall_id))
                   review_of_other_stall ;;
          raise_if (negb (String.eqb (Review.user_id existing_review)
                                     (User.user_id current_user)))
                   not_the_author ;;
          ret existing_review
      end
  end.

(** [update_review(stall_id, review_id, review, current_user)]. *)
Definition update_review (stall_id review_id : string)
    (review : ReviewCreate) (env : Env) (current_user : User.t)
  : Handler (option Review.t) :=
  check_review_of_author stall_id review_id current_user ;;
  raise_if (rating_invalid (rc_rating review)) rating_out_of_range ;;
  let timestamp := utcnow env in
  updated_review <-
    update_item reviews review_id
      [SET "rating" [] (Review_set_rating (rc_rating review));
       SET "comment" [] (Review_set_comment (rc_comment review));
       SET "updated_at" [] (Review_set_updated_at timestamp)]
      None ;;
  ret updated_review.

(** [delete_review(stall_id, review_id, current_user)]. *)
Definition delete_review (stall_id review_id : string)
    (current_user : User.t) : Handler unit :=
  check_review_of_author stall_id review_id current_user ;;
  delete_item reviews review_id ;;
  ret tt.

End Backend.

Arguments create_access_token settings {token} jose.
Arguments get_current_user settings {token} jose.
Arguments Depends_get_current_user settings {token} jose {A}.
Arguments Depends_get_current_owner settings {token} jose {A}.
Arguments login_for_access_token settings bcrypt {token} jose.

(* ================================================================== *)
(** * Notions used by the statements *)

(** The menu items and the reviews that refer to a stall. *)
Definition items_of (sid : string) (w : World) : list MenuItem.t :=
  filter (fun i => String.eqb (MenuItem.stall_id i) sid)
         (menu_items_table w).

Definition reviews_of (sid : string) (w : World) : list Review.t :=
  filter (fun r => String.eqb (Review.stall_id r) sid) (reviews_table w).

(** A review of the stall by the user is stored. *)
Definition reviewed_by (sid uid : string) (w : World) : Prop :=
  exists r, In r (reviews_table w)
            /\ Review.stall_id r = sid /\ Review.user_id r = uid.

(** The users stored with an email. *)
Definition users_with_email (email : string) (w : World) : list User.t :=
  filter (fun u => String.eqb (User.email u) email) (users_table w).

(** The contract of bcrypt: a password checks against its own hash. *)
Definition bcrypt_correct (bcrypt : Bcrypt) : Prop :=
  forall pw salt, checkpw bcrypt pw (hashpw bcrypt pw salt) = true.

(** The contract of jose: a token decodes, under the key and the algorithm
    that signed it and until its expiry, to the payload it was made of. *)
Definition jose_correct {token} (jose : Jose token) : Prop :=
  forall claims key alg now,
    now <= exp claims ->
    jwt_decode jose (jwt_encode jose claims key alg) key [alg] now
    = Some claims.

(** The other half of the contract of jose: a token whose expiry has passed
    does not decode ([ExpiredSignatureError], a [JWTError]). *)
Definition jose_expires {token} (jose : Jose token) : Prop :=
  forall claims key alg now,
    exp claims < now ->
    jwt_decode jose (jwt_encode jose claims key alg) key [alg] now = None.

(** Seven days, in seconds. *)
Definition seven_days : timedelta := 7 * 24 * 60 * 60.

(** Every stored menu item has a price that is at least zero. *)
Definition price_ok (price : float) : Prop := (0 <=? price)%float = true.

Definition prices_nonneg (w : World) : Prop :=
  Forall (fun i => price_ok (float_of (MenuItem.price i)))
         (menu_items_table w).

(** The stalls of the table with their distance from a point, when every
    distance can be computed. *)
Definition measured_stalls (libm : Libm) (user_location : float * float)
    (w : World) : result (list (Stall.t * float)) :=
  traverse (with_distance libm user_location) (stalls_table w).

(** The haversine distance of the specification between two (latitude,
    longitude) points in degrees, on a sphere of radius 6371 km: with
    [hav x] the square of the sine of [x / 2] and the angles in radians,
    twice the arcsine of the square root of
    [hav dlat + cos lat1 * cos lat2 * hav dlon], times the radius. *)
Definition spec_earth_radius_km : float := 6371%float.

Definition spec_hav (libm : Libm) (x : float) : result float :=
  Math.rbind (Math.sin libm (x / 2)%float) (Math.pow2 libm).

Definition spec_haversine_km (libm : Libm) (p q : float * float)
  : result float :=
  let dlat := (Math.radians (fst q) - Math.radians (fst p))%float in
  let dlon := (Math.radians (snd q) - Math.radians (snd p))%float in
  Math.rbind (spec_hav libm dlat) (fun hav_dlat =>
  Math.rbind (Math.cos libm (Math.radians (fst p))) (fun cos_lat1 =>
  Math.rbind (Math.cos libm (Math.radians (fst q))) (fun cos_lat2 =>
  Math.rbind (spec_hav libm dlon) (fun hav_dlon =>
  Math.rbind (Math.sqrt (hav_dlat + cos_lat1 * cos_lat2 * hav_dlon)%float)
             (fun root =>
  Math.rbind (Math.asin libm root) (fun angle =>
  inr (2 * angle * spec_earth_radius_km)%float)))))).

(** The place of a stall, as a (latitude, longitude) point. *)
Definition place (s : Stall.t) : float * float :=
  (float_of (Location.latitude (Stall.location s)),
   float_of (Location.longitude (Stall.location s))).

(** The stalls of a table, each with its haversine distance from a centre;
    an error when the distance of some stall is not a number that Python's
    [math] returns. *)
Definition spec_measured (libm : Libm) (centre : float * float)
    (tbl : list Stall.t) : result (list (Stall.t * float)) :=
  traverse (fun s => Math.rbind (spec_haversine_km libm centre (place s))
                                (fun d => inr (s, d))) tbl.

(** The order of the listing: by distance. *)
Definition by_distance (a b : Stall.t * float) : Prop :=
  (snd a <=? snd b)%float = true.

(** [l1] holds the elements of [l2], and those of equal distance in the
    same order. *)
Definition same_order_of_ties (l1 l2 : list (Stall.t * float)) : Prop :=
  forall d : float,
    filter (fun sd => (snd sd =? d)%float) l1
    = filter (fun sd => (snd sd =? d)%float) l2.

(** The entry of the listing for a stall and its distance. *)
Definition annotated (sd : Stall.t * float) : StallResponse :=
  {| stall := fst sd; distance := Some (snd sd) |}.

(* ================================================================== *)
(** * Notions used by the further properties *)

(** The exception of [get_current_owner]. *)
Definition not_an_owner : exn :=
  HTTPException HTTP_403_FORBIDDEN "User is not an owner" [].

(** No two records of the table agree on [f]. *)
Definition distinct {R B : Type} (f : R -> B) (tbl : list R) : Prop :=
  NoDup (map f tbl).

(** The users have distinct identifiers and distinct emails. *)
Definition users_consistent (w : World) : Prop :=
  distinct User.user_id (users_table w)
  /\ distinct User.email (users_table w).

(** The stall and the author of a review. *)
Definition review_pair (r : Review.t) : string * string :=
  (Review.stall_id r, Review.user_id r).

(** The reviews have distinct identifiers, and no user has two reviews of
    one stall. *)
Definition reviews_consistent (w : World) : Prop :=
  distinct Review.review_id (reviews_table w)
  /\ distinct review_pair (reviews_table w).

(** No stored review of a stored stall is by the owner of the stall. *)
Definition no_self_review (w : World) : Prop :=
  forall r s,
    In r (reviews_table w) ->
    Items.get_item Stall.stall_id (Review.stall_id r) (stalls_table w)
    = Some s ->
    Stall.owner_id s <> Review.user_id r.

(** An assignment of an update expression keeps a field of the record. *)
Definition keeps {R B : Type} (f : R -> B) (assign : R -> R) : Prop :=
  forall x, f (assign x) = f x.

(** How long a token of [create_access_token] lives, in seconds. *)
Definition token_lifetime (expires_delta : option timedelta) : timedelta :=
  match expires_delta with
  | Some d => if d =? 0 then 15 * 60 else d
  | None => 15 * 60
  end.

(** The string has a dot. *)
Fixpoint has_dot (s : string) : bool :=
  match s with
  | EmptyString => false
  | String c s' => Ascii.eqb c "."%char || has_dot s'
  end.

(** The key and the URL of an uploaded file. *)
Definition s3_key (file : UploadFile) (prefix uuid : string) : string :=
  prefix ++ "/" ++ uuid ++ "." ++ split_dot_last (filename file).

Definition s3_url (settings : Settings) (key : string) : string :=
  "https://" ++ S3_BUCKET_NAME settings ++ ".s3." ++ AWS_REGION settings
  ++ ".amazonaws.com/" ++ key.

(** The four tables are the same in both worlds. *)
Definition same_tables (w w' : World) : Prop :=
  users_table w' = users_table w
  /\ stalls_table w' = stalls_table w
  /\ menu_items_table w' = menu_items_table w
  /\ reviews_table w' = reviews_table w.

(** The exception is a denial of the handlers. *)
Definition is_HTTPException (e : exn) : Prop :=
  match e with
  | HTTPException _ _ _ => True
  | _ => False
  end.

(** The stalls and the menu items hold their numbers as [Decimal]s, as a
    table returns them. *)
Definition decimals_only (w : World) : Prop :=
  Forall (fun s => existsb is_float (item_numbers stalls s) = false)
         (stalls_table w)
  /\ Forall (fun i => existsb is_float (item_numbers menu_items i) = false)
            (menu_items_table w).

(** A handler that raised [e] and left [w'] has changed no table, has
    written nothing at all when [e] is a denial, and has raised nothing but
    a denial or a refusal of the table. *)
Definition raised_before_storing (w : World) (e : exn) (w' : World) : Prop :=
  same_tables w w'
  /\ (is_HTTPException e -> w' = w)
  /\ (is_HTTPException e
      \/ e = float_not_supported \/ e = validation_exception).

(** The world after the upload of the image of a request, if it has one. *)
Definition after_upload (settings : Settings) (image : option UploadFile)
    (prefix uuid : string) (w : World) : World :=
  match image with
  | Some file => snd (upload_file_to_s3 settings file prefix uuid w)
  | None => w
  end.

(** The menu items of a stall in a category. *)
Definition items_of_category (sid category : string) (w : World)
  : list MenuItem.t :=
  filter (fun i => String.eqb (MenuItem.stall_id i) sid
                   && String.eqb (MenuItem.category i) category)
         (menu_items_table w).

(* ================================================================== *)
(** * A small deployment, for concrete runs *)

Module Demo.

Definition settings : Settings :=
  {| SECRET_KEY := "your-secret-key-here";
     ALGORITHM := "HS256";
     AWS_REGION := "us-east-1";
     S3_BUCKET_NAME := "food-stall-finder" |}.

(** A stand-in for bcrypt: the hash is the password, a dollar sign and the
    salt. *)
Definition bcrypt : Bcrypt :=
  {| hashpw := fun pw salt => pw ++ "$" ++ salt;
     checkpw := fun pw hashed => String.prefix (pw ++ "$") hashed |}.

(** A stand-in for jose: a token is the payload with the key and the
    algorithm that signed it. *)
Definition jose : Jose (Claims * string * string) :=
  {| jwt_encode := fun claims key alg => (claims, key, alg);
     jwt_decode := fun tok key algs now =>
       let '(claims, k, alg) := tok in
       if String.eqb k key && existsb (String.eqb alg) algs
          && (now <=? exp claims)
       then Some claims else None |}.

(** A stand-in for libm, good for small angles: [sin x = x], [cos x = 1],
    [asin x = x], and [pow x 2 = x * x]. *)
Definition libm : Libm :=
  {| libm_sin := fun x => x;
     libm_cos := fun _ => 1%float;
     libm_asin := fun x => x;
     libm_pow := fun x _ => (x * x)%float |}.

Definition env : Env :=
  {| uuid4 := fun n => match n with
                       | O => "uuid-0"
                       | S _ => "uuid-1"
                       end;
     utcnow := 1700000000;
     gensalt := "salt" |}.

Definition alice : User.t :=
  {| User.user_id := "alice"; User.email := "alice@example.com";
     User.full_name := "Alice"; User.password := "apples$salt";
     User.user_type := "owner";
     User.created_at := 1600000000; User.updated_at := 1600000000 |}.

Definition bob : User.t :=
  {| User.user_id := "bob"; User.email := "bob@example.com";
     User.full_name := "Bob"; User.password := "bananas$salt";
     User.user_type := "owner";
     User.created_at := 1600000001; User.updated_at := 1600000001 |}.

Definition carol : User.t :=
  {| User.user_id := "carol"; User.email := "carol@example.com";
     User.full_name := "Carol"; User.password := "cherries$salt";
     User.user_type := "customer";
     User.created_at := 1600000002; User.updated_at := 1600000002 |}.

Definition stall_a : Stall.t :=
  {| Stall.stall_id := "stall-a"; Stall.owner_id := "alice";
     Stall.name := "Adobo Corner"; Stall.description := "Adobo and rice";
     Stall.location :=
       {| Location.latitude := Decimal 14.5%float;
          Location.longitude := Decimal 121%float;
          Location.address := "Taft Avenue" |};
     Stall.image_url := "https://food-stall-finder.s3.us-east-1.amazonaws.com/stalls/alice/a.png";
     Stall.created_at := 1600000100; Stall.updated_at := 1600000100 |}.

Definition stall_b : Stall.t :=
  {| Stall.stall_id := "stall-b"; Stall.owner_id := "bob";
     Stall.name := "Bibingka House"; Stall.description := "Rice cakes";
     Stall.location :=
       {| Location.latitude := Decimal 14.53125%float;
          Location.longitude := Decimal 121%float;
          Location.address := "Rizal Park" |};
     Stall.image_url := "https://food-stall-finder.s3.us-east-1.amazonaws.com/stalls/bob/b.png";
     Stall.created_at := 1600000200; Stall.updated_at := 1600000200 |}.

Definition item_a1 : MenuItem.t :=
  {| MenuItem.item_id := "item-a1"; MenuItem.stall_id := "stall-a";
     MenuItem.name := "Chicken adobo";
     MenuItem.price := Decimal 85%float;
     MenuItem.description := "With rice"; MenuItem.category := "mains";
     MenuItem.image_url := "https://food-stall-finder.s3.us-east-1.amazonaws.com/menu_items/stall-a/1.png";
     MenuItem.created_at := 1600000300; MenuItem.updated_at := 1600000300 |}.

Definition item_b1 : MenuItem.t :=
  {| MenuItem.item_id := "item-b1"; MenuItem.stall_id := "stall-b";
     MenuItem.name := "Bibingka"; MenuItem.price := Decimal 40%float;
     MenuItem.description := "Warm"; MenuItem.category := "sweets";
     MenuItem.image_url := "https://food-stall-finder.s3.us-east-1.amazonaws.com/menu_items/stall-b/1.png";
     MenuItem.created_at := 1600000400; MenuItem.updated_at := 1600000400 |}.

Definition review_a1 : Review.t :=
  {| Review.review_id := "review-a1"; Review.stall_id := "stall-a";
     Review.user_id := "carol"; Review.user_name := "Carol";
     Review.rating := 5; Review.comment := "Masarap";
     Review.created_at := 1600000500; Review.updated_at := 1600000500 |}.

Definition world : World :=
  {| users_table := [alice; bob; carol];
     stalls_table := [stall_a; stall_b];
     menu_items_table := [item_a1; item_b1];
     reviews_table := [review_a1];
     s3_bucket := [];
     writes := [] |}.

Definition dave : UserCreate :=
  {| uc_email := "dave@example.com"; uc_full_name := "Dave";
     uc_password := "durian"; uc_user_type := "customer" |}.

(** The distance of [stall_a] from the place of [stall_b], with the
    stand-in for libm: about 3.47 km. *)
Definition distance_a : float :=
  Eval vm_compute in
    match calculate_distance libm (14.53125%float, 121%float)
                             (14.5%float, 121%float) with
    | inr d => d
    | inl _ => nan
    end.

(** A function given by a finite table of arguments and values, and by
    [default] elsewhere. *)
Definition lookup (table : list (float * float)) (default : float -> float)
    (x : float) : float :=
  match find (fun kv => (fst kv =? x)%float) table with
  | Some kv => snd kv
  | None => default x
  end.

(** The values that glibc returns, through CPython's [math.sin],
    [math.cos], [math.asin] and the float power, at the arguments of two
    runs: the distances of [stall_a] and [stall_b] from the place of
    [stall_b], and the distance of [stall_n] from the point (91, 0).  At
    these arguments the power of two is the rounded square, and the sine
    and the arcsine of zero are zero, which is what the stand-in
    answers. *)
Definition glibc : Libm :=
  {| libm_sin :=
       lookup [(-0x1.1df46a2529c00p-12, -0x1.1df469e9b2bbfp-12);
               (-0x1.1df46a2529d40p-6, -0x1.1df0b2b89dd25p-6);
               (0x1.921fb54442d18p+0, 1)]%float
              (libm_sin libm);
     libm_cos :=
       lookup [(0x1.03b47a66c07cap-2, 0x1.ef9f211a5bf4cp-1);
               (0x1.03258031ade7cp-2, 0x1.efb10c2a3f40ep-1);
               (0x1.969786ecd778dp+0, -0x1.1df0b2b89dd14p-6);
               (0x1.8da7e39bae2a3p+0, 0x1.1df0b2b89dd37p-6)]%float
              (libm_cos libm);
     libm_asin :=
       lookup [(0x1.1df469e9b2bbfp-12, 0x1.1df46a2529c00p-12)]%float
              (libm_asin libm);
     libm_pow := libm_pow libm |}.

(** A stall near the north pole, on the antimeridian. *)
Definition stall_n : Stall.t :=
  {| Stall.stall_id := "stall-n"; Stall.owner_id := "bob";
     Stall.name := "Halo-halo Norte"; Stall.description := "Shaved ice";
     Stall.location :=
       {| Location.latitude := Decimal 89%float;
          Location.longitude := Decimal 180%float;
          Location.address := "Arctic Ocean" |};
     Stall.image_url := "https://food-stall-finder.s3.us-east-1.amazonaws.com/stalls/bob/n.png";
     Stall.created_at := 1600000250; Stall.updated_at := 1600000250 |}.

Definition world_n : World :=
  {| users_table := [alice; bob; carol];
     stalls_table := [stall_n];
     menu_items_table := [];
     reviews_table := [];
     s3_bucket := [];
     writes := [] |}.

Definition photo : UploadFile :=
  {| filename := "photo.png"; content_type := "image/png";
     contents := "PNG" |}.

(** A token of alice, as the stand-in for jose makes it. *)
Definition alice_token : Claims * string * string :=
  ({| sub := Some "alice"; exp := 1700600000 |},
   "your-secret-key-here", "HS256").

(** A token of carol. *)
Definition carol_token : Claims * string * string :=
  ({| sub := Some "carol"; exp := 1700600000 |},
   "your-secret-key-here", "HS256").

End Demo.

(* ================================================================== *)
(** * Facts about the records of a table *)

Section ItemsFacts.
Context {R : Type} (key : R -> string).

Lemma get_item_Some (k : string) (tbl : list R) (r : R) :
  Items.get_item key k tbl = Some r -> In r tbl /\ key r = k.
Proof.
  unfold Items.get_item. intros H.
  apply find_some in H. destruct H as [Hin Hk].
  split; [assumption|]. now apply String.eqb_eq.
Qed.

Lemma get_item_None (k : string) (tbl : list R) :
  Items.get_item key k tbl = None <-> forall r, In r tbl -> key r <> k.
Proof.
  unfold Items.get_item, Items.has_key. split.
  - intros H r Hin Hk.
    pose proof (find_none _ _ H r Hin) as Hf. cbn in Hf.
    apply String.eqb_neq in Hf. contradiction.
  - intros H. induction tbl as [|x tbl IH]; [reflexivity|]. cbn.
    destruct (String.eqb_spec (key x) k) as [E|E].
    + exfalso. apply (H x); [now left | assumption].
    + apply IH. intros r Hin. apply H. now right.
Qed.

Lemma get_item_delete_item (k : string) (tbl : list R) :
  Items.get_item key k (Items.delete_item key k tbl) = None.
Proof.
  apply get_item_None. intros r Hin Hk.
  unfold Items.delete_item in Hin. apply filter_In in Hin.
  destruct Hin as [_ Hn]. unfold Items.has_key in Hn.
  rewrite Hk, String.eqb_refl in Hn. discriminate.
Qed.

Lemma get_item_put_item (r : R) (tbl : list R) :
  Items.get_item key (key r) (Items.put_item key r tbl) = Some r.
Proof.
  unfold Items.put_item, Items.get_item.
  destruct (existsb (Items.has_key key (key r)) tbl) eqn:Hex.
  - induction tbl as [|x tbl IH]; [discriminate|]. cbn in *.
    destruct (Items.has_key key (key r) x) eqn:Hx.
    + unfold Items.has_key. now rewrite String.eqb_refl.
    + rewrite Hx. cbn in Hex. now apply IH.
  - induction tbl as [|x tbl IH]; cbn in *.
    + unfold Items.has_key. now rewrite String.eqb_refl.
    + apply orb_false_iff in Hex. destruct Hex as [Hx Hex].
      rewrite Hx. now apply IH.
Qed.

Lemma In_put_item (r : R) (tbl : list R) : In r (Items.put_item key r tbl).
Proof.
  pose proof (get_item_put_item r tbl) as H.
  now apply get_item_Some in H.
Qed.

Lemma In_put_item_inv (r x : R) (tbl : list R) :
  In x (Items.put_item key r tbl) -> x = r \/ In x tbl.
Proof.
  unfold Items.put_item.
  destruct (existsb _ tbl).
  - intros H. apply in_map_iff in H. destruct H as (y & Hy & Hin).
    destruct (Items.has_key key (key r) y); [left | right]; congruence.
  - intros H. apply in_app_or in H. destruct H as [H|[H|[]]]; auto.
Qed.

Lemma In_delete_item (k : string) (x : R) (tbl : list R) :
  In x (Items.delete_item key k tbl) <-> In x tbl /\ key x <> k.
Proof.
  unfold Items.delete_item, Items.has_key. rewrite filter_In.
  rewrite negb_true_iff, String.eqb_neq. reflexivity.
Qed.

Lemma update_item_found (k : string) (upd : R -> R) (tbl : list R) (r : R) :
  Items.get_item key k tbl = Some r ->
  key (upd r) = key r ->
  Items.get_item key k (Items.update_item key k upd tbl) = Some (upd r).
Proof.
  unfold Items.get_item, Items.update_item, Items.has_key.
  intros H Hkey. induction tbl as [|x tbl IH]; [discriminate|]. cbn in *.
  destruct (String.eqb_spec (key x) k) as [E|E].
  - injection H as ->. rewrite Hkey, E, String.eqb_refl. reflexivity.
  - apply String.eqb_neq in E. rewrite E. now apply IH.
Qed.

End ItemsFacts.

(* ================================================================== *)
(** * Access control of the stall and menu writes *)

(** Running the steps of a handler on a world. *)
Ltac run :=
  unfold as_owner, get_current_owner, check_stall_of_owner,
    check_item_of_stall, check_review_of_author, bind, raise_if, raise, ret,
    get_item, scan, lift;
  cbn [fst snd records key_of table_name stalls menu_items reviews users].

Section AccessControl.
Variable settings : Settings.

Lemma get_current_owner_customer (actor : User.t) (w : World) :
  User.user_type actor <> "owner" ->
  get_current_owner actor w
  = (inl (HTTPException HTTP_403_FORBIDDEN "User is not an owner" []), w).
Proof.
  intros H. run. apply String.eqb_neq in H. now rewrite H.
Qed.

Lemma get_current_owner_owner (actor : User.t) (w : World) :
  User.user_type actor = "owner" ->
  get_current_owner actor w = (inr actor, w).
Proof.
  intros H. run. now rewrite H.
Qed.

Lemma check_stall_of_owner_missing (sid : string) (actor : User.t)
    (w : World) :
  Items.get_item Stall.stall_id sid (stalls_table w) = None ->
  check_stall_of_owner sid actor w = (inl stall_not_found, w).
Proof.
  intros H. run. now rewrite H.
Qed.

Lemma check_stall_of_owner_other (sid : string) (actor : User.t)
    (w : World) (s : Stall.t) :
  Items.get_item Stall.stall_id sid (stalls_table w) = Some s ->
  Stall.owner_id s <> User.user_id actor ->
  check_stall_of_owner sid actor w = (inl not_the_owner, w).
Proof.
  intros H Hne. run. rewrite H. apply String.eqb_neq in Hne.
  now rewrite Hne.
Qed.

Lemma check_stall_of_owner_own (sid : string) (actor : User.t)
    (w : World) (s : Stall.t) :
  Items.get_item Stall.stall_id sid (stalls_table w) = Some s ->
  Stall.owner_id s = User.user_id actor ->
  check_stall_of_owner sid actor w = (inr s, w).
Proof.
  intros H He. run. rewrite H, He, String.eqb_refl. reflexivity.
Qed.

(** C6. On an existing stall, an update or a delete by an actor whose id is
    not the stall's owner reference raises a [Forbidden] denial, and the
    world, so the stall record too, is what it was before the call. *)
Theorem stall_write_by_other_actor_forbidden
    (sid : string) (name description : option string)
    (latitude longitude : option float) (address : option string)
    (image : option UploadFile) (env : Env) (actor : User.t) (w : World)
    (s : Stall.t) :
  Items.get_item Stall.stall_id sid (stalls_table w) = Some s ->
  User.user_id actor <> Stall.owner_id s ->
  (exists e,
      as_owner actor
        (update_stall settings sid name description latitude longitude
                      address image env) w = (inl e, w)
      /\ denial_kind e = Some Forbidden)
  /\ (exists e,
         as_owner actor (delete_stall sid) w = (inl e, w)
         /\ denial_kind e = Some Forbidden).
Proof.
  intros Hs Hne.
  assert (Hne' : String.eqb (Stall.owner_id s) (User.user_id actor) = false)
    by (apply String.eqb_neq; congruence).
  destruct (String.eqb_spec (User.user_type actor) "owner") as [Ho|Ho].
  - split; exists not_the_owner; (split; [|reflexivity]);
      unfold update_stall, delete_stall; run;
      rewrite Ho; cbn; rewrite Hs; cbn; rewrite Hne'; reflexivity.
  - apply String.eqb_neq in Ho.
    split;
      exists (HTTPException HTTP_403_FORBIDDEN "User is not an owner" []);
      (split; [|reflexivity]); run; rewrite Ho; reflexivity.
Qed.

(** C1, as the code has it.  When the addressed menu item does not exist, an
    update or delete of it by an actor of the owner role is denied with
    [NotFound] if the addressed stall is missing or belongs to the actor;
    the role and the ownership of the stall are checked before the item is
    looked up, so an actor who is not of the owner role, or an owner of
    another stall, is denied with [Forbidden].  The world is unchanged in
    every case. *)
Theorem missing_menu_item_denial
    (sid iid : string) (name : option string) (price : option float)
    (description category : option string) (image : option UploadFile)
    (env : Env) (actor : User.t) (w : World) :
  Items.get_item MenuItem.item_id iid (menu_items_table w) = None ->
  let stall_ := Items.get_item Stall.stall_id sid (stalls_table w) in
  let expected :=
    if negb (String.eqb (User.user_type actor) "owner") then Forbidden
    else match stall_ with
         | None => NotFound
         | Some s =>
             if String.eqb (Stall.owner_id s) (User.user_id actor)
             then NotFound else Forbidden
         end in
  (exists e,
      as_owner actor
        (update_menu_item settings sid iid name price description category
                          image env) w = (inl e, w)
      /\ denial_kind e = Some expected)
  /\ (exists e,
         as_owner actor (delete_menu_item sid iid) w = (inl e, w)
         /\ denial_kind e = Some expected).
Proof.
  intros Hi stall_ expected. subst stall_ expected.
  unfold update_menu_item, delete_menu_item. run.
  destruct (String.eqb (User.user_type actor) "owner"); cbn.
  2: { split; eexists; split; reflexivity. }
  destruct (Items.get_item Stall.stall_id sid (stalls_table w)) as [s|]; cbn.
  2: { split; eexists; split; reflexivity. }
  destruct (String.eqb (Stall.owner_id s) (User.user_id actor)); cbn.
  2: { split; eexists; split; reflexivity. }
  rewrite Hi. split; eexists; split; reflexivity.
Qed.

End AccessControl.

(** C1 as stated fails: the menu item ["item-zz"] does not exist, yet bob, an
    owner who does not own ["stall-a"], and carol, a customer, are denied
    with [Forbidden], not [NotFound], on its update and its delete. *)
Lemma missing_menu_item_denial_not_always_NotFound :
  Items.get_item MenuItem.item_id "item-zz" (menu_items_table Demo.world)
  = None
  /\ as_owner Demo.bob (delete_menu_item "stall-a" "item-zz") Demo.world
     = (inl not_the_owner, Demo.world)
  /\ as_owner Demo.bob
       (update_menu_item Demo.settings "stall-a" "item-zz" None
          (Some 90%float) None None None Demo.env) Demo.world
     = (inl not_the_owner, Demo.world)
  /\ as_owner Demo.carol (delete_menu_item "stall-a" "item-zz") Demo.world
     = (inl (HTTPException HTTP_403_FORBIDDEN "User is not an owner" []),
        Demo.world)
  /\ denial_kind not_the_owner = Some Forbidden
  /\ denial_kind (HTTPException HTTP_403_FORBIDDEN "User is not an owner" [])
     = Some Forbidden
  /\ Some Forbidden <> Some NotFound.
Proof.
  repeat split; try reflexivity. discriminate.
Qed.

Lemma missing_menu_item_denial_witness :
  (exists e,
      as_owner Demo.alice
        (update_menu_item Demo.settings "stall-a" "item-zz" None
           (Some 90%float) None None None Demo.env) Demo.world
      = (inl e, Demo.world)
      /\ denial_kind e = Some NotFound)
  /\ (exists e,
         as_owner Demo.alice (delete_menu_item "stall-a" "item-zz")
                  Demo.world = (inl e, Demo.world)
         /\ denial_kind e = Some NotFound).
Proof.
  apply (missing_menu_item_denial Demo.settings "stall-a" "item-zz" None
           (Some 90%float) None None None Demo.env Demo.alice Demo.world).
  reflexivity.
Defined.

Lemma stall_write_by_other_actor_forbidden_witness :
  (exists e,
      as_owner Demo.bob
        (update_stall Demo.settings "stall-a" (Some "Bob's") None None None
                      None None Demo.env) Demo.world = (inl e, Demo.world)
      /\ denial_kind e = Some Forbidden)
  /\ (exists e,
         as_owner Demo.bob (delete_stall "stall-a") Demo.world
         = (inl e, Demo.world)
         /\ denial_kind e = Some Forbidden).
Proof.
  apply (stall_write_by_other_actor_forbidden Demo.settings "stall-a"
           (Some "Bob's") None None None None None Demo.env Demo.bob
           Demo.world Demo.stall_a).
  - reflexivity.
  - discriminate.
Defined.

(* ================================================================== *)
(** * The cascade of a stall delete *)

Section Cascade.

Lemma In_fold_delete {R : Type} (key : R -> string) (ks : list string)
    (tbl : list R) (x : R) :
  In x (fold_left (fun t k => Items.delete_item key k t) ks tbl)
  <-> In x tbl /\ ~ In (key x) ks.
Proof.
  revert tbl. induction ks as [|k ks IH]; intros tbl; cbn.
  - tauto.
  - rewrite IH, In_delete_item. intuition congruence.
Qed.

(** The loop that deletes the scanned menu items one by one. *)
Lemma for_each_delete_menu_items (l : list MenuItem.t) (w : World) :
  for_each l (fun item => delete_item menu_items (MenuItem.item_id item)) w
  = (inr tt,
     {| users_table := users_table w;
        stalls_table := stalls_table w;
        menu_items_table :=
          fold_left (fun t k => Items.delete_item MenuItem.item_id k t)
                    (map MenuItem.item_id l) (menu_items_table w);
        reviews_table := reviews_table w;
        s3_bucket := s3_bucket w;
        writes :=
          writes w
          ++ map (fun i => DeleteItem MenuItems (MenuItem.item_id i)) l |}).
Proof.
  revert w. induction l as [|i l IH]; intros w.
  - destruct w. cbn. now rewrite app_nil_r.
  - cbn [for_each]. unfold bind, delete_item at 1.
    rewrite IH. cbn. now rewrite <- app_assoc.
Qed.

(** The loop that deletes the scanned reviews one by one. *)
Lemma for_each_delete_reviews (l : list Review.t) (w : World) :
  for_each l (fun review => delete_item reviews (Review.review_id review)) w
  = (inr tt,
     {| users_table := users_table w;
        stalls_table := stalls_table w;
        menu_items_table := menu_items_table w;
        reviews_table :=
          fold_left (fun t k => Items.delete_item Review.review_id k t)
                    (map Review.review_id l) (reviews_table w);
        s3_bucket := s3_bucket w;
        writes :=
          writes w
          ++ map (fun r => DeleteItem Reviews (Review.review_id r)) l |}).
Proof.
  revert w. induction l as [|r l IH]; intros w.
  - destruct w. cbn. now rewrite app_nil_r.
  - cbn [for_each]. unfold bind, delete_item at 1.
    rewrite IH. cbn. now rewrite <- app_assoc.
Qed.

(** C2. A delete of an existing stall by its owner returns, and in the world
    it leaves: the stall is absent, so [get_stall] raises [NotFound]; no
    menu item and no review refers to the stall any more, the other records
    of these tables being those whose key is not the key of a deleted one;
    users and bucket are untouched; and the writes issued are the delete of
    the stall, then the deletes of its menu items, then the deletes of its
    reviews, each in scan order. *)
Theorem delete_stall_cascade (sid : string) (actor reader : User.t)
    (w : World) (s : Stall.t) :
  Items.get_item Stall.stall_id sid (stalls_table w) = Some s ->
  Stall.owner_id s = User.user_id actor ->
  User.user_type actor = "owner" ->
  exists w',
    as_owner actor (delete_stall sid) w = (inr tt, w')
    /\ get_stall sid reader w' = (inl stall_not_found, w')
    /\ denial_kind stall_not_found = Some NotFound
    /\ items_of sid w' = []
    /\ reviews_of sid w' = []
    /\ (forall i, In i (menu_items_table w') <->
                  In i (menu_items_table w)
                  /\ ~ In (MenuItem.item_id i)
                          (map MenuItem.item_id (items_of sid w)))
    /\ (forall r, In r (reviews_table w') <->
                  In r (reviews_table w)
                  /\ ~ In (Review.review_id r)
                          (map Review.review_id (reviews_of sid w)))
    /\ users_table w' = users_table w
    /\ s3_bucket w' = s3_bucket w
    /\ writes w'
       = (writes w
          ++ [DeleteItem Stalls sid]
          ++ map (fun i => DeleteItem MenuItems (MenuItem.item_id i))
                 (items_of sid w)
          ++ map (fun r => DeleteItem Reviews (Review.review_id r))
                 (reviews_of sid w))%list.
Proof.
  intros Hs Hown Hrole.
  assert (Hempty : forall {R} (f : R -> bool) (l : list R),
             (forall x, In x l -> f x = false) -> filter f l = []).
  { intros R f l H. induction l as [|x l IH]; [reflexivity|]. cbn.
    rewrite (H x (or_introl eq_refl)). apply IH. intros y Hy. apply H.
    now right. }
  exists
    {| users_table := users_table w;
       stalls_table := Items.delete_item Stall.stall_id sid (stalls_table w);
       menu_items_table :=
         fold_left (fun t k => Items.delete_item MenuItem.item_id k t)
                   (map MenuItem.item_id (items_of sid w))
                   (menu_items_table w);
       reviews_table :=
         fold_left (fun t k => Items.delete_item Review.review_id k t)
                   (map Review.review_id (reviews_of sid w))
                   (reviews_table w);
       s3_bucket := s3_bucket w;
       writes :=
         ((writes w ++ [DeleteItem Stalls sid])
          ++ map (fun i => DeleteItem MenuItems (MenuItem.item_id i))
                 (items_of sid w))
         ++ map (fun r => DeleteItem Reviews (Review.review_id r))
                (reviews_of sid w) |}.
  split.
  { unfold delete_stall. run. rewrite Hrole. cbn. rewrite Hs. cbn.
    rewrite Hown, String.eqb_refl. cbn.
    unfold delete_item at 1. cbn.
    rewrite for_each_delete_menu_items. cbn.
    rewrite for_each_delete_reviews. cbn. reflexivity. }
  cbn [users_table stalls_table menu_items_table reviews_table s3_bucket
       writes].
  repeat apply conj; try reflexivity.
  - unfold get_stall. run. cbn [stalls_table].
    now rewrite get_item_delete_item.
  - unfold items_of at 1. cbn [menu_items_table]. apply Hempty. intros i Hi.
    apply In_fold_delete in Hi. destruct Hi as [Hin Hn].
    destruct (String.eqb (MenuItem.stall_id i) sid) eqn:E; [|reflexivity].
    exfalso. apply Hn. apply in_map. apply filter_In. now split.
  - unfold reviews_of at 1. cbn [reviews_table]. apply Hempty. intros r Hr.
    apply In_fold_delete in Hr. destruct Hr as [Hin Hn].
    destruct (String.eqb (Review.stall_id r) sid) eqn:E; [|reflexivity].
    exfalso. apply Hn. apply in_map. apply filter_In. now split.
  - intros i. apply In_fold_delete.
  - intros r. apply In_fold_delete.
  - rewrite <- !app_assoc. reflexivity.
Qed.

End Cascade.

Lemma delete_stall_cascade_witness :
  exists w',
    as_owner Demo.alice (delete_stall "stall-a") Demo.world = (inr tt, w')
    /\ get_stall "stall-a" Demo.carol w' = (inl stall_not_found, w')
    /\ items_of "stall-a" w' = []
    /\ reviews_of "stall-a" w' = []
    /\ writes w' = [DeleteItem Stalls "stall-a";
                    DeleteItem MenuItems "item-a1";
                    DeleteItem Reviews "review-a1"].
Proof.
  destruct (delete_stall_cascade "stall-a" Demo.alice Demo.carol Demo.world
              Demo.stall_a eq_refl eq_refl eq_refl)
    as (w' & Hrun & Hget & _ & Hitems & Hreviews & _ & _ & _ & _ & Hwrites).
  exists w'. repeat split; assumption.
Defined.

(* ================================================================== *)
(** * The review ledger *)

Section ReviewLedger.

Lemma rating_invalid_spec (rating : Z) :
  rating_invalid rating = true <-> rating < 1 \/ 5 < rating.
Proof.
  unfold rating_invalid. rewrite orb_true_iff, Z.ltb_lt, Z.gtb_lt.
  reflexivity.
Qed.

Lemma rating_valid_spec (rating : Z) :
  rating_invalid rating = false <-> 1 <= rating <= 5.
Proof.
  unfold rating_invalid. rewrite orb_false_iff, Z.ltb_ge, Z.gtb_ltb, Z.ltb_ge.
  reflexivity.
Qed.

Lemma scan_reviews_of_pair (sid uid : string) (w : World) :
  truthy (Items.scan
            (fun r => String.eqb (Review.stall_id r) sid
                      && String.eqb (Review.user_id r) uid)
            (reviews_table w)) = true
  <-> reviewed_by sid uid w.
Proof.
  unfold Items.scan, reviewed_by. split.
  - destruct (filter _ _) as [|r l] eqn:E; [discriminate|]. intros _.
    assert (Hin : In r (r :: l)) by now left.
    rewrite <- E in Hin. apply filter_In in Hin. destruct Hin as [Hin Hb].
    apply andb_true_iff in Hb. destruct Hb as [H1 H2].
    apply String.eqb_eq in H1, H2. now exists r.
  - intros (r & Hin & H1 & H2).
    assert (Hf : In r (filter
                         (fun r => String.eqb (Review.stall_id r) sid
                                   && String.eqb (Review.user_id r) uid)
                         (reviews_table w))).
    { apply filter_In. split; [assumption|].
      now rewrite H1, H2, !String.eqb_refl. }
    destruct (filter _ _); [contradiction | reflexivity].
Qed.

(** C3. On an existing stall, [create_review] is decided in this order: the
    owner of the stall is denied with [Forbidden]; else an actor who already
    has a review of the stall is denied with [DuplicateReview]; else a
    rating outside 1..5 is denied with [InvalidInput]; else the review is
    stored under the fresh identifier and returned.  A denial leaves the
    world as it was.  [update_review], once its own checks on the stall, the
    review and the author have passed, denies a rating outside 1..5 with
    the same [InvalidInput]. *)
Theorem create_review_decision (sid : string) (review : ReviewCreate)
    (env : Env) (actor : User.t) (w : World) (s : Stall.t) :
  Items.get_item Stall.stall_id sid (stalls_table w) = Some s ->
  (Stall.owner_id s = User.user_id actor ->
   create_review sid review env actor w = (inl own_stall_review, w)
   /\ denial_kind own_stall_review = Some Forbidden)
  /\ (Stall.owner_id s <> User.user_id actor ->
      reviewed_by sid (User.user_id actor) w ->
      create_review sid review env actor w = (inl already_reviewed, w)
      /\ denial_kind already_reviewed = Some DuplicateReview)
  /\ (Stall.owner_id s <> User.user_id actor ->
      ~ reviewed_by sid (User.user_id actor) w ->
      rc_rating review < 1 \/ 5 < rc_rating review ->
      create_review sid review env actor w = (inl rating_out_of_range, w)
      /\ denial_kind rating_out_of_range = Some InvalidInput)
  /\ (Stall.owner_id s <> User.user_id actor ->
      ~ reviewed_by sid (User.user_id actor) w ->
      1 <= rc_rating review <= 5 ->
      exists w',
        let new_review :=
          {| Review.review_id := uuid4 env 0%nat;
             Review.stall_id := sid;
             Review.user_id := User.user_id actor;
             Review.user_name := User.full_name actor;
             Review.rating := rc_rating review;
             Review.comment := rc_comment review;
             Review.created_at := utcnow env;
             Review.updated_at := utcnow env |} in
        create_review sid review env actor w = (inr new_review, w')
        /\ Items.get_item Review.review_id (uuid4 env 0%nat)
                          (reviews_table w') = Some new_review
        /\ reviewed_by sid (User.user_id actor) w'
        /\ reviews_table w'
           = Items.put_item Review.review_id new_review (reviews_table w)
        /\ users_table w' = users_table w
        /\ stalls_table w' = stalls_table w
        /\ menu_items_table w' = menu_items_table w)
  /\ (forall (rid : string) (existing : Review.t),
        Items.get_item Review.review_id rid (reviews_table w)
        = Some existing ->
        Review.stall_id existing = sid ->
        Review.user_id existing = User.user_id actor ->
        rc_rating review < 1 \/ 5 < rc_rating review ->
        update_review sid rid review env actor w
        = (inl rating_out_of_range, w)).
Proof.
  intros Hs. unfold create_review. run.
  rewrite Hs. cbn.
  repeat apply conj.
  - intros Ho. rewrite Ho, String.eqb_refl. cbn. now split.
  - intros Ho Hdup. apply String.eqb_neq in Ho. rewrite Ho. cbn.
    apply scan_reviews_of_pair in Hdup. rewrite Hdup. now split.
  - intros Ho Hdup Hr. apply String.eqb_neq in Ho. rewrite Ho. cbn.
    rewrite <- scan_reviews_of_pair in Hdup.
    apply not_true_is_false in Hdup. rewrite Hdup. cbn.
    apply rating_invalid_spec in Hr. rewrite Hr. now split.
  - intros Ho Hdup Hr. apply String.eqb_neq in Ho. rewrite Ho.
    cbn. rewrite <- scan_reviews_of_pair in Hdup.
    apply not_true_is_false in Hdup. rewrite Hdup. cbn.
    apply rating_valid_spec in Hr. rewrite Hr. cbn.
    eexists. split; [reflexivity|]. cbn.
    repeat apply conj; try reflexivity.
    + match goal with
      | |- _ = Some ?r =>
          exact (get_item_put_item Review.review_id r (reviews_table w))
      end.
    + eexists. split; [apply (In_put_item Review.review_id)|now split].
  - intros rid existing He Hsid Hauth Hr.
    unfold update_review. run. rewrite Hs. cbn. rewrite He. cbn.
    rewrite Hsid, Hauth, !String.eqb_refl. cbn.
    apply rating_invalid_spec in Hr. now rewrite Hr.
Qed.

End ReviewLedger.

Lemma create_review_decision_witness :
  create_review "stall-a" {| rc_rating := 4; rc_comment := "Sarap" |}
                Demo.env Demo.alice Demo.world
  = (inl own_stall_review, Demo.world)
  /\ create_review "stall-a" {| rc_rating := 4; rc_comment := "Sarap" |}
                   Demo.env Demo.carol Demo.world
     = (inl already_reviewed, Demo.world)
  /\ create_review "stall-a" {| rc_rating := 6; rc_comment := "Sarap" |}
                   Demo.env Demo.bob Demo.world
     = (inl rating_out_of_range, Demo.world)
  /\ update_review "stall-a" "review-a1"
                   {| rc_rating := 0; rc_comment := "Sarap" |}
                   Demo.env Demo.carol Demo.world
     = (inl rating_out_of_range, Demo.world)
  /\ exists w',
       fst (create_review "stall-a"
              {| rc_rating := 4; rc_comment := "Sarap" |}
              Demo.env Demo.bob Demo.world)
       = inr {| Review.review_id := "uuid-0"; Review.stall_id := "stall-a";
                Review.user_id := "bob"; Review.user_name := "Bob";
                Review.rating := 4; Review.comment := "Sarap";
                Review.created_at := 1700000000;
                Review.updated_at := 1700000000 |}
       /\ snd (create_review "stall-a"
                 {| rc_rating := 4; rc_comment := "Sarap" |}
                 Demo.env Demo.bob Demo.world) = w'
       /\ reviewed_by "stall-a" "bob" w'.
Proof.
  assert (Hbob : ~ reviewed_by "stall-a" "bob" Demo.world).
  { intros (r & [<-|[]] & _ & H). discriminate. }
  split; [|split; [|split; [|split]]].
  - apply (create_review_decision "stall-a"
             {| rc_rating := 4; rc_comment := "Sarap" |}
             Demo.env Demo.alice Demo.world Demo.stall_a eq_refl).
    reflexivity.
  - apply (create_review_decision "stall-a"
             {| rc_rating := 4; rc_comment := "Sarap" |}
             Demo.env Demo.carol Demo.world Demo.stall_a eq_refl).
    + discriminate.
    + exists Demo.review_a1. repeat split. now left.
  - apply (create_review_decision "stall-a"
             {| rc_rating := 6; rc_comment := "Sarap" |}
             Demo.env Demo.bob Demo.world Demo.stall_a eq_refl).
    + discriminate.
    + exact Hbob.
    + right. reflexivity.
  - apply (create_review_decision "stall-a"
             {| rc_rating := 0; rc_comment := "Sarap" |}
             Demo.env Demo.carol Demo.world Demo.stall_a eq_refl)
      with (existing := Demo.review_a1); try reflexivity.
    left. reflexivity.
  - destruct (create_review_decision "stall-a"
                {| rc_rating := 4; rc_comment := "Sarap" |}
                Demo.env Demo.bob Demo.world Demo.stall_a eq_refl)
      as (_ & _ & _ & Hok & _).
    destruct Hok as (w' & Hrun & _ & Hrev & _).
    + discriminate.
    + exact Hbob.
    + cbn. lia.
    + exists w'. rewrite Hrun. repeat split. exact Hrev.
Defined.

(* ================================================================== *)
(** * The identity store *)

Section IdentityStore.
Variable settings : Settings.
Variable bcrypt : Bcrypt.
Variable token : Type.
Variable jose : Jose token.

Lemma users_with_email_nonempty (email : string) (w : World) :
  truthy (users_with_email email w) = true
  <-> exists u, In u (users_table w) /\ User.email u = email.
Proof.
  unfold users_with_email. split.
  - destruct (filter _ _) as [|u l] eqn:E; [discriminate|]. intros _.
    assert (Hin : In u (u :: l)) by now left.
    rewrite <- E in Hin. apply filter_In in Hin. destruct Hin as [Hin Hb].
    apply String.eqb_eq in Hb. now exists u.
  - intros (u & Hin & He).
    assert (Hf : In u (filter (fun u => String.eqb (User.email u) email)
                               (users_table w))).
    { apply filter_In. split; [assumption|]. now apply String.eqb_eq. }
    destruct (filter _ _); [contradiction | reflexivity].
Qed.

(** A registration that raises leaves the world as it was. *)
Lemma register_user_failure_stores_nothing (user : UserCreate) (env : Env)
    (w w' : World) (e : exn) :
  register_user bcrypt user env w = (inl e, w') -> w' = w.
Proof.
  unfold register_user. run.
  destruct (truthy _); cbn; [congruence|].
  destruct (negb _); cbn; [congruence|].
  unfold put_item. cbn. discriminate.
Qed.

(** What a registration that goes through returns and stores. *)
Lemma register_user_success (user : UserCreate) (env : Env) (w : World) :
  (forall u, In u (users_table w) -> User.email u <> uc_email user) ->
  uc_user_type user = "owner" \/ uc_user_type user = "customer" ->
  let new_user :=
    {| User.user_id := uuid4 env 0%nat;
       User.email := uc_email user;
       User.full_name := uc_full_name user;
       User.password := hashpw bcrypt (uc_password user) (gensalt env);
       User.user_type := uc_user_type user;
       User.created_at := utcnow env;
       User.updated_at := utcnow env |} in
  register_user bcrypt user env w
  = (inr {| resp_user_id := uuid4 env 0%nat;
            resp_email := uc_email user;
            resp_full_name := uc_full_name user;
            resp_user_type := uc_user_type user;
            resp_created_at := utcnow env |},
     log (PutItem Users (uuid4 env 0%nat))
         (with_records users
            (Items.put_item User.user_id new_user (users_table w)) w)).
Proof.
  intros Hfresh Hrole. unfold register_user. run.
  assert (Hnone : truthy (Items.scan
                            (fun u => String.eqb (User.email u)
                                                 (uc_email user))
                            (users_table w)) = false).
  { apply not_true_is_false. intros H.
    apply (users_with_email_nonempty (uc_email user) w) in H.
    destruct H as (u & Hin & He). exact (Hfresh u Hin He). }
  rewrite Hnone. cbn -[existsb].
  assert (Hok : existsb (String.eqb (uc_user_type user))
                        ["owner"; "customer"] = true).
  { cbn. destruct Hrole as [-> | ->]; reflexivity. }
  rewrite Hok. cbn. reflexivity.
Qed.

(** C7. A registration is denied with [DuplicateEmail] exactly when a stored
    user has the very same email (strings compared character by character,
    over the whole table).  Therefore, where no user has the email yet, a
    first registration with a valid role goes through and a second one with
    the same email is denied with [DuplicateEmail]; a registration that is
    denied stores nothing. *)
Theorem register_user_duplicate_email (user : UserCreate) (env : Env)
    (w : World) :
  ((exists e w', register_user bcrypt user env w = (inl e, w')
                 /\ denial_kind e = Some DuplicateEmail)
   <-> (exists u, In u (users_table w) /\ User.email u = uc_email user))
  /\ (forall e w', register_user bcrypt user env w = (inl e, w') -> w' = w)
  /\ (forall (second : UserCreate) (env2 : Env),
        (forall u, In u (users_table w) -> User.email u <> uc_email user) ->
        uc_user_type user = "owner" \/ uc_user_type user = "customer" ->
        uc_email second = uc_email user ->
        exists resp w1,
          register_user bcrypt user env w = (inr resp, w1)
          /\ resp_user_id resp = uuid4 env 0%nat
          /\ (exists u, In u (users_table w1)
                        /\ User.user_id u = uuid4 env 0%nat
                        /\ User.email u = uc_email user)
          /\ register_user bcrypt second env2 w1 = (inl duplicate_email, w1)
          /\ denial_kind duplicate_email = Some DuplicateEmail).
Proof.
  repeat apply conj.
  - intros (e & w' & Hrun & Hk).
    apply users_with_email_nonempty. unfold users_with_email.
    revert Hrun. unfold register_user. run.
    destruct (truthy _); cbn; [reflexivity|].
    destruct (negb _); cbn.
    + intros [= <- _]. discriminate.
    + unfold put_item. cbn. discriminate.
  - intros H. apply users_with_email_nonempty in H.
    exists duplicate_email, w. split; [|reflexivity].
    unfold register_user. run. unfold users_with_email in H.
    unfold Items.scan. now rewrite H.
  - intros e w'. apply register_user_failure_stores_nothing.
  - intros second env2 Hfresh Hrole Hsame.
    do 2 eexists. split; [apply register_user_success; assumption|].
    split; [reflexivity|]. split.
    + eexists. split; [apply (In_put_item User.user_id)|].
      split; reflexivity.
    + split; [|reflexivity].
      unfold register_user. run. cbn [users_table log].
      match goal with
      | |- context [truthy ?l] =>
          assert (Hdup : truthy l = true)
      end.
      { apply (users_with_email_nonempty (uc_email second)).
        eexists. split; [apply (In_put_item User.user_id)|].
        cbn. now symmetry. }
      rewrite Hdup. reflexivity.
Qed.

(** C8. A login fails in the same way whatever the cause: when no stored
    user has the email, and when the first stored user with the email does
    not pass the password check, the very same exception, of kind
    [InvalidCredentials], is raised and the world is unchanged; and a login
    that fails raises nothing else. *)
Theorem login_failure_indistinguishable (form_data : LoginForm) (env : Env)
    (w : World) :
  (users_with_email (username form_data) w = [] ->
   login_for_access_token settings bcrypt jose form_data env w
   = (inl incorrect_email_or_password, w))
  /\ (forall user others,
        users_with_email (username form_data) w = user :: others ->
        checkpw bcrypt (form_password form_data) (User.password user)
        = false ->
        login_for_access_token settings bcrypt jose form_data env w
        = (inl incorrect_email_or_password, w))
  /\ (forall e w',
        login_for_access_token settings bcrypt jose form_data env w
        = (inl e, w') ->
        e = incorrect_email_or_password /\ w' = w)
  /\ denial_kind incorrect_email_or_password = Some InvalidCredentials.
Proof.
  unfold users_with_email, login_for_access_token. run. unfold Items.scan.
  repeat apply conj; try reflexivity.
  - intros ->. reflexivity.
  - intros user others -> Hpw. cbn. now rewrite Hpw.
  - intros e w'. destruct (filter _ _) as [|user others]; cbn.
    + intros [= <- <-]. now split.
    + destruct (checkpw _ _ _); cbn.
      * discriminate.
      * intros [= <- <-]. now split.
Qed.

(** A login with the password of the first stored user with the email
    returns a token for that user, valid for seven days. *)
Lemma login_for_access_token_success (form_data : LoginForm) (env : Env)
    (w : World) (user : User.t) (others : list User.t) :
  users_with_email (username form_data) w = user :: others ->
  checkpw bcrypt (form_password form_data) (User.password user) = true ->
  login_for_access_token settings bcrypt jose form_data env w
  = (inr {| access_token :=
              jwt_encode jose
                {| sub := Some (User.user_id user);
                   exp := utcnow env + seven_days |}
                (SECRET_KEY settings) (ALGORITHM settings);
            token_type := "bearer" |}, w).
Proof.
  unfold users_with_email, login_for_access_token. run. unfold Items.scan.
  intros -> Hpw. cbn. rewrite Hpw. reflexivity.
Qed.

(** A token made for a stored user resolves, until it expires, to a stored
    user with the same identifier. *)
Lemma get_current_user_of_token (uid : string) (expiry : datetime)
    (env : Env) (w : World) (user : User.t) :
  jose_correct jose ->
  In user (users_table w) ->
  User.user_id user = uid ->
  utcnow env <= expiry ->
  exists actor,
    get_current_user settings jose
      (jwt_encode jose {| sub := Some uid; exp := expiry |}
                  (SECRET_KEY settings) (ALGORITHM settings)) env w
    = (inr actor, w)
    /\ In actor (users_table w)
    /\ User.user_id actor = uid.
Proof.
  intros Hjose Hin Hid Hnow. unfold get_current_user.
  rewrite Hjose by assumption. cbn [sub]. run.
  destruct (Items.get_item User.user_id uid (users_table w)) as [actor|] eqn:E.
  - exists actor. apply get_item_Some in E. destruct E as [Ha Hk].
    repeat split; assumption.
  - exfalso. rewrite get_item_None in E. exact (E user Hin Hid).
Qed.

(** C9. After a registration that went through, a login with the same email
    and password returns a bearer token whose payload is the identifier of
    the registered user and an expiry seven days after the login, and that
    token resolves, at any time up to its expiry, to a stored user whose
    identifier is the registered one.  Neither call changes the world. *)
Theorem register_login_resolve_round_trip (user : UserCreate)
    (env env_login : Env) (w w1 : World) (resp : UserResponse) :
  bcrypt_correct bcrypt ->
  jose_correct jose ->
  register_user bcrypt user env w = (inr resp, w1) ->
  let form_data :=
    {| username := uc_email user; form_password := uc_password user |} in
  exists tok,
    login_for_access_token settings bcrypt jose form_data env_login w1
    = (inr {| access_token := tok; token_type := "bearer" |}, w1)
    /\ tok = jwt_encode jose
               {| sub := Some (resp_user_id resp);
                  exp := utcnow env_login + 7 * 24 * 60 * 60 |}
               (SECRET_KEY settings) (ALGORITHM settings)
    /\ forall env_resolve,
         utcnow env_resolve <= utcnow env_login + 7 * 24 * 60 * 60 ->
         exists actor,
           get_current_user settings jose tok env_resolve w1
           = (inr actor, w1)
           /\ User.user_id actor = resp_user_id resp.
Proof.
  intros Hbcrypt Hjose Hreg form_data.
  (* the registration went through: no user had the email, the role is
     valid *)
  assert (Hfresh : forall u, In u (users_table w) ->
                             User.email u <> uc_email user).
  { intros u Hin He. revert Hreg. unfold register_user. run.
    assert (Hdup : truthy (Items.scan
                             (fun u => String.eqb (User.email u)
                                                  (uc_email user))
                             (users_table w)) = true).
    { apply (users_with_email_nonempty (uc_email user) w). now exists u. }
    rewrite Hdup. discriminate. }
  assert (Hrole : uc_user_type user = "owner"
                  \/ uc_user_type user = "customer").
  { revert Hreg. unfold register_user. run.
    destruct (truthy _); cbn; [discriminate|].
    destruct (String.eqb_spec (uc_user_type user) "owner") as [->|_];
      [now left|].
    destruct (String.eqb_spec (uc_user_type user) "customer") as [->|_];
      [now right|].
    cbn. discriminate. }
  pose proof (register_user_success user env w Hfresh Hrole) as Hrun.
  cbn zeta in Hrun. rewrite Hrun in Hreg. injection Hreg as <- <-.
  cbn [resp_user_id].
  set (new_user :=
         {| User.user_id := uuid4 env 0%nat;
            User.email := uc_email user;
            User.full_name := uc_full_name user;
            User.password := hashpw bcrypt (uc_password user) (gensalt env);
            User.user_type := uc_user_type user;
            User.created_at := utcnow env;
            User.updated_at := utcnow env |}) in *.
  set (w1 := log _ _).
  assert (Htable : users_table w1
                   = Items.put_item User.user_id new_user (users_table w))
    by reflexivity.
  (* the stored users with the email are copies of the new user *)
  assert (Hfirst : exists others,
             users_with_email (uc_email user) w1 = new_user :: others).
  { unfold users_with_email. rewrite Htable.
    assert (Hall : forall u,
               In u (filter (fun u => String.eqb (User.email u)
                                                 (uc_email user))
                            (Items.put_item User.user_id new_user
                                            (users_table w))) ->
               u = new_user).
    { intros u Hin. apply filter_In in Hin. destruct Hin as [Hin He].
      apply In_put_item_inv in Hin.
      destruct Hin as [->|Hin]; [reflexivity|].
      apply String.eqb_eq in He. now destruct (Hfresh u Hin). }
    assert (Hnew : In new_user
                      (filter (fun u => String.eqb (User.email u)
                                                   (uc_email user))
                              (Items.put_item User.user_id new_user
                                              (users_table w)))).
    { apply filter_In. split; [apply In_put_item|]. cbn.
      apply String.eqb_refl. }
    destruct (filter _ _) as [|u others]; [contradiction|].
    exists others. f_equal. apply Hall. now left. }
  destruct Hfirst as [others Hfirst].
  eexists. split; [|split; [reflexivity|]].
  - rewrite (login_for_access_token_success form_data env_login w1
               new_user others Hfirst).
    + reflexivity.
    + apply Hbcrypt.
  - intros env_resolve Hnow.
    destruct (get_current_user_of_token (uuid4 env 0%nat)
                (utcnow env_login + seven_days) env_resolve w1 new_user)
      as (actor & Hrun' & _ & Hid); try assumption; try reflexivity.
    + rewrite Htable. apply In_put_item.
    + exists actor. split; assumption.
Qed.

End IdentityStore.

(** The stand-ins of the small deployment keep the contracts. *)
Lemma Demo_bcrypt_correct : bcrypt_correct Demo.bcrypt.
Proof.
  intros pw salt. cbn. induction pw as [|c pw IH]; cbn.
  - now destruct salt.
  - destruct (Ascii.ascii_dec c c) as [_|n]; [exact IH | now destruct n].
Qed.

Lemma Demo_jose_correct : jose_correct Demo.jose.
Proof.
  intros claims key alg now Hnow. cbn.
  rewrite !String.eqb_refl. cbn.
  apply Z.leb_le in Hnow. now rewrite Hnow.
Qed.

Lemma register_user_duplicate_email_witness :
  exists resp w1,
    register_user Demo.bcrypt Demo.dave Demo.env Demo.world = (inr resp, w1)
    /\ resp_user_id resp = "uuid-0"
    /\ register_user Demo.bcrypt
         {| uc_email := "dave@example.com"; uc_full_name := "David";
            uc_password := "dalandan"; uc_user_type := "owner" |}
         Demo.env w1 = (inl duplicate_email, w1).
Proof.
  destruct (register_user_duplicate_email Demo.bcrypt Demo.dave Demo.env
              Demo.world) as (_ & _ & Htwice).
  destruct (Htwice
              {| uc_email := "dave@example.com"; uc_full_name := "David";
                 uc_password := "dalandan"; uc_user_type := "owner" |}
              Demo.env)
    as (resp & w1 & Hfirst & Hid & _ & Hsecond & _).
  - intros u [<-|[<-|[<-|[]]]]; discriminate.
  - right. reflexivity.
  - reflexivity.
  - exists resp, w1. repeat split; assumption.
Defined.

Lemma login_failure_indistinguishable_witness :
  login_for_access_token Demo.settings Demo.bcrypt Demo.jose
    {| username := "nobody@example.com"; form_password := "apples" |}
    Demo.env Demo.world
  = (inl incorrect_email_or_password, Demo.world)
  /\ login_for_access_token Demo.settings Demo.bcrypt Demo.jose
       {| username := "alice@example.com"; form_password := "oranges" |}
       Demo.env Demo.world
     = (inl incorrect_email_or_password, Demo.world).
Proof.
  split.
  - apply (login_failure_indistinguishable Demo.settings Demo.bcrypt
             _ Demo.jose
             {| username := "nobody@example.com";
                form_password := "apples" |} Demo.env Demo.world).
    reflexivity.
  - apply (login_failure_indistinguishable Demo.settings Demo.bcrypt
             _ Demo.jose
             {| username := "alice@example.com";
                form_password := "oranges" |} Demo.env Demo.world)
      with (user := Demo.alice) (others := []); reflexivity.
Defined.

Lemma register_login_resolve_round_trip_witness :
  exists w1 tok,
    snd (register_user Demo.bcrypt Demo.dave Demo.env Demo.world) = w1
    /\ login_for_access_token Demo.settings Demo.bcrypt Demo.jose
         {| username := "dave@example.com"; form_password := "durian" |}
         Demo.env w1
       = (inr {| access_token := tok; token_type := "bearer" |}, w1)
    /\ exists actor,
         get_current_user Demo.settings Demo.jose tok
           {| uuid4 := uuid4 Demo.env; utcnow := 1700600000;
              gensalt := "salt" |} w1
         = (inr actor, w1)
         /\ User.user_id actor = "uuid-0".
Proof.
  destruct (register_login_resolve_round_trip Demo.settings Demo.bcrypt
              _ Demo.jose Demo.dave Demo.env Demo.env Demo.world
              (snd (register_user Demo.bcrypt Demo.dave Demo.env Demo.world))
              (Build_UserResponse "uuid-0" "dave@example.com" "Dave"
                                  "customer" 1700000000)
              Demo_bcrypt_correct Demo_jose_correct eq_refl)
    as (tok & Hlogin & _ & Hresolve).
  eexists. exists tok. split; [reflexivity|]. split; [exact Hlogin|].
  apply Hresolve. cbn. lia.
Defined.

(* ================================================================== *)
(** * Facts about the upload and about update expressions *)

(** What an upload returns and does. *)
Lemma upload_file_to_s3_run (settings : Settings) (file : UploadFile)
    (prefix uuid : string) (w : World) :
  upload_file_to_s3 settings file prefix uuid w
  = (inr (s3_url settings (s3_key file prefix uuid)),
     log (PutObject (s3_key file prefix uuid))
       {| users_table := users_table w; stalls_table := stalls_table w;
          menu_items_table := menu_items_table w;
          reviews_table := reviews_table w;
          s3_bucket :=
            s3_bucket w
            ++ [{| Bucket := S3_BUCKET_NAME settings;
                   Key := s3_key file prefix uuid;
                   Body := contents file;
                   ContentType := content_type file |}];
          writes := writes w |}).
Proof.
  reflexivity.
Qed.


Section UpdateFacts.
Context {R B : Type} (f : R -> B).

Lemma apply_update_keeps (update_expression : list (Assignment R)) :
  Forall (fun a => keeps f (assign a)) update_expression ->
  keeps f (apply_update update_expression).
Proof.
  unfold apply_update. intros H.
  induction H as [|a l Ha _ IH]; intros x; cbn; [reflexivity|].
  now rewrite IH, Ha.
Qed.

Lemma set_if_truthy_keeps {A : Type} `{Truthy A} (x : option A)
    (a : A -> Assignment R) (update_expression : list (Assignment R)) :
  (forall v, keeps f (assign (a v))) ->
  Forall (fun a => keeps f (assign a)) update_expression ->
  Forall (fun a => keeps f (assign a))
         (set_if_truthy x a update_expression).
Proof.
  intros Ha Hue. unfold set_if_truthy. destruct x as [v|]; [|exact Hue].
  destruct (truthy v); [|exact Hue].
  apply Forall_app. split; [exact Hue|]. constructor; [apply Ha|constructor].
Qed.

(** The records of a table after an update that keeps [f] have the [f] of
    the records before. *)
Lemma In_update_item_keeps (key : R -> string) (k : string) (upd : R -> R)
    (tbl : list R) (x' : R) :
  keeps f upd ->
  In x' (Items.update_item key k upd tbl) ->
  exists x, In x tbl /\ f x' = f x.
Proof.
  intros Hupd Hin. unfold Items.update_item in Hin.
  apply in_map_iff in Hin. destruct Hin as (x & Hx & Hin).
  exists x. split; [exact Hin|].
  destruct (Items.has_key key k x); subst x'; [apply Hupd | reflexivity].
Qed.

End UpdateFacts.

(** What DynamoDB is sent by [update_stall], and what it answers: [extra]
    is the assignment of the image, if there is one.  A location that
    holds a supplied latitude or longitude is refused by the serializer;
    an expression without a name or without a location is refused by
    DynamoDB, which is given both placeholders. *)
Lemma update_stall_sends (sid : string) (stall : Stall.t)
    (name description : option string) (latitude longitude : option float)
    (address : option string) (now : datetime)
    (extra : list (Assignment Stall.t)) (w : World) :
  extra = []
  \/ (exists url, extra = [SET "image_url" [] (Stall_set_image_url url)]) ->
  existsb is_float (item_numbers stalls stall) = false ->
  let update_expression :=
    (stall_update_expression stall name description latitude longitude
                             address now ++ extra)%list in
  let location_sent :=
    any [truthy latitude; truthy longitude; truthy address] in
  update_item stalls sid update_expression
              (Some [("#name", "name"); ("#location", "location")]) w
  = if location_sent
       && match latitude, longitude with
          | None, None => false
          | _, _ => true
          end
    then (inl float_not_supported, w)
    else if truthy name && location_sent
    then
      let tbl :=
        Items.update_item Stall.stall_id sid
                          (apply_update update_expression)
                          (stalls_table w) in
      (inr (Items.get_item Stall.stall_id sid tbl),
       log (UpdateItem Stalls sid) (with_records stalls tbl w))
    else (inl validation_exception, w).
Proof.
  intros Hextra Hstored. cbn in Hstored.
  apply orb_false_iff in Hstored. destruct Hstored as [Hlat Hlon].
  rewrite orb_false_r in Hlon.
  unfold update_item, stall_update_expression, set_if_truthy, any.
  destruct Hextra as [->|[url ->]];
    destruct name as [[|c n]|], description as [[|c' d]|];
    destruct latitude as [lat|], longitude as [lon|], address as [[|c'' a]|];
    cbn [truthy truthy_optional truthy_str existsb orb andb];
    try destruct (truthy lat); try destruct (truthy lon);
    cbn; rewrite ?Hlat, ?Hlon; reflexivity.
Qed.

(** What DynamoDB is sent by [update_menu_item], and what it answers: a
    supplied price is refused by the serializer, and without a name the
    dictionary of names is empty, which DynamoDB refuses. *)
Lemma update_menu_item_sends (iid : string) (name : option string)
    (price : option float) (description category : option string)
    (now : datetime) (extra : list (Assignment MenuItem.t)) (w : World) :
  extra = []
  \/ (exists url,
         extra = [SET "image_url" [] (MenuItem_set_image_url url)]) ->
  let update_expression :=
    (menu_item_update_expression name price description category now
     ++ extra)%list in
  update_item menu_items iid update_expression
              (Some (if truthy name then [("#name", "name")] else [])) w
  = match price with
    | Some _ => (inl float_not_supported, w)
    | None =>
        if truthy name
        then
          let tbl :=
            Items.update_item MenuItem.item_id iid
                              (apply_update update_expression)
                              (menu_items_table w) in
          (inr (Items.get_item MenuItem.item_id iid tbl),
           log (UpdateItem MenuItems iid) (with_records menu_items tbl w))
        else (inl validation_exception, w)
    end.
Proof.
  intros Hextra.
  unfold update_item, menu_item_update_expression, set_if_truthy,
    set_if_not_None.
  destruct Hextra as [->|[url ->]];
    destruct name as [[|c n]|], price as [p|], description as [[|c' d]|],
             category as [[|c'' g]|];
    reflexivity.
Qed.

(** Without a price, no assignment of [update_menu_item] changes the
    price. *)
Lemma menu_item_update_keeps_price (name description category : option string)
    (now : datetime) (extra : list (Assignment MenuItem.t)) :
  extra = []
  \/ (exists url,
         extra = [SET "image_url" [] (MenuItem_set_image_url url)]) ->
  keeps MenuItem.price
        (apply_update
           (menu_item_update_expression name None description category now
            ++ extra)%list).
Proof.
  intros Hextra. apply apply_update_keeps. apply Forall_app. split.
  - unfold menu_item_update_expression, set_if_not_None.
    repeat (apply set_if_truthy_keeps; [intros v x; reflexivity|]).
    constructor; [intros x; reflexivity | constructor].
  - destruct Hextra as [->|[url ->]]; [constructor|].
    constructor; [intros x; reflexivity | constructor].
Qed.

(* ================================================================== *)
(** * Partial update of the location of a stall *)

Section StallUpdate.
Variable settings : Settings.

(** What [update_stall] does when only a latitude is supplied: it raises
    and leaves the world as it was.  A latitude that is true as a Python
    value is merged into a location that the serializer refuses, for it is
    a [float]; a latitude of zero is false, so that no location is sent at
    all, and DynamoDB refuses the names that the expression does not
    use. *)
Lemma update_stall_latitude_only (sid : string) (lat : float) (env : Env)
    (actor : User.t) (w : World) (s : Stall.t) :
  Items.get_item Stall.stall_id sid (stalls_table w) = Some s ->
  Stall.owner_id s = User.user_id actor ->
  User.user_type actor = "owner" ->
  as_owner actor
    (update_stall settings sid None None (Some lat) None None None env) w
  = (inl (if truthy lat then float_not_supported else validation_exception),
     w).
Proof.
  intros Hs Hown Hrole. unfold update_stall. run.
  rewrite Hrole, String.eqb_refl. cbn [negb]. cbn iota. rewrite Hs. cbn iota.
  rewrite Hown, String.eqb_refl. cbn [negb]. cbn iota.
  unfold update_item, stall_update_expression, set_if_truthy, any.
  cbn [existsb truthy_optional orb].
  change (@truthy (option float) truthy_optional (Some lat))
    with (truthy lat).
  rewrite orb_false_r.
  destruct (truthy lat); reflexivity.
Qed.

End StallUpdate.

(** C4 fails on the code at a latitude of zero: alice, who owns ["stall-a"]
    at latitude 14.5, updates it with the latitude 0.0 alone.  Because
    [any([latitude, longitude, address])] is false for [0.0], the update
    expression holds no assignment of the location; the call is then
    refused, for it names placeholders that the expression does not use;
    and the stall stored after the call keeps the latitude 14.5. *)
Lemma update_stall_latitude_zero_is_dropped :
  exists s' w',
    as_owner Demo.alice
      (update_stall Demo.settings "stall-a" None None (Some 0%float)
                    None None None Demo.env) Demo.world
    = (inl validation_exception, w')
    /\ Items.get_item Stall.stall_id "stall-a" (stalls_table w') = Some s'
    /\ Location.latitude (Stall.location s') = Decimal 14.5%float
    /\ (float_of (Location.latitude (Stall.location s')) =? 0)%float = false
    /\ Stall.location s' = Stall.location Demo.stall_a
    /\ writes w' = []
    /\ map path
           (stall_update_expression Demo.stall_a None None (Some 0%float)
                                    None None (utcnow Demo.env))
       = ["updated_at"].
Proof.
  do 2 eexists. split; [lazy; reflexivity|]. lazy. repeat split.
Qed.

(** With a latitude other than zero the same request does build the merged
    location, and is refused for the Python [float] that it holds. *)
Lemma update_stall_latitude_nonzero_is_refused :
  as_owner Demo.alice
    (update_stall Demo.settings "stall-a" None None (Some 10.25%float)
                  None None None Demo.env) Demo.world
  = (inl float_not_supported, Demo.world)
  /\ map (fun a => (path a, value_numbers a))
         (stall_update_expression Demo.stall_a None None
                                  (Some 10.25%float) None None
                                  (utcnow Demo.env))
     = [("updated_at", []);
        ("#location", [PyFloat 10.25%float; Decimal 121%float])].
Proof.
  split.
  - apply (update_stall_latitude_only Demo.settings "stall-a" 10.25%float
             Demo.env Demo.alice Demo.world Demo.stall_a eq_refl eq_refl
             eq_refl).
  - reflexivity.
Qed.

(* ================================================================== *)
(** * Prices of the menu items *)

Section Prices.
Variable settings : Settings.

(** C10.  The prices of the stored menu items stay at least zero through
    every creation and every update, whatever price the request supplies.
    The handlers do not look at the sign of a price; but a supplied price
    is a Python [float], which the serializer of the table refuses: a
    creation stores no item, an update that supplies a price stores
    nothing, and an update that supplies none leaves every stored price as
    it was. *)
Theorem menu_item_prices_stay_nonneg (w : World) (actor : User.t)
    (env : Env) (sid : string) :
  prices_nonneg w ->
  (forall name price description category image,
      let run :=
        as_owner actor
          (create_menu_item settings sid name price description category
                            image env) w in
      prices_nonneg (snd run)
      /\ menu_items_table (snd run) = menu_items_table w
      /\ exists e, fst run = inl e)
  /\ (forall iid name price description category image,
        let run :=
          as_owner actor
            (update_menu_item settings sid iid name price description
                              category image env) w in
        prices_nonneg (snd run)
        /\ (forall item',
               In item' (menu_items_table (snd run)) ->
               exists item,
                 In item (menu_items_table w)
                 /\ MenuItem.price item' = MenuItem.price item)
        /\ (price <> None ->
            menu_items_table (snd run) = menu_items_table w
            /\ exists e, fst run = inl e)).
Proof.
  intros Hinv. split.
  - intros name price description category image run.
    assert (H : menu_items_table (snd run) = menu_items_table w
                /\ exists e, fst run = inl e).
    { subst run. unfold create_menu_item, upload_file_to_s3, put_object,
        put_item. run.
      destruct (negb (String.eqb (User.user_type actor) "owner"));
        [split; [reflexivity | eexists; reflexivity]|].
      destruct (Items.get_item Stall.stall_id sid (stalls_table w));
        [|split; [reflexivity | eexists; reflexivity]].
      destruct (negb (String.eqb _ _));
        split; try reflexivity; eexists; reflexivity. }
    destruct H as [Htable Hraise]. unfold prices_nonneg.
    rewrite Htable. repeat split; assumption.
  - intros iid name price description category image run.
    assert (H : (forall item',
                    In item' (menu_items_table (snd run)) ->
                    exists item,
                      In item (menu_items_table w)
                      /\ MenuItem.price item' = MenuItem.price item)
                /\ (price <> None ->
                    menu_items_table (snd run) = menu_items_table w
                    /\ exists e, fst run = inl e)).
    { assert (Hsame : forall r : result (option MenuItem.t),
                 (forall item',
                     In item' (menu_items_table (snd (r, w))) ->
                     exists item,
                       In item (menu_items_table w)
                       /\ MenuItem.price item' = MenuItem.price item)).
      { intros r item' Hin. now exists item'. }
      subst run. unfold update_menu_item. run.
      destruct (negb (String.eqb (User.user_type actor) "owner"));
        [split; [apply Hsame | split; [reflexivity|eexists; reflexivity]]|].
      destruct (Items.get_item Stall.stall_id sid (stalls_table w));
        [|split; [apply Hsame | split; [reflexivity|eexists; reflexivity]]].
      destruct (negb (String.eqb _ _));
        [split; [apply Hsame | split; [reflexivity|eexists; reflexivity]]|].
      destruct (Items.get_item MenuItem.item_id iid _);
        [|split; [apply Hsame | split; [reflexivity|eexists; reflexivity]]].
      destruct (negb (String.eqb _ _));
        [split; [apply Hsame | split; [reflexivity|eexists; reflexivity]]|].
      destruct image as [image|].
      - rewrite upload_file_to_s3_run. cbv beta iota zeta.
        rewrite (update_menu_item_sends iid name price description category
                   (utcnow env) [SET "image_url" [] _])
          by (right; eexists; reflexivity).
        destruct price as [p|]; [|destruct (truthy name)];
          cbv beta iota zeta;
          cbn [fst snd menu_items_table log with_records menu_items].
        + split; [intros item' Hin; now exists item'|].
          intros _. split; [reflexivity | eexists; reflexivity].
        + split; [|intros Hp; now destruct Hp].
          intros item'.
          apply (In_update_item_keeps MenuItem.price).
          apply menu_item_update_keeps_price.
          right. eexists. reflexivity.
        + split; [intros item' Hin; now exists item'|].
          intros Hp. now destruct Hp.
      - cbv beta iota zeta.
        pose proof (update_menu_item_sends iid name price description
                      category (utcnow env) [] w (or_introl eq_refl))
          as Hsend.
        cbv zeta in Hsend. rewrite app_nil_r in Hsend. rewrite Hsend.
        destruct price as [p|]; [|destruct (truthy name)];
          cbv beta iota zeta;
          cbn [fst snd menu_items_table log with_records menu_items].
        + split; [intros item' Hin; now exists item'|].
          intros _. split; [reflexivity | eexists; reflexivity].
        + split; [|intros Hp; now destruct Hp].
          intros item'.
          pose proof (menu_item_update_keeps_price name description
                        category (utcnow env) [] (or_introl eq_refl))
            as Hkeep.
          rewrite app_nil_r in Hkeep.
          now apply (In_update_item_keeps MenuItem.price).
        + split; [intros item' Hin; now exists item'|].
          intros Hp. now destruct Hp. }
    destruct H as [Hprices Hprice].
    split; [|split; assumption].
    unfold prices_nonneg in *. rewrite Forall_forall in *.
    intros item' Hin. destruct (Hprices item' Hin) as (item & Hin0 & ->).
    now apply Hinv.
Qed.

End Prices.

Lemma Demo_prices_nonneg : prices_nonneg Demo.world.
Proof.
  repeat constructor.
Qed.

(** At negative prices: alice creates a menu item of her stall at the price
    -5 and sets the price of another to -1; both requests raise, and the
    stored prices are still at least zero. *)
Lemma menu_item_prices_stay_nonneg_witness :
  prices_nonneg
    (snd (as_owner Demo.alice
            (create_menu_item Demo.settings "stall-a" "Halo-halo" (-5)%float
               "Shaved ice" "desserts" Demo.photo Demo.env) Demo.world))
  /\ prices_nonneg
       (snd (as_owner Demo.alice
               (update_menu_item Demo.settings "stall-a" "item-a1" None
                  (Some (-1)%float) None None None Demo.env) Demo.world))
  /\ fst (as_owner Demo.alice
            (create_menu_item Demo.settings "stall-a" "Halo-halo" (-5)%float
               "Shaved ice" "desserts" Demo.photo Demo.env) Demo.world)
     = inl float_not_supported
  /\ as_owner Demo.alice
       (update_menu_item Demo.settings "stall-a" "item-a1" None
          (Some (-1)%float) None None None Demo.env) Demo.world
     = (inl float_not_supported, Demo.world).
Proof.
  destruct (menu_item_prices_stay_nonneg Demo.settings Demo.world
              Demo.alice Demo.env "stall-a" Demo_prices_nonneg)
    as (Hcreate & Hupdate).
  split; [apply Hcreate|]. split; [apply Hupdate|].
  split; reflexivity.
Defined.

(* ================================================================== *)
(** * The order of floats *)

Section FloatOrder.

Lemma SFcompare_antisym (x y : spec_float) :
  SFcompare x y = option_map CompOpp (SFcompare y x).
Proof.
  destruct x as [sx|sx| |sx mx ex], y as [sy|sy| |sy my ey]; cbn;
    try reflexivity;
    try (destruct sx; reflexivity); try (destruct sy; reflexivity);
    try (destruct sx, sy; reflexivity).
  destruct sx, sy; cbn; try reflexivity;
    rewrite (Z.compare_antisym ey ex);
    destruct (ey ?= ex)%Z eqn:E; cbn; try reflexivity;
    rewrite (Pos.compare_cont_antisym my mx Eq); cbn;
    try rewrite CompOpp_involutive; reflexivity.
Qed.

Lemma SFcompare_Eq_r (x d y : spec_float) :
  SFcompare x d = Some Eq -> SFcompare y x = SFcompare y d.
Proof.
  destruct x as [sx|sx| |sx mx ex], d as [sd|sd| |sd md ed]; cbn;
    try discriminate;
    try (destruct sx; discriminate); try (destruct sd; discriminate).
  - intros _. destruct y as [sy|sy| |sy my ey]; reflexivity.
  - destruct sx, sd; try discriminate; intros _; reflexivity.
  - destruct sx, sd; try discriminate;
      destruct (ex ?= ed)%Z eqn:E; try discriminate;
      apply Z.compare_eq in E; subst ed; intros H.
    + assert (mx = md).
      { apply Pos.compare_eq.
        destruct (Pos.compare_cont Eq mx md) eqn:C; cbn in H;
          try discriminate. exact C. }
      subst. reflexivity.
    + assert (mx = md).
      { apply Pos.compare_eq.
        exact (f_equal (fun o => match o with Some c => c | None => Eq end)
                       H). }
      subst. reflexivity.
Qed.

(** [x < y] gives [x <= y]. *)
Lemma float_ltb_leb (x y : float) :
  (x <? y)%float = true -> (x <=? y)%float = true.
Proof.
  rewrite ltb_spec, leb_spec. unfold SFltb, SFleb.
  destruct (SFcompare _ _) as [[]|]; intros H; (reflexivity || discriminate).
Qed.

(** Two floats that are each at most some float are numbers, so one is at
    most the other. *)
Lemma float_leb_total (x y rx ry : float) :
  (x <=? rx)%float = true -> (y <=? ry)%float = true ->
  (y <? x)%float = false -> (x <=? y)%float = true.
Proof.
  rewrite ltb_spec, !leb_spec. unfold SFltb, SFleb.
  rewrite (SFcompare_antisym (Prim2SF y) (Prim2SF x)).
  destruct (Prim2SF x) as [sx|sx| |sx mx ex];
    destruct (Prim2SF y) as [sy|sy| |sy my ey];
    try (cbn; discriminate);
    try (intros _; cbn; discriminate);
    intros _ _;
    destruct (SFcompare _ _) as [[]|] eqn:E; cbn;
    intros H; try reflexivity; try discriminate;
    cbn in E; discriminate.
Qed.

(** A float smaller than one equal to [d] is not equal to [d]. *)
Lemma float_ltb_not_eqb (y x d : float) :
  (y <? x)%float = true -> (x =? d)%float = true -> (y =? d)%float = false.
Proof.
  rewrite ltb_spec, !eqb_spec. unfold SFltb, SFeqb.
  intros Hlt Heq.
  destruct (SFcompare (Prim2SF x) (Prim2SF d)) as [[]|] eqn:E;
    try discriminate.
  rewrite <- (SFcompare_Eq_r _ _ (Prim2SF y) E).
  destruct (SFcompare (Prim2SF y) (Prim2SF x)) as [[]|];
    (reflexivity || discriminate).
Qed.

End FloatOrder.

(* ================================================================== *)
(** * The sort of a list by a float key *)

Section SortFacts.
Context {A : Type} (key : A -> float).

Lemma insert_Permutation (x : A) (l : list A) :
  Permutation (Py.insert key x l) (x :: l).
Proof.
  induction l as [|y l IH]; cbn.
  - apply Permutation_refl.
  - destruct (key y <? key x)%float.
    + apply Permutation_trans with (y :: x :: l).
      * now apply perm_skip.
      * apply perm_swap.
    + apply Permutation_refl.
Qed.

Lemma sort_Permutation (l : list A) : Permutation (Py.sort key l) l.
Proof.
  induction l as [|x l IH]; cbn.
  - apply perm_nil.
  - apply Permutation_trans with (x :: Py.sort key l).
    + apply insert_Permutation.
    + now apply perm_skip.
Qed.

Lemma insert_Sorted (x : A) (l : list A) :
  (exists r, (key x <=? r)%float = true) ->
  Forall (fun y => exists r, (key y <=? r)%float = true) l ->
  Sorted (fun a b => (key a <=? key b)%float = true) l ->
  Sorted (fun a b => (key a <=? key b)%float = true) (Py.insert key x l).
Proof.
  intros [rx Hx] Hb Hs. induction l as [|y l IH]; cbn.
  - repeat constructor.
  - inversion Hb as [|? ? [ry Hy] Hb']; subst.
    apply Sorted_inv in Hs. destruct Hs as [Hs Hhd].
    destruct (key y <? key x)%float eqn:E.
    + constructor; [now apply IH|].
      destruct l as [|z l]; cbn.
      * constructor. now apply float_ltb_leb.
      * destruct (key z <? key x)%float.
        -- constructor. now inversion Hhd.
        -- constructor. now apply float_ltb_leb.
    + constructor.
      * now constructor.
      * constructor. now apply (float_leb_total _ _ rx ry).
Qed.

(** A list whose keys are numbers (each is at most some float) is sorted by
    the sort. *)
Lemma sort_Sorted (l : list A) :
  Forall (fun x => exists r, (key x <=? r)%float = true) l ->
  Sorted (fun a b => (key a <=? key b)%float = true) (Py.sort key l).
Proof.
  intros Hb. induction Hb as [|x l Hx Hb IH]; cbn.
  - constructor.
  - apply insert_Sorted; [exact Hx | | exact IH].
    rewrite Forall_forall in *. intros y Hy.
    apply Hb. apply (Permutation_in _ (sort_Permutation l)). exact Hy.
Qed.

Lemma insert_ties (x : A) (l : list A) (d : float) :
  filter (fun a => (key a =? d)%float) (Py.insert key x l)
  = filter (fun a => (key a =? d)%float) (x :: l).
Proof.
  induction l as [|y l IH]; [reflexivity|]. cbn [Py.insert].
  destruct (key y <? key x)%float eqn:E; [|reflexivity].
  cbn [filter] in *. rewrite IH.
  destruct (key x =? d)%float eqn:Ex; [|reflexivity].
  now rewrite (float_ltb_not_eqb _ _ _ E Ex).
Qed.

Lemma sort_ties (l : list A) (d : float) :
  filter (fun a => (key a =? d)%float) (Py.sort key l)
  = filter (fun a => (key a =? d)%float) l.
Proof.
  induction l as [|x l IH]; [reflexivity|]. cbn [Py.sort].
  rewrite insert_ties. cbn [filter]. now rewrite IH.
Qed.

End SortFacts.

(* ================================================================== *)
(** * The listing of the stalls *)

Section Listing.
Variable libm : Libm.

(** The distance that the code computes is the haversine distance of the
    specification, on a sphere of radius 6371 km; it raises when and what
    the latter raises. *)
Lemma calculate_distance_is_haversine (p q : float * float) :
  calculate_distance libm p q = spec_haversine_km libm p q.
Proof.
  destruct p as [lat1 lon1], q as [lat2 lon2].
  unfold calculate_distance, spec_haversine_km, spec_hav, Math.rbind.
  cbn [fst snd].
  destruct (Math.sin libm _) as [e|s1]; [reflexivity|].
  destruct (Math.pow2 libm s1) as [e|s1_2]; [reflexivity|].
  destruct (Math.cos libm _) as [e|c1]; [reflexivity|].
  destruct (Math.cos libm _) as [e|c2]; [reflexivity|].
  destruct (Math.sin libm _) as [e|s2]; [reflexivity|].
  destruct (Math.pow2 libm s2) as [e|s2_2]; [reflexivity|].
  destruct (Math.sqrt _) as [e|root]; [reflexivity|].
  destruct (Math.asin libm root) as [e|angle]; reflexivity.
Qed.

(** The loop of [get_stalls] measures every stall by that distance. *)
Lemma measured_stalls_is_spec (centre : float * float) (w : World) :
  measured_stalls libm centre w = spec_measured libm centre (stalls_table w).
Proof.
  unfold measured_stalls, spec_measured.
  induction (stalls_table w) as [|s l IH]; [reflexivity|].
  cbn [traverse]. rewrite IH. unfold with_distance at 1, place.
  now rewrite calculate_distance_is_haversine.
Qed.

(** The measured stalls are the stored stalls, in scan order, each with its
    computed distance. *)
Lemma measured_stalls_spec (user_location : float * float) (w : World)
    (measured : list (Stall.t * float)) :
  measured_stalls libm user_location w = inr measured ->
  map fst measured = stalls_table w
  /\ Forall (fun sd =>
               calculate_distance libm user_location (place (fst sd))
               = inr (snd sd)) measured.
Proof.
  unfold measured_stalls. generalize (stalls_table w). intros l.
  revert measured. induction l as [|s l IH]; intros measured; cbn.
  - intros [= <-]. split; [reflexivity | constructor].
  - unfold with_distance at 1. unfold Math.rbind.
    destruct (calculate_distance libm user_location _) as [e|d] eqn:Ed;
      [discriminate|].
    destruct (traverse _ l) as [e|rest]; [discriminate|].
    intros [= <-]. destruct (IH rest eq_refl) as [Hmap Hall].
    split; cbn; [now rewrite Hmap|]. constructor; assumption.
Qed.

(** When a distance cannot be computed, the listing raises what the
    computation raised. *)
Lemma get_stalls_raises (latitude longitude : float)
    (radius : option float) (actor : User.t) (w : World) (e : exn) :
  measured_stalls libm (latitude, longitude) w = inl e ->
  get_stalls libm (Some latitude) (Some longitude) radius actor w
  = (inl e, w).
Proof.
  unfold measured_stalls, get_stalls. run. unfold Items.scan.
  rewrite filter_true. intros ->. reflexivity.
Qed.

(** C5, as the code has it.  For every table of stalls, centre and radius:
    when the haversine distance (sphere of radius 6371 km) of some stall
    from the centre is not a number that Python's [math] returns, the
    listing raises the error of the first such stall in scan order;
    otherwise the listing is made of the stalls whose haversine distance is
    at most the radius (5.0 when the caller gives none), each with that
    distance: it has exactly these entries, it is sorted by distance, and
    entries of equal distance are in scan order.  Without a centre (no
    latitude or no longitude) it is every stall in scan order, with no
    distance.  The world is unchanged. *)
Theorem get_stalls_listing (latitude longitude : float)
    (radius : option float) (actor : User.t) (w : World) :
  let r := match radius with Some r => r | None => 5%float end in
  match spec_measured libm (latitude, longitude) (stalls_table w) with
  | inl e =>
      get_stalls libm (Some latitude) (Some longitude) radius actor w
      = (inl e, w)
  | inr measured =>
      let within := filter (fun sd => (snd sd <=? r)%float) measured in
      map fst measured = stalls_table w
      /\ Forall (fun sd =>
                   spec_haversine_km libm (latitude, longitude)
                                     (place (fst sd))
                   = inr (snd sd)) measured
      /\ exists sorted,
           get_stalls libm (Some latitude) (Some longitude) radius actor w
           = (inr (map annotated sorted), w)
           /\ Permutation sorted within
           /\ (forall s d, In (s, d) sorted <->
                           In (s, d) measured /\ (d <=? r)%float = true)
           /\ Sorted by_distance sorted
           /\ same_order_of_ties sorted within
  end
  /\ (forall lat lon,
        lat = None \/ lon = None ->
        get_stalls libm lat lon radius actor w
        = (inr (map (fun s => {| stall := s; distance := None |})
                    (stalls_table w)), w)).
Proof.
  intros r. split.
  - rewrite <- measured_stalls_is_spec.
    destruct (measured_stalls libm (latitude, longitude) w)
      as [e|measured] eqn:Hm.
    { now apply get_stalls_raises. }
    intros within.
    destruct (measured_stalls_spec _ _ _ Hm) as [Hfst Hdist].
    split; [exact Hfst|]. split.
    { eapply Forall_impl; [|exact Hdist]. cbv beta. intros sd Hsd.
      now rewrite <- calculate_distance_is_haversine. }
    exists (Py.sort snd within).
    repeat apply conj.
    + unfold measured_stalls in Hm. unfold get_stalls. run.
      unfold Items.scan. rewrite filter_true, Hm. reflexivity.
    + apply sort_Permutation.
    + intros s d. split.
      * intros Hin.
        apply (Permutation_in _ (sort_Permutation snd within)) in Hin.
        apply filter_In in Hin. exact Hin.
      * intros [Hin Hd].
        apply (Permutation_in
                 _ (Permutation_sym (sort_Permutation snd within))).
        apply filter_In. now split.
    + apply sort_Sorted. apply Forall_forall. intros sd Hin.
      apply filter_In in Hin. exists r. tauto.
    + intros d. apply sort_ties.
  - intros lat lon Hnone. unfold get_stalls. run. unfold Items.scan.
    rewrite filter_true.
    destruct Hnone as [-> | ->]; [|destruct lat]; reflexivity.
Qed.

End Listing.

(** C5 as stated fails: the one stall of the table is at latitude 89 on the
    antimeridian and the centre is the point (91, 0).  With the values of
    glibc the term under the square root of the haversine formula is
    rounded to a negative number, [math.sqrt] raises, and the listing
    raises instead of returning the stalls within the radius. *)
Lemma get_stalls_listing_not_for_every_centre :
  stalls_table Demo.world_n = [Demo.stall_n]
  /\ place Demo.stall_n = (89%float, 180%float)
  /\ get_stalls Demo.glibc (Some 91%float) (Some 0%float) None Demo.carol
                Demo.world_n
     = (inl (ValueError "math domain error"), Demo.world_n)
  /\ calculate_distance Demo.glibc (91%float, 0%float) (89%float, 180%float)
     = inl (ValueError "math domain error")
  /\ forall listing,
       get_stalls Demo.glibc (Some 91%float) (Some 0%float) None Demo.carol
                  Demo.world_n
       <> (inr listing, Demo.world_n).
Proof.
  assert (Hrun : get_stalls Demo.glibc (Some 91%float) (Some 0%float) None
                            Demo.carol Demo.world_n
                 = (inl (ValueError "math domain error"), Demo.world_n))
    by (vm_compute; reflexivity).
  split; [reflexivity|]. split; [reflexivity|]. split; [exact Hrun|].
  split; [vm_compute; reflexivity|].
  intros listing. rewrite Hrun. discriminate.
Qed.

(** With the values of glibc, the listing around the place of ["stall-b"]
    with the default radius: ["stall-b"] at distance zero, then ["stall-a"]
    at 3.4748 km. *)
Lemma get_stalls_listing_witness :
  exists sorted,
    get_stalls Demo.glibc (Some 14.53125%float) (Some 121%float) None
               Demo.carol Demo.world
    = (inr (map annotated sorted), Demo.world)
    /\ Permutation sorted [(Demo.stall_a, 0x1.bcc79ad9ade05p+1%float);
                           (Demo.stall_b, 0%float)]
    /\ Sorted by_distance sorted.
Proof.
  destruct (get_stalls_listing Demo.glibc 14.53125%float 121%float None
              Demo.carol Demo.world) as [H _].
  change (spec_measured Demo.glibc (14.53125%float, 121%float)
                        (stalls_table Demo.world))
    with (@inr exn _ [(Demo.stall_a, 0x1.bcc79ad9ade05p+1%float);
                      (Demo.stall_b, 0%float)]) in H.
  cbv beta iota zeta in H.
  destruct H as (_ & _ & sorted & Hrun & Hperm & _ & Hsorted & _).
  exists sorted. split; [exact Hrun|]. split; [exact Hperm | exact Hsorted].
Defined.

(* ================================================================== *)
(** * Further properties: the guards of the endpoints *)

Section Guards.
Variable settings : Settings.
Variable token : Type.
Variable jose : Jose token.

(** [get_current_user] leaves the world alone, and either raises its one
    exception or returns a stored user found under its own identifier. *)
Lemma get_current_user_inv (tok : token) (env : Env) (w w0 : World)
    (r : result User.t) :
  get_current_user settings jose tok env w = (r, w0) ->
  w0 = w
  /\ (r = inl credentials_exception
      \/ exists user,
           r = inr user
           /\ Items.get_item User.user_id (User.user_id user)
                             (users_table w) = Some user).
Proof.
  unfold get_current_user.
  destruct (jwt_decode jose tok _ _ _) as [payload|].
  2: { intros [= <- <-]. split; [reflexivity | now left]. }
  destruct (sub payload) as [uid|].
  2: { intros [= <- <-]. split; [reflexivity | now left]. }
  run.
  destruct (Items.get_item User.user_id uid (users_table w)) as [u|] eqn:Hget.
  - intros [= <- <-]. split; [reflexivity|]. right. exists u.
    split; [reflexivity|].
    pose proof (get_item_Some _ _ _ _ Hget) as [_ Hid]. now rewrite Hid.
  - intros [= <- <-]. split; [reflexivity | now left].
Qed.

(** X1. [get_current_user] has three ways to fail (the token does not
    decode, its payload has no subject, the subject is no stored user) and
    all raise the same [Unauthenticated] exception; when it returns, the
    user is the stored one whose identifier is the subject of the token.
    The world is unchanged in every case. *)
Theorem get_current_user_outcomes (tok : token) (env : Env) (w : World) :
  (forall e w',
      get_current_user settings jose tok env w = (inl e, w') ->
      e = credentials_exception /\ w' = w
      /\ (jwt_decode jose tok (SECRET_KEY settings) [ALGORITHM settings]
                     (utcnow env) = None
          \/ (exists payload,
                 jwt_decode jose tok (SECRET_KEY settings)
                            [ALGORITHM settings] (utcnow env) = Some payload
                 /\ (sub payload = None
                     \/ exists uid,
                          sub payload = Some uid
                          /\ Items.get_item User.user_id uid (users_table w)
                             = None))))
  /\ (forall user w',
        get_current_user settings jose tok env w = (inr user, w') ->
        w' = w
        /\ Items.get_item User.user_id (User.user_id user) (users_table w)
           = Some user
        /\ exists payload,
             jwt_decode jose tok (SECRET_KEY settings) [ALGORITHM settings]
                        (utcnow env) = Some payload
             /\ sub payload = Some (User.user_id user))
  /\ denial_kind credentials_exception = Some Unauthenticated.
Proof.
  unfold get_current_user. split; [|split; [|reflexivity]].
  - intros e w'.
    destruct (jwt_decode jose tok _ _ _) as [payload|].
    2: { intros [= <- <-]. repeat split. now left. }
    destruct (sub payload) as [uid|] eqn:Hsub.
    2: { intros [= <- <-]. repeat split. right. exists payload.
         split; [reflexivity | now left]. }
    run.
    destruct (Items.get_item User.user_id uid (users_table w)) eqn:Hget.
    + discriminate.
    + intros [= <- <-]. repeat split. right. exists payload.
      split; [reflexivity|]. right. now exists uid.
  - intros user w'.
    destruct (jwt_decode jose tok _ _ _) as [payload|]; [|discriminate].
    destruct (sub payload) as [uid|] eqn:Hsub; [|discriminate].
    run.
    destruct (Items.get_item User.user_id uid (users_table w)) as [u|]
      eqn:Hget; [|discriminate].
    intros [= <- <-]. split; [reflexivity|].
    pose proof (get_item_Some _ _ _ _ Hget) as [_ Hid]. rewrite Hid.
    split; [exact Hget|]. exists payload. now split.
Qed.

(** X2. The body of an endpoint declared with [Depends(get_current_owner)]
    runs only for a stored user whose type is exactly ["owner"], on the
    world as it was; otherwise the request ends with [Unauthenticated] when
    the token does not resolve, and with [Forbidden] when it resolves to a
    user of another type, the world unchanged. *)
Theorem owner_endpoint_guard {A : Type} (tok : token) (env : Env)
    (endpoint : User.t -> Handler A) (w w' : World) (r : result A) :
  Depends_get_current_owner settings jose tok env endpoint w = (r, w') ->
  (r = inl credentials_exception /\ w' = w
   /\ exists e, get_current_user settings jose tok env w = (inl e, w))
  \/ (r = inl not_an_owner /\ w' = w
      /\ exists user,
           get_current_user settings jose tok env w = (inr user, w)
           /\ User.user_type user <> "owner")
  \/ (exists owner,
         get_current_user settings jose tok env w = (inr owner, w)
         /\ In owner (users_table w)
         /\ User.user_type owner = "owner"
         /\ endpoint owner w = (r, w')).
Proof.
  unfold Depends_get_current_owner. unfold bind at 1.
  destruct (get_current_user settings jose tok env w) as [[e|user] w0]
    eqn:Hrun.
  - destruct (get_current_user_inv _ _ _ _ _ Hrun) as [-> [He|(u & Hu & _)]];
      [|discriminate].
    injection He as ->.
    intros [= <- <-]. left. repeat split. now exists credentials_exception.
  - destruct (get_current_user_inv _ _ _ _ _ Hrun) as [-> [He|(u & Hu & Hget)]];
      [discriminate|].
    injection Hu as <-.
    run. destruct (String.eqb_spec (User.user_type user) "owner") as [Ho|Ho].
    + cbn. intros Hend. right. right. exists user.
      repeat split; try assumption.
      now apply get_item_Some in Hget.
    + cbn. intros [= <- <-]. right. left. repeat split. now exists user.
Qed.


End Guards.

Lemma owner_endpoint_guard_witness :
  (exists owner,
      get_current_user Demo.settings Demo.jose Demo.alice_token Demo.env
                       Demo.world = (inr owner, Demo.world)
      /\ User.user_type owner = "owner")
  /\ Depends_get_current_owner Demo.settings Demo.jose Demo.carol_token
       Demo.env (delete_stall "stall-a") Demo.world
     = (inl not_an_owner, Demo.world).
Proof.
  split.
  - destruct (owner_endpoint_guard Demo.settings _ Demo.jose
                Demo.alice_token Demo.env (delete_stall "stall-b")
                Demo.world Demo.world (inl not_the_owner) eq_refl)
      as [(H & _)|[(H & _)|(owner & Hrun & _ & Ho & _)]];
      try discriminate.
    now exists owner.
  - reflexivity.
Defined.

Lemma Demo_jose_expires : jose_expires Demo.jose.
Proof.
  intros claims key alg now Hnow. cbn.
  rewrite !String.eqb_refl. cbn.
  apply Z.leb_gt in Hnow. now rewrite Hnow.
Qed.


(* ================================================================== *)
(** * Further properties: records that stay distinct *)

Section Distinct.
Context {R B : Type} (key : R -> string) (f : R -> B).

Lemma existsb_has_key_false (k : string) (tbl : list R) :
  existsb (Items.has_key key k) tbl = false ->
  ~ In k (map key tbl).
Proof.
  intros H Hin. apply in_map_iff in Hin. destruct Hin as (x & Hk & Hin).
  assert (Hx : existsb (Items.has_key key k) tbl = true).
  { apply existsb_exists. exists x. split; [assumption|].
    unfold Items.has_key. now apply String.eqb_eq. }
  congruence.
Qed.

Lemma put_item_keys (r : R) (tbl : list R) :
  existsb (Items.has_key key (key r)) tbl = true ->
  map key (Items.put_item key r tbl) = map key tbl.
Proof.
  unfold Items.put_item. intros ->. rewrite map_map. apply map_ext.
  intros x. unfold Items.has_key.
  destruct (String.eqb_spec (key x) (key r)); congruence.
Qed.

Lemma put_item_fresh (r : R) (tbl : list R) :
  existsb (Items.has_key key (key r)) tbl = false ->
  Items.put_item key r tbl = (tbl ++ [r])%list.
Proof.
  unfold Items.put_item. now intros ->.
Qed.

Lemma distinct_snoc (g : R -> B) (r : R) (tbl : list R) :
  distinct g tbl -> ~ In (g r) (map g tbl) ->
  distinct g (tbl ++ [r])%list.
Proof.
  unfold distinct. intros Hd Hn. rewrite map_app. cbn.
  apply (Permutation_NoDup (Permutation_cons_append (map g tbl) (g r))).
  now constructor.
Qed.

Lemma put_item_distinct_key (r : R) (tbl : list R) :
  distinct key tbl -> distinct key (Items.put_item key r tbl).
Proof.
  intros Hd. destruct (existsb (Items.has_key key (key r)) tbl) eqn:E.
  - unfold distinct. now rewrite put_item_keys.
  - rewrite put_item_fresh by assumption.
    unfold distinct. rewrite map_app. cbn.
    apply (Permutation_NoDup (Permutation_cons_append (map key tbl) (key r))).
    constructor; [|exact Hd]. now apply existsb_has_key_false.
Qed.

(** A put keeps the records distinct on [f] when no stored record has the
    [f] of the new one. *)
Lemma put_item_distinct (r : R) (tbl : list R) :
  distinct key tbl -> distinct f tbl ->
  ~ In (f r) (map f tbl) ->
  distinct f (Items.put_item key r tbl).
Proof.
  intros Hk Hf Hn.
  destruct (existsb (Items.has_key key (key r)) tbl) eqn:E.
  2: { rewrite put_item_fresh by assumption. now apply distinct_snoc. }
  unfold Items.put_item. rewrite E. clear E.
  unfold distinct in *.
  induction tbl as [|x t IH]; cbn in *; [constructor|].
  apply NoDup_cons_iff in Hk. destruct Hk as [Hkx Hk].
  apply NoDup_cons_iff in Hf. destruct Hf as [Hfx Hf].
  assert (Hnt : ~ In (f r) (map f t)) by tauto.
  specialize (IH Hk Hf Hnt).
  unfold Items.has_key at 1.
  destruct (String.eqb_spec (key x) (key r)) as [Ex|Ex].
  - assert (Hsame : map (fun r' => if Items.has_key key (key r) r'
                                   then r else r') t = t).
    { rewrite <- (map_id t) at 2. apply map_ext_in. intros y Hy.
      unfold Items.has_key.
      destruct (String.eqb_spec (key y) (key r)) as [Ey|]; [|reflexivity].
      exfalso. apply Hkx. rewrite Ex, <- Ey. now apply in_map. }
    rewrite Hsame. now constructor.
  - constructor; [|exact IH].
    intros Hin. apply in_map_iff in Hin. destruct Hin as (y & Hy & Hin).
    apply in_map_iff in Hin. destruct Hin as (z & Hz & Hin).
    destruct (Items.has_key key (key r) z); subst y.
    + apply Hn. now left.
    + apply Hfx. rewrite <- Hy. now apply in_map.
Qed.

Lemma delete_item_distinct (k : string) (tbl : list R) :
  distinct f tbl -> distinct f (Items.delete_item key k tbl).
Proof.
  unfold distinct, Items.delete_item. intros H.
  induction tbl as [|x t IH]; cbn in *; [constructor|].
  apply NoDup_cons_iff in H. destruct H as [Hx H].
  destruct (negb _); cbn; [|now apply IH].
  constructor; [|now apply IH].
  intros Hin. apply Hx. apply in_map_iff in Hin.
  destruct Hin as (y & Hy & Hin). apply filter_In in Hin.
  rewrite <- Hy. apply in_map. tauto.
Qed.

Lemma update_item_distinct (k : string) (upd : R -> R) (tbl : list R) :
  (forall x, f (upd x) = f x) ->
  distinct f tbl -> distinct f (Items.update_item key k upd tbl).
Proof.
  unfold distinct, Items.update_item. intros Hupd H.
  rewrite map_map.
  rewrite (map_ext _ f); [exact H|].
  intros x. destruct (Items.has_key key k x); [apply Hupd | reflexivity].
Qed.

End Distinct.

(* ================================================================== *)
(** * Further properties: the identity store *)

Section IdentityStoreMore.
Variable settings : Settings.
Variable bcrypt : Bcrypt.
Variable token : Type.
Variable jose : Jose token.

(** A registration that went through met no stored user with the email,
    and had a valid role. *)
Lemma register_user_inr_inv (user : UserCreate) (env : Env) (w w1 : World)
    (resp : UserResponse) :
  register_user bcrypt user env w = (inr resp, w1) ->
  (forall u, In u (users_table w) -> User.email u <> uc_email user)
  /\ (uc_user_type user = "owner" \/ uc_user_type user = "customer").
Proof.
  intros Hreg. split.
  - intros u Hin He. revert Hreg. unfold register_user. run.
    assert (Hdup : truthy (Items.scan
                             (fun u => String.eqb (User.email u)
                                                  (uc_email user))
                             (users_table w)) = true).
    { apply (users_with_email_nonempty (uc_email user) w). now exists u. }
    rewrite Hdup. discriminate.
  - revert Hreg. unfold register_user. run.
    destruct (truthy _); cbn; [discriminate|].
    destruct (String.eqb_spec (uc_user_type user) "owner") as [->|_];
      [now left|].
    destruct (String.eqb_spec (uc_user_type user) "customer") as [->|_];
      [now right|].
    cbn. discriminate.
Qed.

(** X3. The role of a registration is compared exactly with ["owner"] and
    ["customer"]: a registration is denied with [InvalidRole] exactly when
    no stored user has the email (that check comes first) and the role is
    neither of the two strings; the world is then unchanged. *)
Theorem register_user_invalid_role (user : UserCreate) (env : Env)
    (w : World) :
  (register_user bcrypt user env w = (inl invalid_user_type, w)
   <-> (forall u, In u (users_table w) -> User.email u <> uc_email user)
       /\ uc_user_type user <> "owner"
       /\ uc_user_type user <> "customer")
  /\ denial_kind invalid_user_type = Some InvalidRole.
Proof.
  split; [|reflexivity].
  unfold register_user. run.
  destruct (truthy (Items.scan _ (users_table w))) eqn:Hscan.
  - cbn. split; [discriminate|]. intros (Hfresh & _).
    apply (users_with_email_nonempty (uc_email user) w) in Hscan.
    destruct Hscan as (u & Hin & He). now destruct (Hfresh u Hin).
  - assert (Hfresh : forall u, In u (users_table w) ->
                               User.email u <> uc_email user).
    { intros u Hin He.
      assert (Hdup : truthy (users_with_email (uc_email user) w) = true)
        by (apply users_with_email_nonempty; now exists u).
      unfold users_with_email in Hdup. unfold Items.scan in Hscan.
      congruence. }
    cbn -[existsb]. cbn [existsb].
    destruct (String.eqb_spec (uc_user_type user) "owner") as [Ho|Ho].
    + cbn. unfold put_item. cbn. split; [discriminate|]. tauto.
    + destruct (String.eqb_spec (uc_user_type user) "customer") as [Hc|Hc].
      * cbn. unfold put_item. cbn. split; [discriminate|]. tauto.
      * cbn. split; [tauto | reflexivity].
Qed.

(** X4. Registrations keep the users distinct by identifier and by email,
    whatever their outcome and even when the fresh identifier is one already
    stored (the put then replaces that user). *)
Theorem register_user_keeps_users_consistent (user : UserCreate) (env : Env)
    (w : World) :
  users_consistent w ->
  users_consistent (snd (register_user bcrypt user env w)).
Proof.
  intros [Hid Hemail]. unfold users_consistent.
  destruct (register_user bcrypt user env w) as [[e|resp] w1] eqn:Hreg.
  - apply register_user_failure_stores_nothing in Hreg. subst w1.
    now split.
  - destruct (register_user_inr_inv _ _ _ _ _ Hreg) as [Hfresh Hrole].
    pose proof (register_user_success bcrypt user env w Hfresh Hrole)
      as Hrun.
    cbn zeta in Hrun. rewrite Hrun in Hreg. injection Hreg as _ <-.
    cbn [snd users_table log with_records users]. split.
    + now apply put_item_distinct_key.
    + apply put_item_distinct; try assumption.
      cbn. intros Hin. apply in_map_iff in Hin.
      destruct Hin as (u & He & Hin). exact (Hfresh u Hin He).
Qed.

(** X6. After a registration that went through, a login with the same
    credentials gives a token with which the [/me] endpoint returns the
    very profile the registration returned. *)
Theorem register_login_me_round_trip (user : UserCreate)
    (env env_login env_me : Env) (w w1 : World) (resp : UserResponse) :
  bcrypt_correct bcrypt ->
  jose_correct jose ->
  register_user bcrypt user env w = (inr resp, w1) ->
  utcnow env_me <= utcnow env_login + seven_days ->
  exists tok,
    login_for_access_token settings bcrypt jose
      {| username := uc_email user; form_password := uc_password user |}
      env_login w1
    = (inr {| access_token := tok; token_type := "bearer" |}, w1)
    /\ Depends_get_current_user settings jose tok env_me read_users_me w1
       = (inr resp, w1).
Proof.
  intros Hbcrypt Hjose Hreg Hnow.
  destruct (register_user_inr_inv _ _ _ _ _ Hreg) as [Hfresh Hrole].
  pose proof (register_user_success bcrypt user env w Hfresh Hrole) as Hrun.
  cbn zeta in Hrun. rewrite Hrun in Hreg. injection Hreg as <- <-.
  set (new_user :=
         {| User.user_id := uuid4 env 0%nat;
            User.email := uc_email user;
            User.full_name := uc_full_name user;
            User.password := hashpw bcrypt (uc_password user) (gensalt env);
            User.user_type := uc_user_type user;
            User.created_at := utcnow env;
            User.updated_at := utcnow env |}) in *.
  set (w1 := log _ _).
  assert (Htable : users_table w1
                   = Items.put_item User.user_id new_user (users_table w))
    by reflexivity.
  assert (Hfirst : exists others,
             users_with_email (uc_email user) w1 = new_user :: others).
  { unfold users_with_email. rewrite Htable.
    assert (Hall : forall u,
               In u (filter (fun u => String.eqb (User.email u)
                                                 (uc_email user))
                            (Items.put_item User.user_id new_user
                                            (users_table w))) ->
               u = new_user).
    { intros u Hin. apply filter_In in Hin. destruct Hin as [Hin He].
      apply In_put_item_inv in Hin.
      destruct Hin as [->|Hin]; [reflexivity|].
      apply String.eqb_eq in He. now destruct (Hfresh u Hin). }
    assert (Hnew : In new_user
                      (filter (fun u => String.eqb (User.email u)
                                                   (uc_email user))
                              (Items.put_item User.user_id new_user
                                              (users_table w)))).
    { apply filter_In. split; [apply In_put_item|]. cbn.
      apply String.eqb_refl. }
    destruct (filter _ _) as [|u others]; [contradiction|].
    exists others. f_equal. apply Hall. now left. }
  destruct Hfirst as [others Hfirst].
  eexists. split.
  - apply (login_for_access_token_success settings bcrypt token jose
             {| username := uc_email user;
                form_password := uc_password user |}
             env_login w1 new_user others Hfirst).
    apply Hbcrypt.
  - unfold Depends_get_current_user, get_current_user. unfold bind at 1.
    rewrite Hjose by exact Hnow. cbn [sub User.user_id new_user]. run.
    rewrite Htable.
    pose proof (get_item_put_item User.user_id new_user (users_table w))
      as Hget.
    change (User.user_id new_user) with (uuid4 env 0%nat) in Hget.
    rewrite Hget. reflexivity.
Qed.

End IdentityStoreMore.

Lemma register_user_keeps_users_consistent_witness :
  users_consistent
    (snd (register_user Demo.bcrypt Demo.dave Demo.env Demo.world)).
Proof.
  apply (register_user_keeps_users_consistent Demo.bcrypt Demo.dave Demo.env
           Demo.world).
  split; unfold distinct; cbn;
    repeat (constructor; [cbn; intuition discriminate|]); constructor.
Defined.

Lemma register_login_me_round_trip_witness :
  exists tok,
    login_for_access_token Demo.settings Demo.bcrypt Demo.jose
      {| username := "dave@example.com"; form_password := "durian" |}
      Demo.env
      (snd (register_user Demo.bcrypt Demo.dave Demo.env Demo.world))
    = (inr {| access_token := tok; token_type := "bearer" |},
       snd (register_user Demo.bcrypt Demo.dave Demo.env Demo.world))
    /\ Depends_get_current_user Demo.settings Demo.jose tok Demo.env
         read_users_me
         (snd (register_user Demo.bcrypt Demo.dave Demo.env Demo.world))
       = (inr (Build_UserResponse "uuid-0" "dave@example.com" "Dave"
                                  "customer" 1700000000),
          snd (register_user Demo.bcrypt Demo.dave Demo.env Demo.world)).
Proof.
  apply (register_login_me_round_trip Demo.settings Demo.bcrypt _ Demo.jose
           Demo.dave Demo.env Demo.env Demo.env Demo.world
           (snd (register_user Demo.bcrypt Demo.dave Demo.env Demo.world))
           (Build_UserResponse "uuid-0" "dave@example.com" "Dave"
                               "customer" 1700000000)
           Demo_bcrypt_correct Demo_jose_correct eq_refl).
  cbn. lia.
Defined.

(* ================================================================== *)
(** * Further properties: the upload of a file *)

Section Upload.
Variable settings : Settings.

Lemma append_assoc (a b c : string) : ((a ++ b) ++ c = a ++ (b ++ c))%string.
Proof.
  induction a as [|x a IH]; cbn; [reflexivity | now rewrite IH].
Qed.

Lemma has_dot_append (a b : string) :
  has_dot (a ++ b) = has_dot a || has_dot b.
Proof.
  induction a as [|x a IH]; cbn; [reflexivity|].
  rewrite IH. now rewrite orb_assoc.
Qed.

Lemma split_dot_last_aux_no_dot (s acc : string) :
  has_dot acc = false -> has_dot (split_dot_last_aux s acc) = false.
Proof.
  revert acc. induction s as [|c s IH]; intros acc Hacc; cbn.
  - exact Hacc.
  - destruct (Ascii.eqb c ".") eqn:E.
    + now apply IH.
    + apply IH. rewrite has_dot_append, Hacc. cbn. now rewrite E.
Qed.

Lemma split_dot_last_aux_plain (s acc : string) :
  has_dot s = false -> split_dot_last_aux s acc = acc ++ s.
Proof.
  revert acc. induction s as [|c s IH]; intros acc Hs; cbn in *.
  - induction acc as [|x acc IHa]; cbn; [reflexivity | now rewrite <- IHa].
  - apply orb_false_iff in Hs. destruct Hs as [Hc Hs]. rewrite Hc.
    rewrite IH by assumption. now rewrite append_assoc.
Qed.

Lemma split_dot_last_aux_suffix (base ext acc : string) :
  has_dot ext = false ->
  split_dot_last_aux (base ++ "." ++ ext) acc = ext.
Proof.
  intros Hext. revert acc. induction base as [|c base IH]; intros acc; cbn.
  - now rewrite split_dot_last_aux_plain.
  - destruct (Ascii.eqb c "."); apply IH.
Qed.

(** X7. [upload_file_to_s3] always returns: it puts one object, with the
    contents and the content type of the file, at the end of the bucket and
    touches no table; the URL it returns is the bucket's address followed by
    the key of that object; the key is the prefix, a slash, the fresh
    identifier, a dot and an extension without dot, which is what follows
    the last dot of the file name, and the whole file name when it has no
    dot. *)
Theorem upload_file_to_s3_stores_file (file : UploadFile)
    (prefix uuid : string) (w : World) :
  exists ext w',
    upload_file_to_s3 settings file prefix uuid w
    = (inr (s3_url settings (prefix ++ "/" ++ uuid ++ "." ++ ext)), w')
    /\ s3_bucket w'
       = (s3_bucket w
          ++ [{| Bucket := S3_BUCKET_NAME settings;
                 Key := prefix ++ "/" ++ uuid ++ "." ++ ext;
                 Body := contents file;
                 ContentType := content_type file |}])%list
    /\ writes w'
       = (writes w ++ [PutObject (prefix ++ "/" ++ uuid ++ "." ++ ext)])%list
    /\ users_table w' = users_table w
    /\ stalls_table w' = stalls_table w
    /\ menu_items_table w' = menu_items_table w
    /\ reviews_table w' = reviews_table w
    /\ has_dot ext = false
    /\ (has_dot (filename file) = false -> ext = filename file)
    /\ (forall base last,
          filename file = base ++ "." ++ last -> has_dot last = false ->
          ext = last).
Proof.
  exists (split_dot_last (filename file)). eexists.
  split; [apply upload_file_to_s3_run|].
  repeat apply conj; try reflexivity.
  - now apply split_dot_last_aux_no_dot.
  - intros H. unfold split_dot_last. now rewrite split_dot_last_aux_plain.
  - intros base last -> H. now apply split_dot_last_aux_suffix.
Qed.

End Upload.

(* ================================================================== *)
(** * Further properties: the stall directory *)

Section StallDirectory.
Variable settings : Settings.

Lemma get_item_update_item_other {R : Type} (key : R -> string)
    (k k' : string) (upd : R -> R) (tbl : list R) :
  k <> k' ->
  keeps key upd ->
  Items.get_item key k (Items.update_item key k' upd tbl)
  = Items.get_item key k tbl.
Proof.
  intros Hne Hupd. unfold Items.get_item, Items.update_item, Items.has_key.
  induction tbl as [|x tbl IH]; [reflexivity|]. cbn.
  destruct (String.eqb_spec (key x) k') as [Ex|Ex].
  - rewrite Hupd.
    destruct (String.eqb_spec (key x) k) as [Ek|Ek]; [congruence|].
    exact IH.
  - destruct (String.eqb (key x) k); [reflexivity | exact IH].
Qed.

(** The upload of the image of a request changes no table. *)
Lemma after_upload_tables (image : option UploadFile)
    (prefix uuid : string) (w : World) :
  same_tables w (after_upload settings image prefix uuid w).
Proof.
  destruct image; repeat split.
Qed.

(** [update_stall] by the owner of the stall, step by step: the upload of
    the image, if any, and then the answer of the table. *)
Lemma update_stall_run (sid : string) (name description : option string)
    (latitude longitude : option float) (address : option string)
    (image : option UploadFile) (env : Env) (actor : User.t) (w : World)
    (s : Stall.t) :
  Items.get_item Stall.stall_id sid (stalls_table w) = Some s ->
  Stall.owner_id s = User.user_id actor ->
  existsb is_float (item_numbers stalls s) = false ->
  let prefix := "stalls/" ++ User.user_id actor in
  let w_up := after_upload settings image prefix (uuid4 env 0%nat) w in
  let update_expression :=
    (stall_update_expression s name description latitude longitude address
                             (utcnow env)
     ++ match image with
        | Some file =>
            [SET "image_url" []
                 (Stall_set_image_url
                    (s3_url settings
                            (s3_key file prefix (uuid4 env 0%nat))))]
        | None => []
        end)%list in
  let location_sent :=
    any [truthy latitude; truthy longitude; truthy address] in
  update_stall settings sid name description latitude longitude address
               image env actor w
  = if location_sent
       && match latitude, longitude with
          | None, None => false
          | _, _ => true
          end
    then (inl float_not_supported, w_up)
    else if truthy name && location_sent
    then
      let tbl :=
        Items.update_item Stall.stall_id sid
                          (apply_update update_expression)
                          (stalls_table w) in
      (inr (Items.get_item Stall.stall_id sid tbl),
       log (UpdateItem Stalls sid) (with_records stalls tbl w_up))
    else (inl validation_exception, w_up).
Proof.
  intros Hs Hown Hstored prefix w_up update_expression location_sent.
  subst prefix w_up update_expression location_sent.
  unfold update_stall. run.
  rewrite Hs. cbv beta iota zeta.
  rewrite Hown, String.eqb_refl. cbn [negb]. cbv beta iota zeta.
  destruct image as [file|].
  - rewrite upload_file_to_s3_run. cbv beta iota zeta.
    rewrite (update_stall_sends sid s name description latitude longitude
               address (utcnow env) [SET "image_url" [] _])
      by (try (right; eexists; reflexivity); exact Hstored).
    cbv zeta. unfold after_upload. rewrite upload_file_to_s3_run.
    cbn [snd stalls_table log].
    destruct (_ && _); [reflexivity|].
    destruct (_ && _); reflexivity.
  - cbv beta iota zeta.
    pose proof (update_stall_sends sid s name description latitude longitude
                  address (utcnow env) [] w (or_introl eq_refl) Hstored)
      as Hsend.
    cbv zeta in Hsend. rewrite app_nil_r in *. rewrite Hsend.
    unfold after_upload.
    destruct (_ && _); [reflexivity|].
    destruct (_ && _); reflexivity.
Qed.

(** X8. [create_stall] never stores a stall.  For any request it uploads
    the image and then raises: the stall it builds holds the latitude and
    the longitude of the form as Python floats, which the table refuses.
    The uploaded object stays in the bucket and the tables are untouched,
    so that [get_stall] answers as before. *)
Theorem create_stall_is_refused (name description : string)
    (latitude longitude : float) (address : string) (image : UploadFile)
    (env : Env) (actor reader : User.t) (w : World) :
  let key := s3_key image ("stalls/" ++ User.user_id actor)
                    (uuid4 env 0%nat) in
  exists w',
    create_stall settings name description latitude longitude address image
                 env actor w = (inl float_not_supported, w')
    /\ s3_bucket w'
       = (s3_bucket w
          ++ [{| Bucket := S3_BUCKET_NAME settings;
                 Key := key;
                 Body := contents image;
                 ContentType := content_type image |}])%list
    /\ writes w' = (writes w ++ [PutObject key])%list
    /\ same_tables w w'
    /\ (forall sid,
           fst (get_stall sid reader w') = fst (get_stall sid reader w)).
Proof.
  intros key. eexists. split.
  { unfold create_stall. unfold bind at 1. rewrite upload_file_to_s3_run.
    unfold put_item. run. reflexivity. }
  unfold same_tables. repeat apply conj; try reflexivity.
  intros sid. unfold get_stall. run. cbn [stalls_table log].
  now destruct (Items.get_item Stall.stall_id sid (stalls_table w)).
Qed.

(** X9. An update of a stall by its owner, the stored stall holding its
    numbers as the table returns them.  It is refused by the serializer
    when a location is sent that holds a supplied latitude or longitude;
    it is refused by DynamoDB when it sends no location or no name, for
    the call always names both; it goes through exactly when a name and an
    address that are not empty are supplied, and no latitude and no
    longitude.  A refused update leaves the tables as they were, the image
    uploaded.  An update that goes through returns the stored stall: the
    name and the address are the supplied ones; the identifier, the owner,
    the creation time, the latitude and the longitude are kept; the
    description changes only to a supplied one that is not empty, the
    image URL only to the URL of a supplied image; the other stalls and
    tables are untouched. *)
Theorem update_stall_outcomes (sid : string)
    (name description : option string) (latitude longitude : option float)
    (address : option string) (image : option UploadFile) (env : Env)
    (actor : User.t) (w : World) (s : Stall.t) :
  Items.get_item Stall.stall_id sid (stalls_table w) = Some s ->
  Stall.owner_id s = User.user_id actor ->
  existsb is_float (item_numbers stalls s) = false ->
  let w_up :=
    after_upload settings image ("stalls/" ++ User.user_id actor)
                 (uuid4 env 0%nat) w in
  let location_sent :=
    any [truthy latitude; truthy longitude; truthy address] in
  let run :=
    update_stall settings sid name description latitude longitude address
                 image env actor w in
  same_tables w w_up
  /\ (location_sent = true ->
      latitude <> None \/ longitude <> None ->
      run = (inl float_not_supported, w_up))
  /\ (location_sent = false
      \/ (latitude = None /\ longitude = None /\ truthy name = false) ->
      run = (inl validation_exception, w_up))
  /\ (truthy name = true ->
      latitude = None -> longitude = None -> truthy address = true ->
      exists s' w',
        run = (inr (Some s'), w')
        /\ Items.get_item Stall.stall_id sid (stalls_table w') = Some s'
        /\ Some (Stall.name s') = name
        /\ Some (Location.address (Stall.location s')) = address
        /\ Location.latitude (Stall.location s')
           = Location.latitude (Stall.location s)
        /\ Location.longitude (Stall.location s')
           = Location.longitude (Stall.location s)
        /\ Stall.stall_id s' = Stall.stall_id s
        /\ Stall.owner_id s' = Stall.owner_id s
        /\ Stall.created_at s' = Stall.created_at s
        /\ Stall.updated_at s' = utcnow env
        /\ Stall.description s'
           = match description with
             | Some (String c d) => String c d
             | _ => Stall.description s
             end
        /\ Stall.image_url s'
           = match image with
             | Some file =>
                 s3_url settings
                        (s3_key file ("stalls/" ++ User.user_id actor)
                                (uuid4 env 0%nat))
             | None => Stall.image_url s
             end
        /\ (forall k, k <> sid ->
                      Items.get_item Stall.stall_id k (stalls_table w')
                      = Items.get_item Stall.stall_id k (stalls_table w))
        /\ users_table w' = users_table w
        /\ menu_items_table w' = menu_items_table w
        /\ reviews_table w' = reviews_table w
        /\ writes w' = (writes w_up ++ [UpdateItem Stalls sid])%list).
Proof.
  intros Hs Hown Hstored w_up location_sent run.
  pose proof (update_stall_run sid name description latitude longitude
                address image env actor w s Hs Hown Hstored) as Hrun.
  cbv zeta in Hrun. fold w_up location_sent run in Hrun.
  split; [apply after_upload_tables|]. split; [|split].
  - intros Hsent Hnum. rewrite Hrun, Hsent.
    destruct latitude, longitude; try reflexivity.
    destruct Hnum as [H|H]; now destruct H.
  - intros [Hsent|(-> & -> & Hname)]; rewrite Hrun.
    + rewrite Hsent, andb_false_r. reflexivity.
    + rewrite Hname, andb_false_r. reflexivity.
  - intros Hname -> -> Haddr. rewrite Hrun.
    destruct name as [[|c n]|]; try discriminate.
    destruct address as [[|c' a]|]; try discriminate.
    subst location_sent. unfold any.
    cbn [existsb truthy truthy_optional truthy_str orb andb].
    cbv beta iota zeta.
    match goal with
    | |- context [Items.update_item Stall.stall_id sid ?u _] =>
        set (upd := u)
    end.
    assert (Hid : keeps Stall.stall_id upd).
    { subst upd. intros x. unfold stall_update_expression, set_if_truthy.
      destruct description as [[|c'' d]|], image as [file|]; reflexivity. }
    rewrite (update_item_found Stall.stall_id sid upd _ s Hs (Hid s)).
    do 2 eexists. split; [reflexivity|].
    cbn [stalls_table users_table menu_items_table reviews_table writes log
         with_records stalls].
    destruct (after_upload_tables image
                ("stalls/" ++ User.user_id actor) (uuid4 env 0%nat) w)
      as (Hu & _ & Hm & Hr).
    fold w_up in Hu, Hm, Hr.
    repeat apply conj; try assumption; try reflexivity;
      try (subst upd; unfold stall_update_expression, set_if_truthy;
           destruct description as [[|c'' d]|], image as [file|];
           reflexivity).
    + apply update_item_found; [exact Hs | apply Hid].
    + intros k Hk. now apply get_item_update_item_other.
Qed.

(** X10. After its owner has deleted a stall, the endpoints that address
    it answer [NotFound]: the listings of its menu items and of its reviews
    raise instead of returning an empty list, and so do the creation of a
    menu item or of a review, an update and a second delete. *)
Theorem deleted_stall_is_not_found (sid : string) (actor other : User.t)
    (w : World) (s : Stall.t) :
  Items.get_item Stall.stall_id sid (stalls_table w) = Some s ->
  Stall.owner_id s = User.user_id actor ->
  exists w',
    delete_stall sid actor w = (inr tt, w')
    /\ (forall category,
           get_menu_items sid category other w' = (inl stall_not_found, w'))
    /\ get_reviews sid other w' = (inl stall_not_found, w')
    /\ (forall name price description category image env,
           create_menu_item settings sid name price description category
                            image env other w' = (inl stall_not_found, w'))
    /\ (forall review env,
           create_review sid review env other w'
           = (inl stall_not_found, w'))
    /\ (forall name description latitude longitude address image env,
           update_stall settings sid name description latitude longitude
                        address image env other w'
           = (inl stall_not_found, w'))
    /\ delete_stall sid other w' = (inl stall_not_found, w')
    /\ denial_kind stall_not_found = Some NotFound.
Proof.
  intros Hs Hown.
  assert (Hrun : exists w',
             delete_stall sid actor w = (inr tt, w')
             /\ stalls_table w'
                = Items.delete_item Stall.stall_id sid (stalls_table w)).
  { unfold delete_stall. run. rewrite Hs. cbn iota.
    rewrite Hown, String.eqb_refl. cbn [negb]. cbn iota.
    unfold delete_item at 1.
    cbn [key_of records table_name stalls menu_items_table log
         with_records].
    rewrite for_each_delete_menu_items.
    cbn [reviews_table]. rewrite for_each_delete_reviews.
    eexists. split; reflexivity. }
  destruct Hrun as (w' & Hrun & Htable). exists w'.
  assert (Hgone : Items.get_item Stall.stall_id sid (stalls_table w') = None)
    by (rewrite Htable; apply get_item_delete_item).
  split; [exact Hrun|].
  repeat apply conj; try reflexivity; intros;
    unfold get_menu_items, get_reviews, create_menu_item, create_review,
      update_stall, delete_stall; run; now rewrite Hgone.
Qed.

End StallDirectory.

Lemma update_stall_outcomes_witness :
  update_stall Demo.settings "stall-a" (Some "") (Some "Adobo, sinigang")
               None None None None Demo.env Demo.alice Demo.world
  = (inl validation_exception, Demo.world)
  /\ update_stall Demo.settings "stall-a" (Some "Adobo Corner") None
                  (Some 14.5%float) None (Some "Taft Avenue") None Demo.env
                  Demo.alice Demo.world
     = (inl float_not_supported, Demo.world)
  /\ exists s' w',
       update_stall Demo.settings "stall-a" (Some "Adobo Republic") None
                    None None (Some "Pedro Gil") None Demo.env Demo.alice
                    Demo.world
       = (inr (Some s'), w')
       /\ Stall.name s' = "Adobo Republic"
       /\ Stall.location s'
          = {| Location.latitude := Decimal 14.5%float;
               Location.longitude := Decimal 121%float;
               Location.address := "Pedro Gil" |}
       /\ Items.get_item Stall.stall_id "stall-b" (stalls_table w')
          = Some Demo.stall_b.
Proof.
  split; [|split].
  - apply (update_stall_outcomes Demo.settings "stall-a" (Some "")
             (Some "Adobo, sinigang") None None None None Demo.env
             Demo.alice Demo.world Demo.stall_a eq_refl eq_refl eq_refl).
    now left.
  - apply (update_stall_outcomes Demo.settings "stall-a"
             (Some "Adobo Corner") None (Some 14.5%float) None
             (Some "Taft Avenue") None Demo.env Demo.alice Demo.world
             Demo.stall_a eq_refl eq_refl eq_refl).
    + reflexivity.
    + left. discriminate.
  - destruct (update_stall_outcomes Demo.settings "stall-a"
                (Some "Adobo Republic") None None None (Some "Pedro Gil")
                None Demo.env Demo.alice Demo.world Demo.stall_a eq_refl
                eq_refl eq_refl)
      as (_ & _ & _ & Hok).
    destruct (Hok eq_refl eq_refl eq_refl eq_refl)
      as (s' & w' & Hrun & _ & Hname & Haddr & Hlat & Hlon & _ & _ & _ & _
          & _ & _ & Hother & _).
    exists s', w'. split; [exact Hrun|].
    injection Hname as Hname. injection Haddr as Haddr.
    split; [exact Hname|]. split.
    + destruct s' as [? ? ? ? [lat lon addr] ? ? ?]. cbn in *. congruence.
    + rewrite Hother; [reflexivity | discriminate].
Defined.

Lemma deleted_stall_is_not_found_witness :
  exists w',
    delete_stall "stall-a" Demo.alice Demo.world = (inr tt, w')
    /\ get_menu_items "stall-a" None Demo.carol w'
       = (inl stall_not_found, w')
    /\ get_reviews "stall-a" Demo.carol w' = (inl stall_not_found, w').
Proof.
  destruct (deleted_stall_is_not_found Demo.settings "stall-a" Demo.alice
              Demo.carol Demo.world Demo.stall_a eq_refl eq_refl)
    as (w' & Hrun & Hmenu & Hreviews & _).
  exists w'. split; [exact Hrun|]. split; [apply Hmenu | exact Hreviews].
Defined.

(* ================================================================== *)
(** * Further properties: the distances of a listing *)

Section ListingMore.
Variable libm : Libm.

Lemma SFcompare_refl (x : spec_float) :
  x <> S754_nan -> SFcompare x x = Some Eq.
Proof.
  destruct x as [s|s| |s m e]; cbn; intros H; try reflexivity.
  - now destruct s.
  - now destruct H.
  - destruct s; rewrite Z.compare_refl, Pos.compare_cont_refl; reflexivity.
Qed.

(** A float that is at most some float is a number. *)
Lemma float_leb_not_nan (d r : float) :
  (d <=? r)%float = true -> is_nan d = false /\ is_nan r = false.
Proof.
  unfold is_nan. rewrite leb_spec, !eqb_spec. unfold SFleb, SFeqb.
  intros H.
  assert (Hd : Prim2SF d <> S754_nan).
  { intros E. rewrite E in H. discriminate. }
  assert (Hr : Prim2SF r <> S754_nan).
  { intros E. rewrite E in H. destruct (Prim2SF d); cbn in H; discriminate. }
  now rewrite !SFcompare_refl.
Qed.

(** What [get_stalls] returns when every distance is computed. *)
Lemma get_stalls_run (latitude longitude : float) (radius : option float)
    (actor : User.t) (w : World) (measured : list (Stall.t * float)) :
  measured_stalls libm (latitude, longitude) w = inr measured ->
  get_stalls libm (Some latitude) (Some longitude) radius actor w
  = (inr (map annotated
              (Py.sort snd
                 (filter (fun sd =>
                            (snd sd <=? if_not_None radius default_radius)
                              %float)
                         measured))), w).
Proof.
  unfold measured_stalls, get_stalls. run. unfold Items.scan.
  rewrite filter_true. intros ->. reflexivity.
Qed.

(** X11. Every entry of a listing around a centre is a stored stall with a
    distance that is a number (never [nan]) and is at most the radius; the
    listing is no longer than the table; and when the radius itself is
    [nan] the listing is empty. *)
Theorem get_stalls_listed_distances (latitude longitude : float)
    (radius : option float) (actor : User.t) (w : World)
    (measured : list (Stall.t * float)) :
  measured_stalls libm (latitude, longitude) w = inr measured ->
  exists listing,
    get_stalls libm (Some latitude) (Some longitude) radius actor w
    = (inr listing, w)
    /\ (forall entry,
           In entry listing ->
           In (stall entry) (stalls_table w)
           /\ exists d,
                distance entry = Some d
                /\ (d <=? if_not_None radius 5)%float = true
                /\ is_nan d = false)
    /\ (length listing <= length (stalls_table w))%nat
    /\ (is_nan (if_not_None radius 5%float) = true -> listing = []).
Proof.
  intros Hm. eexists.
  split; [exact (get_stalls_run _ _ radius actor _ _ Hm)|].
  destruct (measured_stalls_spec libm _ _ _ Hm) as [Hfst _].
  set (r := if_not_None radius default_radius).
  set (within := filter (fun sd => (snd sd <=? r)%float) measured).
  repeat apply conj.
  - intros entry Hin. apply in_map_iff in Hin.
    destruct Hin as (sd & <- & Hin).
    apply (Permutation_in _ (sort_Permutation snd within)) in Hin.
    apply filter_In in Hin. destruct Hin as [Hin Hle]. cbn. split.
    + rewrite <- Hfst. now apply in_map.
    + exists (snd sd). repeat split; [exact Hle|].
      now destruct (float_leb_not_nan _ _ Hle).
  - rewrite length_map.
    rewrite (Permutation_length (sort_Permutation snd within)).
    rewrite <- Hfst, length_map. apply filter_length_le.
  - intros Hnan.
    assert (Hempty : forall l : list (Stall.t * float),
               filter (fun sd => (snd sd <=? r)%float) l = []).
    { induction l as [|sd l IH]; [reflexivity|]. cbn.
      destruct (snd sd <=? r)%float eqn:E; [|exact IH].
      destruct (float_leb_not_nan _ _ E) as [_ Hr].
      unfold r, default_radius in Hr. congruence. }
    subst within.
    now rewrite Hempty.
Qed.

End ListingMore.

Lemma get_stalls_listed_distances_witness :
  exists listing,
    get_stalls Demo.libm (Some 14.53125%float) (Some 121%float)
               (Some 1%float) Demo.carol Demo.world
    = (inr listing, Demo.world)
    /\ (length listing <= 2)%nat.
Proof.
  destruct (get_stalls_listed_distances Demo.libm 14.53125%float 121%float
              (Some 1%float) Demo.carol Demo.world
              [(Demo.stall_a, Demo.distance_a); (Demo.stall_b, 0%float)]
              eq_refl) as (listing & Hrun & _ & Hlen & _).
  exists listing. split; [exact Hrun | exact Hlen].
Defined.

(* ================================================================== *)
(** * Further properties: what the endpoints leave alone *)

Section Untouched.
Variable settings : Settings.
Variable bcrypt : Bcrypt.
Variable token : Type.
Variable jose : Jose token.
Variable libm : Libm.

(** One step of a handler towards a raise, with what it has written. *)
Ltac step :=
  cbv beta iota zeta;
  first
    [ discriminate
    | intros [= <- <-]; unfold raised_before_storing, same_tables;
      cbn [users_table stalls_table menu_items_table reviews_table log];
      repeat apply conj; try reflexivity;
      first [ intros []
            | left; exact I
            | right; left; reflexivity
            | right; right; reflexivity ]
    | rewrite upload_file_to_s3_run
    | match goal with
      | |- context [Items.get_item ?key ?k ?tbl] =>
          destruct (Items.get_item key k tbl)
      | |- context [negb ?b] => destruct (negb b)
      | |- context [if String.eqb ?a ?b then _ else _] =>
          destruct (String.eqb a b)
      | |- context [truthy ?l] => destruct (truthy l)
      | |- context [rating_invalid ?r] => destruct (rating_invalid r)
      | |- context [match ?o with Some _ => _ | None => _ end] =>
          destruct o
      | |- context [if ?b then _ else _] => destruct b
      end ].

(** X12. The reading endpoints and the guards never write: whatever they
    are given and whether they return or raise, the tables, the bucket and
    the log of writes are as before. *)
Theorem reads_leave_the_world (w : World) :
  (forall tok env, snd (get_current_user settings jose tok env w) = w)
  /\ (forall user, snd (get_current_owner user w) = w)
  /\ (forall form_data env,
        snd (login_for_access_token settings bcrypt jose form_data env w)
        = w)
  /\ (forall user, snd (read_users_me user w) = w)
  /\ (forall latitude longitude radius user,
        snd (get_stalls libm latitude longitude radius user w) = w)
  /\ (forall sid user, snd (get_stall sid user w) = w)
  /\ (forall sid category user, snd (get_menu_items sid category user w) = w)
  /\ (forall sid user, snd (get_reviews sid user w) = w).
Proof.
  repeat apply conj.
  - intros tok env. unfold get_current_user.
    destruct (jwt_decode jose tok _ _ _) as [payload|]; [|reflexivity].
    destruct (sub payload); [|reflexivity]. run.
    now destruct (Items.get_item _ _ _).
  - intros user. run. now destruct (negb _).
  - intros form_data env. unfold login_for_access_token. run.
    destruct (Items.scan _ _) as [|u l]; [reflexivity|]. cbn.
    now destruct (checkpw _ _ _).
  - reflexivity.
  - intros latitude longitude radius user. unfold get_stalls. run.
    destruct latitude, longitude; try reflexivity.
    now destruct (traverse _ _).
  - intros sid user. unfold get_stall. run.
    now destruct (Items.get_item _ _ _).
  - intros sid category user. unfold get_menu_items. run.
    destruct (Items.get_item _ _ _); [|reflexivity].
    now destruct (truthy category).
  - intros sid user. unfold get_reviews. run.
    now destruct (Items.get_item _ _ _).
Qed.


End Untouched.

(* ================================================================== *)
(** * Further properties: the menu catalog *)

Section MenuCatalog.
Variable settings : Settings.

Lemma filter_nil_of_false {R : Type} (p : R -> bool) (l : list R) :
  (forall x, In x l -> p x = false) -> filter p l = [].
Proof.
  intros H. induction l as [|x l IH]; [reflexivity|]. cbn.
  rewrite (H x (or_introl eq_refl)). apply IH. intros y Hy. apply H.
  now right.
Qed.

Lemma get_item_None_existsb {R : Type} (key : R -> string) (k : string)
    (tbl : list R) :
  Items.get_item key k tbl = None ->
  existsb (Items.has_key key k) tbl = false.
Proof.
  unfold Items.get_item. intros H.
  induction tbl as [|x tbl IH]; [reflexivity|]. cbn in *.
  destruct (Items.has_key key k x); [discriminate | now apply IH].
Qed.

Lemma get_item_delete_item_other {R : Type} (key : R -> string)
    (k k' : string) (tbl : list R) :
  k <> k' ->
  Items.get_item key k (Items.delete_item key k' tbl)
  = Items.get_item key k tbl.
Proof.
  intros Hne. unfold Items.get_item, Items.delete_item, Items.has_key.
  induction tbl as [|x tbl IH]; [reflexivity|]. cbn.
  destruct (String.eqb_spec (key x) k') as [Ex|Ex]; cbn.
  - destruct (String.eqb_spec (key x) k) as [Ek|Ek]; [congruence|].
    exact IH.
  - destruct (String.eqb (key x) k); [reflexivity | exact IH].
Qed.

(** X14. [create_menu_item] never stores an item.  For the owner of the
    stall it uploads the image and then raises: the item it builds holds
    the price of the form as a Python float, which the table refuses.  The
    uploaded object stays in the bucket and the tables are untouched, so
    that every listing of a menu answers as before. *)
Theorem create_menu_item_is_refused (sid name : string) (price : float)
    (description category : string) (image : UploadFile) (env : Env)
    (actor reader : User.t) (w : World) (s : Stall.t) :
  Items.get_item Stall.stall_id sid (stalls_table w) = Some s ->
  Stall.owner_id s = User.user_id actor ->
  let key := s3_key image ("menu_items/" ++ sid) (uuid4 env 0%nat) in
  exists w',
    create_menu_item settings sid name price description category image env
                     actor w = (inl float_not_supported, w')
    /\ s3_bucket w'
       = (s3_bucket w
          ++ [{| Bucket := S3_BUCKET_NAME settings;
                 Key := key;
                 Body := contents image;
                 ContentType := content_type image |}])%list
    /\ writes w' = (writes w ++ [PutObject key])%list
    /\ same_tables w w'
    /\ (forall sid' filter_,
          fst (get_menu_items sid' filter_ reader w')
          = fst (get_menu_items sid' filter_ reader w)).
Proof.
  intros Hs Hown key. eexists. split.
  { unfold create_menu_item. run. rewrite Hs. cbv beta iota zeta.
    rewrite Hown, String.eqb_refl. cbn [negb]. cbv beta iota zeta.
    rewrite upload_file_to_s3_run. cbv beta iota zeta.
    unfold put_item. cbv beta iota zeta.
    cbn [item_numbers menu_items MenuItem.price existsb is_float orb].
    reflexivity. }
  unfold same_tables. repeat apply conj; try reflexivity.
  intros sid' filter_. unfold get_menu_items. run.
  cbn [stalls_table menu_items_table log].
  destruct (Items.get_item Stall.stall_id sid' (stalls_table w));
    [|reflexivity].
  now destruct (truthy filter_).
Qed.

(** X15. For the owner of the addressed stall and a stored menu item:
    when the item belongs to another stall, its update and its delete are
    denied with [Mismatch] and the world is unchanged; when it belongs to
    the stall, the delete goes through, the item is gone, the items under
    other identifiers are as before, and the one write is the delete. *)
Theorem delete_menu_item_outcomes (sid iid : string) (actor : User.t)
    (w : World) (s : Stall.t) (item : MenuItem.t) :
  Items.get_item Stall.stall_id sid (stalls_table w) = Some s ->
  Stall.owner_id s = User.user_id actor ->
  Items.get_item MenuItem.item_id iid (menu_items_table w) = Some item ->
  (MenuItem.stall_id item <> sid ->
   delete_menu_item sid iid actor w = (inl menu_item_of_other_stall, w)
   /\ (forall name price description category image env,
          update_menu_item settings sid iid name price description category
                           image env actor w
          = (inl menu_item_of_other_stall, w))
   /\ denial_kind menu_item_of_other_stall = Some Mismatch)
  /\ (MenuItem.stall_id item = sid ->
      exists w',
        delete_menu_item sid iid actor w = (inr tt, w')
        /\ Items.get_item MenuItem.item_id iid (menu_items_table w') = None
        /\ (forall k, k <> iid ->
                      Items.get_item MenuItem.item_id k (menu_items_table w')
                      = Items.get_item MenuItem.item_id k
                                       (menu_items_table w))
        /\ writes w' = (writes w ++ [DeleteItem MenuItems iid])%list
        /\ stalls_table w' = stalls_table w
        /\ reviews_table w' = reviews_table w
        /\ users_table w' = users_table w).
Proof.
  intros Hs Hown Hitem. split.
  - intros Hne. apply String.eqb_neq in Hne.
    repeat apply conj; try reflexivity; intros;
      unfold delete_menu_item, update_menu_item; run;
      rewrite Hs; cbv beta iota zeta;
      rewrite Hown, String.eqb_refl; cbn [negb]; cbv beta iota zeta;
      rewrite Hitem; cbv beta iota zeta; now rewrite Hne.
  - intros He. eexists. split.
    { unfold delete_menu_item. run. rewrite Hs. cbv beta iota zeta.
      rewrite Hown, String.eqb_refl. cbn [negb]. cbv beta iota zeta.
      rewrite Hitem. cbv beta iota zeta.
      rewrite He, String.eqb_refl. cbn [negb]. cbv beta iota zeta.
      unfold delete_item. reflexivity. }
    cbn [menu_items_table stalls_table reviews_table users_table writes log
         with_records menu_items key_of records table_name].
    repeat apply conj; try reflexivity.
    + apply get_item_delete_item.
    + intros k Hk. now apply get_item_delete_item_other.
Qed.

(** X16. The delete of a category by the owner of the stall goes through:
    no item of the stall in that category is left, the items kept are those
    whose identifier is not the one of a deleted item, and the writes are
    the deletes of the matching items in scan order (none when nothing
    matches). *)
Theorem delete_menu_items_by_category_clears (sid category : string)
    (actor : User.t) (w : World) (s : Stall.t) :
  Items.get_item Stall.stall_id sid (stalls_table w) = Some s ->
  Stall.owner_id s = User.user_id actor ->
  exists w',
    delete_menu_items_by_category sid category actor w = (inr tt, w')
    /\ items_of_category sid category w' = []
    /\ (forall i, In i (menu_items_table w') <->
                  In i (menu_items_table w)
                  /\ ~ In (MenuItem.item_id i)
                          (map MenuItem.item_id
                               (items_of_category sid category w)))
    /\ writes w'
       = (writes w
          ++ map (fun i => DeleteItem MenuItems (MenuItem.item_id i))
                 (items_of_category sid category w))%list
    /\ stalls_table w' = stalls_table w
    /\ reviews_table w' = reviews_table w
    /\ users_table w' = users_table w.
Proof.
  intros Hs Hown. eexists. split.
  { unfold delete_menu_items_by_category. run. rewrite Hs.
    cbv beta iota zeta.
    rewrite Hown, String.eqb_refl. cbn [negb]. cbv beta iota zeta.
    rewrite for_each_delete_menu_items. reflexivity. }
  cbn [menu_items_table stalls_table reviews_table users_table writes].
  fold (items_of_category sid category w).
  repeat apply conj; try reflexivity.
  - unfold items_of_category at 1. cbn [menu_items_table].
    apply filter_nil_of_false. intros i Hi.
    apply In_fold_delete in Hi. destruct Hi as [Hin Hn].
    match goal with |- ?b = false => destruct b eqn:E end; [|reflexivity].
    exfalso. apply Hn. apply in_map. apply filter_In. now split.
  - intros i. apply In_fold_delete.
Qed.

(** [update_menu_item] by the owner of the stall on an item of the stall,
    step by step: the upload of the image, if any, and then the answer of
    the table. *)
Lemma update_menu_item_run (sid iid : string) (name : option string)
    (price : option float) (description category : option string)
    (image : option UploadFile) (env : Env) (actor : User.t) (w : World)
    (s : Stall.t) (item : MenuItem.t) :
  Items.get_item Stall.stall_id sid (stalls_table w) = Some s ->
  Stall.owner_id s = User.user_id actor ->
  Items.get_item MenuItem.item_id iid (menu_items_table w) = Some item ->
  MenuItem.stall_id item = sid ->
  let prefix := "menu_items/" ++ sid in
  let w_up := after_upload settings image prefix (uuid4 env 0%nat) w in
  let update_expression :=
    (menu_item_update_expression name price description category
                                 (utcnow env)
     ++ match image with
        | Some file =>
            [SET "image_url" []
                 (MenuItem_set_image_url
                    (s3_url settings
                            (s3_key file prefix (uuid4 env 0%nat))))]
        | None => []
        end)%list in
  update_menu_item settings sid iid name price description category image
                   env actor w
  = match price with
    | Some _ => (inl float_not_supported, w_up)
    | None =>
        if truthy name
        then
          let tbl :=
            Items.update_item MenuItem.item_id iid
                              (apply_update update_expression)
                              (menu_items_table w) in
          (inr (Items.get_item MenuItem.item_id iid tbl),
           log (UpdateItem MenuItems iid) (with_records menu_items tbl w_up))
        else (inl validation_exception, w_up)
    end.
Proof.
  intros Hs Hown Hitem Hsid prefix w_up update_expression.
  subst prefix w_up update_expression.
  unfold update_menu_item. run.
  rewrite Hs. cbv beta iota zeta.
  rewrite Hown, String.eqb_refl. cbn [negb]. cbv beta iota zeta.
  rewrite Hitem. cbv beta iota zeta.
  assert (Hsame : String.eqb (MenuItem.stall_id item) sid = true)
    by now apply String.eqb_eq.
  rewrite Hsame. cbn [negb]. cbv beta iota zeta.
  destruct image as [file|].
  - rewrite upload_file_to_s3_run. cbv beta iota zeta.
    rewrite (update_menu_item_sends iid name price description category
               (utcnow env) [SET "image_url" [] _])
      by (right; eexists; reflexivity).
    cbv zeta. unfold after_upload. rewrite upload_file_to_s3_run.
    cbn [snd menu_items_table log].
    destruct price; [reflexivity|]. now destruct (truthy name).
  - cbv beta iota zeta.
    pose proof (update_menu_item_sends iid name price description category
                  (utcnow env) [] w (or_introl eq_refl)) as Hsend.
    cbv zeta in Hsend. rewrite app_nil_r in *. rewrite Hsend.
    unfold after_upload.
    destruct price; [reflexivity|]. now destruct (truthy name).
Qed.

(** X17. An update of a menu item by the owner of its stall.  It is
    refused by the serializer whenever a price is supplied, for the price
    is a Python float; without a price it is refused by DynamoDB when no
    name, or an empty one, is supplied, for the call then passes an empty
    dictionary of names; it goes through exactly when a name that is not
    empty is supplied and no price.  A refused update leaves the tables as
    they were, the image uploaded.  An update that goes through returns
    the stored item: the name is the supplied one; the price, the
    identifier, the stall and the creation time are kept; the description
    and the category change only to a supplied value that is not empty,
    the image URL only to the URL of a supplied image; the other items and
    tables are untouched. *)
Theorem update_menu_item_outcomes (sid iid : string) (name : option string)
    (price : option float) (description category : option string)
    (image : option UploadFile) (env : Env) (actor : User.t) (w : World)
    (s : Stall.t) (item : MenuItem.t) :
  Items.get_item Stall.stall_id sid (stalls_table w) = Some s ->
  Stall.owner_id s = User.user_id actor ->
  Items.get_item MenuItem.item_id iid (menu_items_table w) = Some item ->
  MenuItem.stall_id item = sid ->
  let w_up :=
    after_upload settings image ("menu_items/" ++ sid) (uuid4 env 0%nat) w in
  let run :=
    update_menu_item settings sid iid name price description category image
                     env actor w in
  same_tables w w_up
  /\ (price <> None -> run = (inl float_not_supported, w_up))
  /\ (price = None -> truthy name = false ->
      run = (inl validation_exception, w_up))
  /\ (price = None -> truthy name = true ->
      exists item' w',
        run = (inr (Some item'), w')
        /\ Items.get_item MenuItem.item_id iid (menu_items_table w')
           = Some item'
        /\ Some (MenuItem.name item') = name
        /\ MenuItem.price item' = MenuItem.price item
        /\ MenuItem.item_id item' = MenuItem.item_id item
        /\ MenuItem.stall_id item' = MenuItem.stall_id item
        /\ MenuItem.created_at item' = MenuItem.created_at item
        /\ MenuItem.updated_at item' = utcnow env
        /\ MenuItem.description item'
           = match description with
             | Some (String c d) => String c d
             | _ => MenuItem.description item
             end
        /\ MenuItem.category item'
           = match category with
             | Some (String c d) => String c d
             | _ => MenuItem.category item
             end
        /\ MenuItem.image_url item'
           = match image with
             | Some file =>
                 s3_url settings
                        (s3_key file ("menu_items/" ++ sid) (uuid4 env 0%nat))
             | None => MenuItem.image_url item
             end
        /\ (forall k, k <> iid ->
                      Items.get_item MenuItem.item_id k (menu_items_table w')
                      = Items.get_item MenuItem.item_id k
                                       (menu_items_table w))
        /\ stalls_table w' = stalls_table w
        /\ users_table w' = users_table w
        /\ reviews_table w' = reviews_table w
        /\ writes w' = (writes w_up ++ [UpdateItem MenuItems iid])%list).
Proof.
  intros Hs Hown Hitem Hsid w_up run.
  pose proof (update_menu_item_run sid iid name price description category
                image env actor w s item Hs Hown Hitem Hsid) as Hrun.
  cbv zeta in Hrun. fold w_up run in Hrun.
  split; [apply after_upload_tables|]. split; [|split].
  - intros Hp. rewrite Hrun. destruct price; [reflexivity | now destruct Hp].
  - intros -> Hname. rewrite Hrun, Hname. reflexivity.
  - intros -> Hname. rewrite Hrun, Hname.
    destruct name as [[|c n]|]; try discriminate.
    cbv beta iota zeta.
    match goal with
    | |- context [Items.update_item MenuItem.item_id iid ?u _] =>
        set (upd := u)
    end.
    assert (Hid : keeps MenuItem.item_id upd).
    { subst upd. intros x.
      unfold menu_item_update_expression, set_if_truthy, set_if_not_None.
      destruct description as [[|c' d]|], category as [[|c'' g]|],
               image as [file|]; reflexivity. }
    rewrite (update_item_found MenuItem.item_id iid upd _ item Hitem
               (Hid item)).
    do 2 eexists. split; [reflexivity|].
    cbn [stalls_table users_table menu_items_table reviews_table writes log
         with_records menu_items].
    destruct (after_upload_tables settings image ("menu_items/" ++ sid)
                (uuid4 env 0%nat) w) as (Hu & Hst & _ & Hr).
    fold w_up in Hu, Hst, Hr.
    repeat apply conj; try assumption; try reflexivity;
      try (subst upd;
           unfold menu_item_update_expression, set_if_truthy,
             set_if_not_None;
           destruct description as [[|c' d]|], category as [[|c'' g]|],
                    image as [file|];
           reflexivity).
    + apply update_item_found; [exact Hitem | apply Hid].
    + intros k Hk. now apply get_item_update_item_other.
Qed.

End MenuCatalog.

Lemma create_menu_item_is_refused_witness :
  exists w',
    create_menu_item Demo.settings "stall-a" "Halo-halo" 65%float
      "Shaved ice" "desserts" Demo.photo Demo.env Demo.alice Demo.world
    = (inl float_not_supported, w')
    /\ writes w' = [PutObject "menu_items/stall-a/uuid-0.png"]
    /\ menu_items_table w' = [Demo.item_a1; Demo.item_b1]
    /\ fst (get_menu_items "stall-a" None Demo.carol w')
       = inr [Demo.item_a1].
Proof.
  destruct (create_menu_item_is_refused Demo.settings "stall-a"
              "Halo-halo" 65%float "Shaved ice" "desserts" Demo.photo
              Demo.env Demo.alice Demo.carol Demo.world Demo.stall_a
              eq_refl eq_refl)
    as (w' & Hrun & _ & Hwrites & (_ & _ & Hmenu & _) & Hlist).
  exists w'. split; [exact Hrun|]. split; [exact Hwrites|].
  split; [exact Hmenu|]. now rewrite Hlist.
Defined.

Lemma delete_menu_item_outcomes_witness :
  delete_menu_item "stall-a" "item-b1" Demo.alice Demo.world
  = (inl menu_item_of_other_stall, Demo.world)
  /\ exists w',
       delete_menu_item "stall-a" "item-a1" Demo.alice Demo.world
       = (inr tt, w')
       /\ Items.get_item MenuItem.item_id "item-a1" (menu_items_table w')
          = None.
Proof.
  split.
  - apply (delete_menu_item_outcomes Demo.settings "stall-a" "item-b1"
             Demo.alice Demo.world Demo.stall_a Demo.item_b1 eq_refl eq_refl
             eq_refl).
    discriminate.
  - destruct (delete_menu_item_outcomes Demo.settings "stall-a" "item-a1"
                Demo.alice Demo.world Demo.stall_a Demo.item_a1 eq_refl
                eq_refl eq_refl) as [_ Hok].
    destruct (Hok eq_refl) as (w' & Hrun & Hgone & _).
    now exists w'.
Defined.

Lemma delete_menu_items_by_category_clears_witness :
  exists w',
    delete_menu_items_by_category "stall-a" "mains" Demo.alice Demo.world
    = (inr tt, w')
    /\ items_of_category "stall-a" "mains" w' = []
    /\ writes w' = [DeleteItem MenuItems "item-a1"].
Proof.
  destruct (delete_menu_items_by_category_clears "stall-a" "mains"
              Demo.alice Demo.world Demo.stall_a eq_refl eq_refl)
    as (w' & Hrun & Hnone & _ & Hwrites & _).
  exists w'. repeat split; assumption.
Defined.

Lemma update_menu_item_outcomes_witness :
  update_menu_item Demo.settings "stall-a" "item-a1" (Some "Adobo")
    (Some 0%float) None None None Demo.env Demo.alice Demo.world
  = (inl float_not_supported, Demo.world)
  /\ update_menu_item Demo.settings "stall-a" "item-a1" (Some "")
       None None (Some "ulam") None Demo.env Demo.alice Demo.world
     = (inl validation_exception, Demo.world)
  /\ exists item' w',
       update_menu_item Demo.settings "stall-a" "item-a1" (Some "Adobo")
         None None (Some "ulam") None Demo.env Demo.alice Demo.world
       = (inr (Some item'), w')
       /\ MenuItem.name item' = "Adobo"
       /\ MenuItem.price item' = Decimal 85%float
       /\ MenuItem.category item' = "ulam"
       /\ MenuItem.stall_id item' = "stall-a".
Proof.
  split; [|split].
  - apply (update_menu_item_outcomes Demo.settings "stall-a" "item-a1"
             (Some "Adobo") (Some 0%float) None None None Demo.env
             Demo.alice Demo.world Demo.stall_a Demo.item_a1 eq_refl
             eq_refl eq_refl eq_refl).
    discriminate.
  - apply (update_menu_item_outcomes Demo.settings "stall-a" "item-a1"
             (Some "") None None (Some "ulam") None Demo.env
             Demo.alice Demo.world Demo.stall_a Demo.item_a1 eq_refl
             eq_refl eq_refl eq_refl); reflexivity.
  - destruct (update_menu_item_outcomes Demo.settings "stall-a" "item-a1"
                (Some "Adobo") None None (Some "ulam") None Demo.env
                Demo.alice Demo.world Demo.stall_a Demo.item_a1 eq_refl
                eq_refl eq_refl eq_refl) as (_ & _ & _ & Hok).
    destruct (Hok eq_refl eq_refl)
      as (item' & w' & Hrun & _ & Hname & Hprice & _ & Hsid & _ & _ & _
          & Hcat & _).
    exists item', w'. injection Hname as Hname.
    repeat split; assumption.
Defined.

(* ================================================================== *)
(** * Further properties: the review ledger *)

Section ReviewLedgerMore.

Lemma distinct_inj {R B : Type} (f : R -> B) (tbl : list R) (x y : R) :
  distinct f tbl -> In x tbl -> In y tbl -> f x = f y -> x = y.
Proof.
  unfold distinct. induction tbl as [|z tbl IH]; [contradiction|].
  cbn. intros Hd Hx Hy Hf. apply NoDup_cons_iff in Hd.
  destruct Hd as [Hz Hd].
  destruct Hx as [<-|Hx], Hy as [<-|Hy].
  - reflexivity.
  - exfalso. apply Hz. rewrite Hf. now apply in_map.
  - exfalso. apply Hz. rewrite <- Hf. now apply in_map.
  - now apply IH.
Qed.

(** X18. On an existing stall, a write to a review is denied in this
    order: a missing review with [NotFound]; a review of another stall with
    [Mismatch], its author included; a review of the stall by another user
    with [Forbidden], the owner of the stall included.  This holds for the
    update (whatever the rating) and for the delete, and the world is
    unchanged. *)
Theorem review_write_denials (sid rid : string) (review : ReviewCreate)
    (env : Env) (actor : User.t) (w : World) (s : Stall.t) :
  Items.get_item Stall.stall_id sid (stalls_table w) = Some s ->
  (Items.get_item Review.review_id rid (reviews_table w) = None ->
   update_review sid rid review env actor w = (inl review_not_found, w)
   /\ delete_review sid rid actor w = (inl review_not_found, w))
  /\ (forall r,
        Items.get_item Review.review_id rid (reviews_table w) = Some r ->
        Review.stall_id r <> sid ->
        update_review sid rid review env actor w
        = (inl review_of_other_stall, w)
        /\ delete_review sid rid actor w = (inl review_of_other_stall, w))
  /\ (forall r,
        Items.get_item Review.review_id rid (reviews_table w) = Some r ->
        Review.stall_id r = sid ->
        Review.user_id r <> User.user_id actor ->
        update_review sid rid review env actor w = (inl not_the_author, w)
        /\ delete_review sid rid actor w = (inl not_the_author, w))
  /\ denial_kind review_not_found = Some NotFound
  /\ denial_kind review_of_other_stall = Some Mismatch
  /\ denial_kind not_the_author = Some Forbidden.
Proof.
  intros Hs. unfold update_review, delete_review. run.
  rewrite Hs. cbv beta iota zeta.
  repeat apply conj; try reflexivity.
  - intros ->. split; reflexivity.
  - intros r -> Hne. apply String.eqb_neq in Hne.
    cbv beta iota zeta. rewrite Hne. split; reflexivity.
  - intros r -> He Hne. apply String.eqb_neq in Hne.
    cbv beta iota zeta. rewrite He, String.eqb_refl, Hne.
    split; reflexivity.
Qed.

(** [update_review] never returns and never writes: either a check denies
    the request, or the table refuses the update expression, which names
    the attribute [comment], a reserved word of DynamoDB, without a
    placeholder. *)
Lemma update_review_raises (sid rid : string) (review : ReviewCreate)
    (env : Env) (actor : User.t) (w : World) :
  exists e, update_review sid rid review env actor w = (inl e, w).
Proof.
  unfold update_review, update_item. run.
  destruct (Items.get_item Stall.stall_id _ _); cbv beta iota zeta;
    [|eexists; reflexivity].
  destruct (Items.get_item Review.review_id _ _); cbv beta iota zeta;
    [|eexists; reflexivity].
  destruct (negb _); cbv beta iota zeta; [eexists; reflexivity|].
  destruct (negb _); cbv beta iota zeta; [eexists; reflexivity|].
  destruct (rating_invalid _); cbv beta iota zeta; eexists; reflexivity.
Qed.

(** X19. An update of a review never goes through.  When every check of
    the handler has passed (the stall and the review exist, the review is
    of the stall and by the caller, the rating is from 1 to 5), the table
    refuses the request, because its update expression names the attribute
    [comment], a reserved word of DynamoDB, without a placeholder; the
    review stays as it was.  Whatever the request, [update_review] raises
    and leaves the world as it was. *)
Theorem update_review_is_refused (sid rid : string) (review : ReviewCreate)
    (env : Env) (actor : User.t) (w : World) (s : Stall.t) (r : Review.t) :
  Items.get_item Stall.stall_id sid (stalls_table w) = Some s ->
  Items.get_item Review.review_id rid (reviews_table w) = Some r ->
  Review.stall_id r = sid ->
  Review.user_id r = User.user_id actor ->
  1 <= rc_rating review <= 5 ->
  update_review sid rid review env actor w = (inl validation_exception, w)
  /\ is_reserved "comment" = true
  /\ (forall sid' rid' review' env' actor',
         exists e,
           update_review sid' rid' review' env' actor' w = (inl e, w)).
Proof.
  intros Hs Hr Hsid Hauth Hrating.
  apply rating_valid_spec in Hrating.
  split; [|split; [reflexivity|]].
  - unfold update_review. run. rewrite Hs. cbv beta iota zeta.
    rewrite Hr. cbv beta iota zeta.
    rewrite Hsid, Hauth, !String.eqb_refl. cbn [negb]. cbv beta iota zeta.
    rewrite Hrating. cbv beta iota zeta. reflexivity.
  - intros sid' rid' review' env' actor'. apply update_review_raises.
Qed.

(** X20. A delete of a review by its author goes through: the review is
    gone and the other reviews are untouched; and when no user had two
    reviews of one stall, the author then has no review of the stall left,
    so that a new one can be created. *)
Theorem delete_review_removes (sid rid : string) (actor : User.t)
    (w : World) (s : Stall.t) (r : Review.t) :
  Items.get_item Stall.stall_id sid (stalls_table w) = Some s ->
  Items.get_item Review.review_id rid (reviews_table w) = Some r ->
  Review.stall_id r = sid ->
  Review.user_id r = User.user_id actor ->
  exists w',
    delete_review sid rid actor w = (inr tt, w')
    /\ Items.get_item Review.review_id rid (reviews_table w') = None
    /\ (forall k, k <> rid ->
                  Items.get_item Review.review_id k (reviews_table w')
                  = Items.get_item Review.review_id k (reviews_table w))
    /\ writes w' = (writes w ++ [DeleteItem Reviews rid])%list
    /\ stalls_table w' = stalls_table w
    /\ (distinct review_pair (reviews_table w) ->
        ~ reviewed_by sid (User.user_id actor) w').
Proof.
  intros Hs Hr Hsid Hauth. eexists. split.
  { unfold delete_review. run. rewrite Hs. cbv beta iota zeta.
    rewrite Hr. cbv beta iota zeta.
    rewrite Hsid, Hauth, !String.eqb_refl. cbn [negb]. cbv beta iota zeta.
    unfold delete_item. reflexivity. }
  cbn [stalls_table reviews_table writes log with_records reviews key_of
       records table_name].
  repeat apply conj; try reflexivity.
  - apply get_item_delete_item.
  - intros k Hk. now apply get_item_delete_item_other.
  - intros Hd (r' & Hin & Hs' & Hu').
    apply In_delete_item in Hin. destruct Hin as [Hin Hk].
    apply get_item_Some in Hr. destruct Hr as [Hrin Hrk].
    assert (r' = r).
    { apply (distinct_inj review_pair (reviews_table w)); try assumption.
      unfold review_pair. congruence. }
    congruence.
Qed.

End ReviewLedgerMore.

Section ReviewInvariants.

(** What a creation of a review that went through has checked and done. *)
Lemma create_review_inr_inv (sid : string) (review : ReviewCreate)
    (env : Env) (actor : User.t) (w w' : World) (r : Review.t) :
  create_review sid review env actor w = (inr r, w') ->
  (exists s,
      Items.get_item Stall.stall_id sid (stalls_table w) = Some s
      /\ Stall.owner_id s <> User.user_id actor)
  /\ ~ reviewed_by sid (User.user_id actor) w
  /\ Review.stall_id r = sid
  /\ Review.user_id r = User.user_id actor
  /\ reviews_table w'
     = Items.put_item Review.review_id r (reviews_table w)
  /\ stalls_table w' = stalls_table w
  /\ users_table w' = users_table w
  /\ menu_items_table w' = menu_items_table w.
Proof.
  unfold create_review. run.
  destruct (Items.get_item Stall.stall_id sid (stalls_table w)) as [s|];
    [|discriminate].
  cbv beta iota zeta.
  destruct (String.eqb_spec (Stall.owner_id s) (User.user_id actor))
    as [Ho|Ho]; [discriminate|].
  cbv beta iota zeta.
  destruct (truthy (Items.scan _ (reviews_table w))) eqn:Hscan;
    [discriminate|].
  cbv beta iota zeta.
  destruct (rating_invalid (rc_rating review)); [discriminate|].
  cbv beta iota zeta. unfold put_item. intros [= <- <-].
  repeat apply conj; try reflexivity.
  - now exists s.
  - intros H. apply scan_reviews_of_pair in H. congruence.
Qed.

(** X21. After a review of a stall has been created, the listing of the
    reviews of the stall holds it, and every further creation by the same
    user for the same stall is denied with [DuplicateReview], whatever its
    rating and comment, the world unchanged. *)
Theorem create_review_twice (sid : string) (review : ReviewCreate)
    (env : Env) (actor reader : User.t) (w w1 : World) (r : Review.t) :
  create_review sid review env actor w = (inr r, w1) ->
  (exists listing,
      get_reviews sid reader w1 = (inr listing, w1) /\ In r listing)
  /\ (forall second env2,
        create_review sid second env2 actor w1 = (inl already_reviewed, w1))
  /\ denial_kind already_reviewed = Some DuplicateReview.
Proof.
  intros Hrun.
  destruct (create_review_inr_inv _ _ _ _ _ _ _ Hrun)
    as ((s & Hs & Ho) & _ & Hsid & Huid & Htable & Hstalls & _).
  assert (Hin : In r (reviews_table w1))
    by (rewrite Htable; apply In_put_item).
  repeat apply conj; try reflexivity.
  - eexists. split.
    + unfold get_reviews. run. rewrite Hstalls, Hs. reflexivity.
    + unfold Items.scan. apply filter_In. split; [exact Hin|].
      now apply String.eqb_eq.
  - intros second env2. unfold create_review. run.
    rewrite Hstalls, Hs. cbv beta iota zeta.
    apply String.eqb_neq in Ho. rewrite Ho. cbv beta iota zeta.
    assert (Hdup : truthy (Items.scan
                             (fun r0 =>
                                String.eqb (Review.stall_id r0) sid
                                && String.eqb (Review.user_id r0)
                                              (User.user_id actor))
                             (reviews_table w1)) = true).
    { apply scan_reviews_of_pair. now exists r. }
    now rewrite Hdup.
Qed.

(** X22. The writes of the review ledger keep the reviews distinct by
    identifier and keep at most one review per stall and user, whatever
    their outcome. *)
Theorem review_writes_keep_reviews_consistent (w : World) :
  reviews_consistent w ->
  (forall sid review env actor,
      reviews_consistent (snd (create_review sid review env actor w)))
  /\ (forall sid rid review env actor,
        reviews_consistent (snd (update_review sid rid review env actor w)))
  /\ (forall sid rid actor,
        reviews_consistent (snd (delete_review sid rid actor w))).
Proof.
  intros [Hid Hpair]. unfold reviews_consistent. repeat apply conj.
  - intros sid review env actor.
    destruct (create_review sid review env actor w) as [[e|r] w'] eqn:Hrun.
    + assert (w' = w) as ->; [|now split].
      revert Hrun. unfold create_review, put_item. run.
      destruct (Items.get_item _ _ _); cbv beta iota zeta;
        [|now intros [= <- <-]].
      destruct (String.eqb _ _); cbv beta iota zeta;
        [now intros [= <- <-]|].
      destruct (truthy _); cbv beta iota zeta; [now intros [= <- <-]|].
      destruct (rating_invalid _); cbv beta iota zeta;
        [now intros [= <- <-] | discriminate].
    + destruct (create_review_inr_inv _ _ _ _ _ _ _ Hrun)
        as (_ & Hnone & Hsid & Huid & Htable & _).
      cbn [snd]. rewrite Htable. split.
      * now apply put_item_distinct_key.
      * apply put_item_distinct; try assumption.
        intros Hin. apply in_map_iff in Hin.
        destruct Hin as (r0 & Hp & Hin0). apply Hnone.
        exists r0. unfold review_pair in Hp.
        injection Hp as H1 H2. repeat split; congruence.
  - intros sid rid review env actor.
    destruct (update_review_raises sid rid review env actor w) as [e ->].
    now split.
  - intros sid rid actor. unfold delete_review, delete_item. run.
    destruct (Items.get_item Stall.stall_id _ _); cbv beta iota zeta;
      [|now split].
    destruct (Items.get_item Review.review_id _ _); cbv beta iota zeta;
      [|now split].
    destruct (negb _); cbv beta iota zeta; [now split|].
    destruct (negb _); cbv beta iota zeta; [now split|].
    cbn [snd reviews_table log with_records reviews records key_of].
    split; now apply delete_item_distinct.
Qed.

(** X23. The writes of the review ledger never make a self-review: when no
    stored review of a stored stall is by the owner of that stall, this is
    still so after a creation, an update or a delete of a review. *)
Theorem review_writes_keep_no_self_review (w : World) :
  no_self_review w ->
  (forall sid review env actor,
      no_self_review (snd (create_review sid review env actor w)))
  /\ (forall sid rid review env actor,
        no_self_review (snd (update_review sid rid review env actor w)))
  /\ (forall sid rid actor,
        no_self_review (snd (delete_review sid rid actor w))).
Proof.
  intros Hinv. repeat apply conj.
  - intros sid review env actor.
    destruct (create_review sid review env actor w) as [[e|r] w'] eqn:Hrun.
    + assert (w' = w) as ->; [|exact Hinv].
      revert Hrun. unfold create_review, put_item. run.
      destruct (Items.get_item _ _ _); cbv beta iota zeta;
        [|now intros [= <- <-]].
      destruct (String.eqb _ _); cbv beta iota zeta;
        [now intros [= <- <-]|].
      destruct (truthy _); cbv beta iota zeta; [now intros [= <- <-]|].
      destruct (rating_invalid _); cbv beta iota zeta;
        [now intros [= <- <-] | discriminate].
    + destruct (create_review_inr_inv _ _ _ _ _ _ _ Hrun)
        as ((s & Hs & Ho) & _ & Hsid & Huid & Htable & Hstalls & _).
      cbn [snd]. intros r0 s0 Hin Hget. rewrite Hstalls in Hget.
      rewrite Htable in Hin. apply In_put_item_inv in Hin.
      destruct Hin as [->|Hin]; [|now apply (Hinv r0 s0)].
      rewrite Hsid in Hget. rewrite Huid. congruence.
  - intros sid rid review env actor.
    destruct (update_review_raises sid rid review env actor w) as [e ->].
    exact Hinv.
  - intros sid rid actor. unfold delete_review, delete_item. run.
    destruct (Items.get_item Stall.stall_id _ _); cbv beta iota zeta;
      [|exact Hinv].
    destruct (Items.get_item Review.review_id _ _); cbv beta iota zeta;
      [|exact Hinv].
    destruct (negb _); cbv beta iota zeta; [exact Hinv|].
    destruct (negb _); cbv beta iota zeta; [exact Hinv|].
    cbn [snd]. intros r0 s0 Hin Hget.
    cbn [reviews_table stalls_table log with_records reviews records
         key_of] in Hin, Hget.
    apply In_delete_item in Hin. now apply (Hinv r0 s0).
Qed.

End ReviewInvariants.

Lemma Demo_reviews_consistent : reviews_consistent Demo.world.
Proof.
  split; unfold distinct; cbn;
    repeat (constructor; [cbn; intuition discriminate|]); constructor.
Qed.

Lemma Demo_no_self_review : no_self_review Demo.world.
Proof.
  intros r s [<-|[]] Hget. cbn in Hget. injection Hget as <-. discriminate.
Qed.

Lemma review_write_denials_witness :
  update_review "stall-a" "review-a1"
    {| rc_rating := 1; rc_comment := "Hindi masarap" |}
    Demo.env Demo.alice Demo.world = (inl not_the_author, Demo.world)
  /\ delete_review "stall-a" "review-a1" Demo.alice Demo.world
     = (inl not_the_author, Demo.world)
  /\ delete_review "stall-b" "review-a1" Demo.carol Demo.world
     = (inl review_of_other_stall, Demo.world).
Proof.
  destruct (review_write_denials "stall-a" "review-a1"
              {| rc_rating := 1; rc_comment := "Hindi masarap" |}
              Demo.env Demo.alice Demo.world Demo.stall_a eq_refl)
    as (_ & _ & Hother & _).
  destruct (Hother Demo.review_a1 eq_refl eq_refl) as [Hupdate Hdelete];
    [discriminate|].
  destruct (review_write_denials "stall-b" "review-a1"
              {| rc_rating := 1; rc_comment := "Hindi masarap" |}
              Demo.env Demo.carol Demo.world Demo.stall_b eq_refl)
    as (_ & Hmismatch & _).
  destruct (Hmismatch Demo.review_a1 eq_refl) as [_ Hdelete'];
    [discriminate|].
  repeat split; assumption.
Defined.

Lemma update_review_is_refused_witness :
  update_review "stall-a" "review-a1"
    {| rc_rating := 4; rc_comment := "Masarap pa rin" |}
    Demo.env Demo.carol Demo.world
  = (inl validation_exception, Demo.world).
Proof.
  apply (update_review_is_refused "stall-a" "review-a1"
           {| rc_rating := 4; rc_comment := "Masarap pa rin" |}
           Demo.env Demo.carol Demo.world Demo.stall_a Demo.review_a1
           eq_refl eq_refl eq_refl eq_refl).
  cbn. lia.
Defined.

Lemma delete_review_removes_witness :
  exists w',
    delete_review "stall-a" "review-a1" Demo.carol Demo.world = (inr tt, w')
    /\ ~ reviewed_by "stall-a" "carol" w'.
Proof.
  destruct (delete_review_removes "stall-a" "review-a1" Demo.carol
              Demo.world Demo.stall_a Demo.review_a1 eq_refl eq_refl
              eq_refl eq_refl) as (w' & Hrun & _ & _ & _ & _ & Hfree).
  exists w'. split; [exact Hrun|]. apply Hfree.
  apply Demo_reviews_consistent.
Defined.

Lemma create_review_twice_witness :
  create_review "stall-a" {| rc_rating := 9; rc_comment := "Ulit" |}
    Demo.env Demo.bob
    (snd (create_review "stall-a"
            {| rc_rating := 4; rc_comment := "Sarap" |}
            Demo.env Demo.bob Demo.world))
  = (inl already_reviewed,
     snd (create_review "stall-a"
            {| rc_rating := 4; rc_comment := "Sarap" |}
            Demo.env Demo.bob Demo.world)).
Proof.
  apply (create_review_twice "stall-a"
           {| rc_rating := 4; rc_comment := "Sarap" |} Demo.env Demo.bob
           Demo.carol Demo.world
           (snd (create_review "stall-a"
                   {| rc_rating := 4; rc_comment := "Sarap" |}
                   Demo.env Demo.bob Demo.world))
           {| Review.review_id := "uuid-0"; Review.stall_id := "stall-a";
              Review.user_id := "bob"; Review.user_name := "Bob";
              Review.rating := 4; Review.comment := "Sarap";
              Review.created_at := 1700000000;
              Review.updated_at := 1700000000 |} eq_refl).
Defined.

Lemma review_writes_keep_reviews_consistent_witness :
  reviews_consistent
    (snd (create_review "stall-a"
            {| rc_rating := 4; rc_comment := "Sarap" |}
            Demo.env Demo.bob Demo.world)).
Proof.
  apply (review_writes_keep_reviews_consistent Demo.world
           Demo_reviews_consistent).
Defined.

Lemma review_writes_keep_no_self_review_witness :
  no_self_review
    (snd (create_review "stall-a"
            {| rc_rating := 4; rc_comment := "Sarap" |}
            Demo.env Demo.alice Demo.world))
  /\ no_self_review
       (snd (create_review "stall-a"
               {| rc_rating := 4; rc_comment := "Sarap" |}
               Demo.env Demo.bob Demo.world)).
Proof.
  split; apply (review_writes_keep_no_self_review Demo.world
                  Demo_no_self_review).
Defined.

(* ================================================================== *)
(** * Further properties: listings and the users table *)

Section ListingsAndUsers.
Variable settings : Settings.

(** X24. The listing of the menu of a stored stall holds exactly the
    stored items of the stall, in scan order, narrowed to a category when
    one is given; a category that is the empty string is no filter at all;
    for a stall that is not stored the listing raises [NotFound] whatever
    items refer to it. *)
Theorem get_menu_items_listing (sid : string) (category : option string)
    (reader : User.t) (w : World) :
  (Items.get_item Stall.stall_id sid (stalls_table w) = None ->
   get_menu_items sid category reader w = (inl stall_not_found, w))
  /\ (forall s,
        Items.get_item Stall.stall_id sid (stalls_table w) = Some s ->
        exists listing,
          get_menu_items sid category reader w = (inr listing, w)
          /\ (forall item,
                 In item listing <->
                 In item (menu_items_table w)
                 /\ MenuItem.stall_id item = sid
                 /\ match category with
                    | Some (String c cs) =>
                        MenuItem.category item = String c cs
                    | _ => True
                    end)
          /\ (category = None \/ category = Some "" ->
              listing = items_of sid w)
          /\ (forall c cs, category = Some (String c cs) ->
                           listing = items_of_category sid (String c cs) w)).
Proof.
  unfold get_menu_items. run. split.
  - intros ->. reflexivity.
  - intros s ->. cbv beta iota zeta.
    destruct category as [[|c cs]|];
      cbn [truthy truthy_optional truthy_str if_not_None];
      cbv beta iota zeta; eexists; (split; [reflexivity|]);
      unfold Items.scan, items_of, items_of_category;
      repeat apply conj;
      try (intros item; rewrite filter_In, ?andb_true_iff, !String.eqb_eq;
           tauto);
      try reflexivity;
      try (intros [H|H]; discriminate);
      try (intros c0 cs0 H; discriminate).
    intros c0 cs0 [= -> ->]. reflexivity.
Qed.

(** One step of a handler, towards the world it leaves. *)
Ltac walk :=
  cbv beta iota zeta;
  first
    [ reflexivity
    | rewrite upload_file_to_s3_run
    | rewrite for_each_delete_menu_items
    | rewrite for_each_delete_reviews
    | match goal with
      | |- context [Items.get_item ?key ?k ?tbl] =>
          destruct (Items.get_item key k tbl)
      | |- context [negb ?b] => destruct (negb b)
      | |- context [if String.eqb ?a ?b then _ else _] =>
          destruct (String.eqb a b)
      | |- context [truthy ?l] => destruct (truthy l)
      | |- context [rating_invalid ?r] => destruct (rating_invalid r)
      | |- context [match ?o with Some _ => _ | None => _ end] =>
          destruct o
      | |- context [if ?b then _ else _] => destruct b
      end ].

(** X25. A stored user is never changed after the registration: the
    endpoints of the stalls, of the menu and of the reviews leave the users
    table as it is, whatever their outcome. *)
Theorem users_are_immutable (w : World) :
  (forall name description latitude longitude address image env user,
      users_table
        (snd (create_stall settings name description latitude longitude
                           address image env user w)) = users_table w)
  /\ (forall sid name description latitude longitude address image env user,
        users_table
          (snd (update_stall settings sid name description latitude
                             longitude address image env user w))
        = users_table w)
  /\ (forall sid user,
        users_table (snd (delete_stall sid user w)) = users_table w)
  /\ (forall sid name price description category image env user,
        users_table
          (snd (create_menu_item settings sid name price description
                                 category image env user w))
        = users_table w)
  /\ (forall sid iid name price description category image env user,
        users_table
          (snd (update_menu_item settings sid iid name price description
                                 category image env user w))
        = users_table w)
  /\ (forall sid iid user,
        users_table (snd (delete_menu_item sid iid user w)) = users_table w)
  /\ (forall sid category user,
        users_table (snd (delete_menu_items_by_category sid category user w))
        = users_table w)
  /\ (forall sid review env user,
        users_table (snd (create_review sid review env user w))
        = users_table w)
  /\ (forall sid rid review env user,
        users_table (snd (update_review sid rid review env user w))
        = users_table w)
  /\ (forall sid rid user,
        users_table (snd (delete_review sid rid user w)) = users_table w).
Proof.
  repeat apply conj; intros;
    unfold create_stall, update_stall, delete_stall, create_menu_item,
      update_menu_item, delete_menu_item, delete_menu_items_by_category,
      create_review, update_review, delete_review;
    unfold put_item, update_item; run; repeat walk.
  - unfold delete_item at 1. cbv beta iota zeta.
    cbn [key_of records table_name stalls menu_items_table log
         with_records].
    repeat walk.
Qed.

End ListingsAndUsers.

(* ================================================================== *)
(** * Further properties: the numbers of the tables *)

Section Numbers.
Variable settings : Settings.

Lemma Forall_delete_item {R : Type} (P : R -> Prop) (key : R -> string)
    (k : string) (tbl : list R) :
  Forall P tbl -> Forall P (Items.delete_item key k tbl).
Proof.
  rewrite !Forall_forall. intros H x Hin.
  apply In_delete_item in Hin. now apply H.
Qed.

Lemma Forall_fold_delete {R : Type} (P : R -> Prop) (key : R -> string)
    (ks : list string) (tbl : list R) :
  Forall P tbl ->
  Forall P (fold_left (fun t k => Items.delete_item key k t) ks tbl).
Proof.
  rewrite !Forall_forall. intros H x Hin.
  apply In_fold_delete in Hin. now apply H.
Qed.

(** A world with the tables of a world whose numbers are [Decimal]s. *)
Lemma decimals_only_same_tables (w w' : World) :
  same_tables w w' -> decimals_only w -> decimals_only w'.
Proof.
  intros (_ & Hs & Hm & _) [H1 H2]. unfold decimals_only.
  rewrite Hs, Hm. now split.
Qed.

(** One step of a handler that leaves the stalls and the menu items. *)
Ltac leave :=
  cbv beta iota zeta;
  first
    [ assumption
    | rewrite upload_file_to_s3_run
    | match goal with
      | |- context [Items.get_item ?key ?k ?tbl] =>
          destruct (Items.get_item key k tbl)
      | |- context [negb ?b] => destruct (negb b)
      | |- context [if String.eqb ?a ?b then _ else _] =>
          destruct (String.eqb a b)
      | |- context [truthy ?l] => destruct (truthy l)
      | |- context [rating_invalid ?r] => destruct (rating_invalid r)
      | |- context [if ?b then _ else _] => destruct b
      end ].

(** X26. No endpoint stores a Python float.  When the stalls and the menu
    items of the tables hold their numbers as [Decimal]s, as a table
    returns them, they still do after any call of a writing endpoint of
    the stalls, the menu or the reviews, whatever its outcome: a record
    with a float is refused, and an update that goes through carries the
    stored numbers over. *)
Theorem tables_hold_no_float (w : World) :
  decimals_only w ->
  (forall name description latitude longitude address image env user,
      decimals_only
        (snd (create_stall settings name description latitude longitude
                           address image env user w)))
  /\ (forall sid name description latitude longitude address image env user,
        decimals_only
          (snd (update_stall settings sid name description latitude
                             longitude address image env user w)))
  /\ (forall sid user, decimals_only (snd (delete_stall sid user w)))
  /\ (forall sid name price description category image env user,
        decimals_only
          (snd (create_menu_item settings sid name price description
                                 category image env user w)))
  /\ (forall sid iid name price description category image env user,
        decimals_only
          (snd (update_menu_item settings sid iid name price description
                                 category image env user w)))
  /\ (forall sid iid user,
        decimals_only (snd (delete_menu_item sid iid user w)))
  /\ (forall sid category user,
        decimals_only (snd (delete_menu_items_by_category sid category user
                                                          w)))
  /\ (forall sid review env user,
        decimals_only (snd (create_review sid review env user w)))
  /\ (forall sid rid review env user,
        decimals_only (snd (update_review sid rid review env user w)))
  /\ (forall sid rid user,
        decimals_only (snd (delete_review sid rid user w))).
Proof.
  intros Hinv. pose proof Hinv as [Hstalls Hmenu].
  repeat apply conj.
  - intros name description latitude longitude address image env user.
    unfold create_stall. unfold bind at 1. rewrite upload_file_to_s3_run.
    unfold put_item. run. exact Hinv.
  - intros sid name description latitude longitude address image env user.
    destruct (Items.get_item Stall.stall_id sid (stalls_table w)) as [s|]
      eqn:Hs.
    2: { unfold update_stall. run. rewrite Hs. exact Hinv. }
    destruct (String.eqb_spec (Stall.owner_id s) (User.user_id user))
      as [Hown|Hne].
    2: { unfold update_stall. run. rewrite Hs. cbv beta iota zeta.
         apply String.eqb_neq in Hne. rewrite Hne. exact Hinv. }
    assert (Hstored : existsb is_float (item_numbers stalls s) = false).
    { apply get_item_Some in Hs. destruct Hs as [Hin _].
      rewrite Forall_forall in Hstalls. now apply Hstalls. }
    rewrite (update_stall_run settings sid name description latitude
               longitude address image env user w s Hs Hown Hstored).
    cbv zeta.
    pose proof (after_upload_tables settings image
                  ("stalls/" ++ User.user_id user) (uuid4 env 0%nat) w)
      as Hup.
    pose proof (decimals_only_same_tables _ _ Hup Hinv) as Hinv_up.
    destruct (any [truthy latitude; truthy longitude; truthy address])
      eqn:Hsent; cbn [andb].
    2: { rewrite andb_false_r. exact Hinv_up. }
    destruct latitude as [lat|]; [exact Hinv_up|].
    destruct longitude as [lon|]; [exact Hinv_up|].
    rewrite andb_true_r.
    destruct (truthy name); [|exact Hinv_up].
    cbn [snd]. destruct Hup as (_ & _ & Hm & _).
    split; cbn [stalls_table menu_items_table log with_records stalls];
      [|rewrite Hm; exact Hmenu].
    unfold Items.update_item. apply Forall_map.
    eapply Forall_impl; [|exact Hstalls]. cbv beta. intros x Hx.
    destruct (Items.has_key Stall.stall_id sid x); [|exact Hx].
    unfold stall_update_expression, set_if_truthy. rewrite Hsent.
    destruct name as [[|c n]|], description as [[|c' d]|],
             image as [file|]; exact Hstored.
  - intros sid user. unfold delete_stall. run.
    destruct (Items.get_item _ _ _); [|exact Hinv].
    destruct (negb _); [exact Hinv|].
    unfold delete_item at 1. cbv beta iota zeta.
    cbn [key_of records table_name stalls menu_items_table log
         with_records].
    rewrite for_each_delete_menu_items. cbn [reviews_table].
    rewrite for_each_delete_reviews. cbn [snd]. split.
    + cbn [stalls_table]. now apply Forall_delete_item.
    + cbn [menu_items_table]. now apply Forall_fold_delete.
  - intros sid name price description category image env user.
    unfold create_menu_item, put_item. run. repeat leave.
  - intros sid iid name price description category image env user.
    destruct (Items.get_item Stall.stall_id sid (stalls_table w)) as [s|]
      eqn:Hs.
    2: { unfold update_menu_item. run. rewrite Hs. exact Hinv. }
    destruct (String.eqb_spec (Stall.owner_id s) (User.user_id user))
      as [Hown|Hne].
    2: { unfold update_menu_item. run. rewrite Hs. cbv beta iota zeta.
         apply String.eqb_neq in Hne. rewrite Hne. exact Hinv. }
    destruct (Items.get_item MenuItem.item_id iid (menu_items_table w))
      as [item|] eqn:Hitem.
    2: { unfold update_menu_item. run. rewrite Hs. cbv beta iota zeta.
         rewrite Hown, String.eqb_refl. cbn [negb]. cbv beta iota zeta.
         rewrite Hitem. exact Hinv. }
    destruct (String.eqb_spec (MenuItem.stall_id item) sid) as [Hsid|Hne].
    2: { unfold update_menu_item. run. rewrite Hs. cbv beta iota zeta.
         rewrite Hown, String.eqb_refl. cbn [negb]. cbv beta iota zeta.
         rewrite Hitem. cbv beta iota zeta.
         apply String.eqb_neq in Hne. rewrite Hne. exact Hinv. }
    rewrite (update_menu_item_run settings sid iid name price description
               category image env user w s item Hs Hown Hitem Hsid).
    cbv zeta.
    pose proof (after_upload_tables settings image ("menu_items/" ++ sid)
                  (uuid4 env 0%nat) w) as Hup.
    pose proof (decimals_only_same_tables _ _ Hup Hinv) as Hinv_up.
    destruct price as [p|]; [exact Hinv_up|].
    destruct (truthy name); [|exact Hinv_up].
    cbn [snd]. destruct Hup as (_ & Hst & _ & _).
    split; cbn [stalls_table menu_items_table log with_records menu_items];
      [rewrite Hst; exact Hstalls|].
    apply Forall_forall. intros item' Hin.
    assert (Hkeep : keeps MenuItem.price
                      (apply_update
                         (menu_item_update_expression name None description
                            category (utcnow env)
                          ++ match image with
                             | Some file =>
                                 [SET "image_url" []
                                      (MenuItem_set_image_url
                                         (s3_url settings
                                            (s3_key file
                                               ("menu_items/" ++ sid)
                                               (uuid4 env 0%nat))))]
                             | None => []
                             end)%list)).
    { apply menu_item_update_keeps_price.
      destruct image; [right; eexists; reflexivity | now left]. }
    destruct (In_update_item_keeps MenuItem.price MenuItem.item_id iid _ _
                item' Hkeep Hin) as (item0 & Hin0 & Hprice).
    rewrite Forall_forall in Hmenu. specialize (Hmenu item0 Hin0).
    cbn [item_numbers menu_items] in *. now rewrite Hprice.
  - intros sid iid user. unfold delete_menu_item, delete_item. run.
    repeat leave. cbn [snd]. split; [exact Hstalls|].
    cbn [menu_items_table log with_records menu_items records key_of].
    now apply Forall_delete_item.
  - intros sid category user. unfold delete_menu_items_by_category. run.
    destruct (Items.get_item _ _ _); [|exact Hinv].
    destruct (negb _); [exact Hinv|].
    cbv beta iota zeta. rewrite for_each_delete_menu_items. cbn [snd].
    split; [exact Hstalls|]. cbn [menu_items_table].
    now apply Forall_fold_delete.
  - intros sid review env user. unfold create_review, put_item. run.
    repeat leave.
  - intros sid rid review env user.
    destruct (update_review_raises sid rid review env user w) as [e ->].
    exact Hinv.
  - intros sid rid user. unfold delete_review, delete_item. run.
    repeat leave.
Qed.

End Numbers.

Lemma Demo_decimals_only : decimals_only Demo.world.
Proof.
  split; repeat constructor.
Qed.

Lemma tables_hold_no_float_witness :
  decimals_only
    (snd (update_stall Demo.settings "stall-a" (Some "Adobo Republic") None
                       None None (Some "Pedro Gil") None Demo.env Demo.alice
                       Demo.world))
  /\ decimals_only
       (snd (create_stall Demo.settings "Carinderia" "Lutong bahay"
                          14.625%float 121%float "Quiapo" Demo.photo Demo.env
                          Demo.alice Demo.world)).
Proof.
  split; apply (tables_hold_no_float Demo.settings Demo.world
                  Demo_decimals_only).
Defined.
